(** * Oracle stored-procedure gateway: marshalling and result normalisation

    A shallow embedding of the repository package (CallProcedure,
    GetProcedureInfo, convertInputValue, createOutputParameter,
    processOutputParameters, processRowsResult) and of the request package
    (CallProcedureRequest.Validate), with the properties the specification
    states about them.

    Go strings are byte sequences and are modelled by [string]; a Go map
    keyed by strings is a [gmap string _]; the database handle is an oracle
    threaded through a state monad that also records every driver call.
    Calls of log.Printf are left out: they take no part in what is computed. *)

From Stdlib Require Import ZArith NArith Ascii SpecFloat.
From stdpp Require Import base strings list gmap fin_maps pretty.

(** ** Go values *)

(** [float64]: an IEEE-754 binary64 number. *)
Definition float64 : Type := spec_float.

(** float64(v) for an integer v: round to nearest, ties to even. *)
Definition float64_of_int (v : Z) : float64 := binary_normalize 53 1024 v 0 false.

(** [time.Time]: an instant (nanoseconds since the epoch) and the offset of
    its zone in seconds. The code only hands such values around, parses them
    and formats them. *)
Record Time : Type := mkTime { unixNano : Z; zoneOffset : Z }.

(** The dynamic values an [any] holds in this program: a parameter's JSON
    value, a converted bind value, a column of a fetched row. [VOther] stands
    for every dynamic type the type switches of the code send to [default]
    (slices, maps, json.Number, int32, ...). *)
Inductive any : Type :=
| VNil
| VBool (b : bool)
| VInt (n : Z)
| VInt64 (n : Z)
| VFloat64 (f : float64)
| VString (s : string)
| VBytes (b : string)
| VTime (t : Time)
| VOther (tag : string).

(** [v == any(n)] for an [int] constant [n]: two interface values are equal
    when their dynamic types are identical and their values equal, so only an
    [int] can be equal to it. *)
Definition iface_eq_int (v : any) (n : Z) : bool :=
  match v with
  | VInt m => (m =? n)%Z
  | _ => false
  end.

(** The functions of Go's standard library the code calls, over byte strings.
    They are left abstract: every theorem below holds for whatever these
    functions compute. *)
Class GoRuntime : Type := {
  (** strings.ToUpper *)
  ToUpper : string → string;
  (** strings.ToLower *)
  ToLower : string → string;
  (** strings.TrimSpace *)
  TrimSpace : string → string;
  (** strconv.ParseFloat(s, 64): [Some f] when err == nil *)
  ParseFloat : string → option float64;
  (** time.Parse(time.RFC3339, s): [Some t] when err == nil *)
  time_Parse_RFC3339 : string → option Time;
  (** t.Format(time.RFC3339) *)
  Format_RFC3339 : Time → string;
  (** fmt.Sprintf("%v", v) *)
  Sprintf_v : any → string;
}.

(** errors are compared and wrapped through their message *)
Definition error : Type := string.

Inductive outcome (A : Type) : Type :=
| Ok (a : A)
| Err (e : error).
Arguments Ok {A} a.
Arguments Err {A} e.

(** ** package request *)

Record ProcedureParam : Type := mkParam {
  Name : string;
  Type_ : string;
  Value : any;
  Direction : string;
}.

Record CallProcedureRequest : Type := mkRequest {
  req_Name : string;
  Params : list ProcedureParam;
}.

Section Request.
Context `{GoRuntime}.

(** strings.TrimSpace(s) == "" *)
Definition blank (s : string) : bool := String.eqb (TrimSpace s) "".

(** the body of the loop of Validate for the entry at index [i]; [None] is
    "go on with the next entry" *)
Definition validateParam (i : nat) (p : ProcedureParam) : option error :=
  if negb (blank (Name p)) || negb (blank (Type_ p)) || negb (blank (Direction p)) then
    if blank (Name p) then Some ("param[" +:+ pretty i +:+ "] name is required")
    else if blank (Type_ p) then Some ("param[" +:+ pretty i +:+ "] type is required")
    else if blank (Direction p) then Some ("param[" +:+ pretty i +:+ "] direction is required")
    else None
  else None.

Fixpoint validateParams (i : nat) (ps : list ProcedureParam) : option error :=
  match ps with
  | [] => None
  | p :: ps' =>
      match validateParam i p with
      | Some e => Some e
      | None => validateParams (S i) ps'
      end
  end.

(** Validate: [None] is the nil error *)
Definition Validate (r : CallProcedureRequest) : option error :=
  if blank (req_Name r) then Some "procedure name is required"
  else validateParams 0 (Params r).

End Request.

(** ** package repository: the Binder *)

Section Binder.
Context `{GoRuntime}.

Definition isNumericType (t : string) : bool :=
  bool_decide (t ∈ ["NUMBER"; "INTEGER"; "INT"; "FLOAT"; "DOUBLE"]).
Definition isTextType (t : string) : bool :=
  bool_decide (t ∈ ["VARCHAR2"; "VARCHAR"; "CHAR"; "CLOB"; "NVARCHAR2"; "NCHAR"; "NCLOB"]).
Definition isTemporalType (t : string) : bool :=
  bool_decide (t ∈ ["DATE"; "TIMESTAMP"; "TIMESTAMP WITH TIME ZONE";
                    "TIMESTAMP WITH LOCAL TIME ZONE"]).
Definition isBinaryType (t : string) : bool :=
  bool_decide (t ∈ ["RAW"; "BLOB"]).

(** convertInputValue: the switch on strings.ToUpper(p.Type), then the type
    switch on p.Value *)
Definition convertInputValue (p : ProcedureParam) : any :=
  let t := ToUpper (Type_ p) in
  if isNumericType t then
    match Value p with
    | VFloat64 v => VFloat64 v
    | VInt v => VFloat64 (float64_of_int v)
    | VInt64 v => VFloat64 (float64_of_int v)
    | VString v =>
        match ParseFloat v with
        | Some f => VFloat64 f
        | None => VString v
        end
    | v => v
    end
  else if isTextType t then VString (Sprintf_v (Value p))
  else if isTemporalType t then
    match Value p with
    | VString v =>
        match time_Parse_RFC3339 v with
        | Some tm => VTime tm
        | None => VString v
        end
    | v => v
    end
  else if String.eqb t "BOOLEAN" then
    match Value p with
    | VBool v => VBool v
    | VString v => VBool (String.eqb (ToLower v) "true" || String.eqb v "1")
    (* case int, int64, float64: [v] keeps the static type [any] in a clause
       that lists several types, so [v != 0] compares two interface values,
       the right one being int(0) *)
    | (VInt _ | VInt64 _ | VFloat64 _) as v => VBool (negb (iface_eq_int v 0))
    | _ => VBool false
    end
  else if isBinaryType t then
    match Value p with
    | VBytes v => VBytes v
    | VString v => VBytes v
    | v => v
    end
  else Value p.

End Binder.

(** ** The database handle *)

(** go_ora.RefCursor: the handle of a server-side cursor; its zero value is
    what [var cursor go_ora.RefCursor] holds before the call. *)
Record RefCursor : Type := mkRefCursor { cursorID : Z }.

Record sql_NullString : Type := mkNullString { ns_String : string; ns_Valid : bool }.
Record sql_NullFloat64 : Type := mkNullFloat64 { nf_Float64 : float64; nf_Valid : bool }.
Record sql_NullInt64 : Type := mkNullInt64 { ni_Int64 : Z; ni_Valid : bool }.
Record sql_NullTime : Type := mkNullTime { nt_Time : Time; nt_Valid : bool }.

(** An output destination: a pointer to a variable the Binder declares, with
    the Go type of that variable. The variable declared for the parameter at
    index [a] of the list lives at address [a]. *)
Inductive Dest : Type :=
| PRefCursor (a : nat)
| PNullFloat64 (a : nat)
| PNullString (a : nat)
| PNullTime (a : nat)
| PBool (a : nat)
| PBytes (a : nat)
| PAny (a : nat).

(** The variables behind the destinations, one store per Go type: a write
    through a [*sql.NullString] can only change a [sql.NullString]. *)
Record Heap : Type := mkHeap {
  mRefCursor : nat → RefCursor;
  mNullFloat64 : nat → sql_NullFloat64;
  mNullString : nat → sql_NullString;
  mNullTime : nat → sql_NullTime;
  mBool : nat → bool;
  mBytes : nat → string;
  mAny : nat → any;
}.

(** every variable at its zero value *)
Definition zeroHeap : Heap := {|
  mRefCursor := λ _, mkRefCursor 0;
  mNullFloat64 := λ _, mkNullFloat64 (S754_zero false) false;
  mNullString := λ _, mkNullString "" false;
  mNullTime := λ _, mkNullTime (mkTime (-62135596800000000000) 0) false;
  mBool := λ _, false;
  mBytes := λ _, "";
  mAny := λ _, VNil;
|}.

(** go_ora.Out; [Size] is 0 where the code leaves it unset *)
Record go_ora_Out : Type := mkOut { Dest_ : Dest; Size : Z }.

(** what sql.Named carries: a converted input value, a go_ora.Out, or the
    struct { In; Out } built for INOUT *)
Inductive ArgValue : Type :=
| AValue (v : any)
| AOut (o : go_ora_Out)
| AInOut (In : any) (Out : go_ora_Out).

Record NamedArg : Type := sql_Named { arg_Name : string; arg_Value : ArgValue }.

(** *sql.Rows over a cursor, as the code reads it: Columns(), then for each
    row that Next() announces the outcome of Scan into one [any] per column,
    then Err() once Next() has returned false. *)
Record Rows : Type := mkRows {
  Columns : outcome (list string);
  scans : list (outcome (list any));
  rows_Err : option error;
}.

(** one row of ALL_ARGUMENTS as the driver delivers it; [None] is SQL NULL *)
Record ArgumentRow : Type := mkArgumentRow {
  ARGUMENT_NAME : option string;
  DATA_TYPE : option string;
  IN_OUT : option string;
  POSITION : option Z;
  DEFAULT_VALUE : option string;
}.

(** The driver behind *sql.DB, with a state [Conn] of its own. ExecContext may
    write through the destinations it is handed; a failed call yields the
    driver's error whatever its kind (connectivity, permission, PL/SQL,
    cancellation of the context). *)
Record Driver (Conn : Type) : Type := mkDriver {
  ExecContext : Conn → string → list NamedArg → Heap → Conn * outcome Heap;
  QueryContext : Conn → string → string → Conn * outcome (list (outcome ArgumentRow));
  WrapRefCursor : Conn → RefCursor → Conn * outcome (option Rows);
}.
Arguments ExecContext {Conn} _ _ _ _ _.
Arguments QueryContext {Conn} _ _ _ _.
Arguments WrapRefCursor {Conn} _ _ _.

(** what reaches the database handle, in order *)
Inductive Event : Type :=
| EvExecContext (query : string) (args : list NamedArg)
| EvQueryContext (query : string) (arg : string)
| EvWrapRefCursor (c : RefCursor)
| EvRowsOpen (h : nat)
| EvRowsClose (h : nat).

(** [ev] closes the row set [h] *)
Definition closes (h : nat) (ev : Event) : bool :=
  match ev with
  | EvRowsClose h' => bool_decide (h = h')
  | _ => false
  end.

(** every row set opened in [evs] is closed later in [evs] *)
Fixpoint all_released (evs : list Event) : bool :=
  match evs with
  | [] => true
  | EvRowsOpen h :: rest => existsb (closes h) rest && all_released rest
  | _ :: rest => all_released rest
  end.

(** [ev] is a statement sent to the database *)
Definition isExec (ev : Event) : bool :=
  match ev with
  | EvExecContext _ _ | EvQueryContext _ _ => true
  | _ => false
  end.

(** ** The monad of one invocation: driver state, errors, emitted events *)

Section Repository.
Context `{GoRuntime}.
Context {Conn : Type} (db : Driver Conn).

(** the driver's state and the number of row sets handed out so far *)
Record World : Type := mkWorld { dbState : Conn; rowsOpened : nat }.

Definition M (A : Type) : Type := World → outcome A * World * list Event.

Definition ret {A} (a : A) : M A := λ w, (Ok a, w, []).
Definition fail {A} (e : error) : M A := λ w, (Err e, w, []).
Definition bind {A B} (m : M A) (f : A → M B) : M B :=
  λ w, match m w with
       | (Ok a, w1, ev1) => let '(r, w2, ev2) := f a w1 in (r, w2, (ev1 ++ ev2))
       | (Err e, w1, ev1) => (Err e, w1, ev1)
       end.

(** fmt.Errorf(ctx + "%w", err) on the error path *)
Definition wrapErr {A} (ctx : string) (m : M A) : M A :=
  λ w, match m w with
       | (Err e, w1, ev1) => (Err (ctx +:+ e), w1, ev1)
       | r => r
       end.

(** [defer cleanup] before [body]: the cleanup runs when the body returns,
    whatever it returns *)
Definition defer {A} (cleanup : World → World * list Event) (body : M A) : M A :=
  λ w, let '(r, w1, ev1) := body w in
       let '(w2, ev2) := cleanup w1 in
       (r, w2, (ev1 ++ ev2)).

Definition lift {A} (r : outcome A) : M A := λ w, (r, w, []).

Notation "'let*' x ':=' m 'in' k" := (bind m (λ x, k))
  (at level 10, x name, m at level 100, k at level 200, only parsing).
Notation "'let*' ' pat ':=' m 'in' k" := (bind m (λ x, match x with pat => k end))
  (at level 10, pat pattern, m at level 100, k at level 200, only parsing).

(** r.db.ExecContext(ctx, query, args...) *)
Definition db_ExecContext (query : string) (args : list NamedArg) (h : Heap) : M Heap :=
  λ w, let '(s, r) := ExecContext db (dbState w) query args h in
       (r, mkWorld s (rowsOpened w), [EvExecContext query args]).

(** go_ora.WrapRefCursor(ctx, r.db, cursorPtr): a row set that comes back is
    a resource of the invocation, identified by a fresh handle *)
Definition go_ora_WrapRefCursor (c : RefCursor) : M (option (nat * Rows)) :=
  λ w, let '(s, r) := WrapRefCursor db (dbState w) c in
       match r with
       | Err e => (Err e, mkWorld s (rowsOpened w), [EvWrapRefCursor c])
       | Ok None => (Ok None, mkWorld s (rowsOpened w), [EvWrapRefCursor c])
       | Ok (Some rows) =>
           (Ok (Some (rowsOpened w, rows)), mkWorld s (S (rowsOpened w)),
            [EvWrapRefCursor c; EvRowsOpen (rowsOpened w)])
       end.

(** r.db.QueryContext(ctx, query, procedureName) *)
Definition db_QueryContext (query arg : string) : M (nat * list (outcome ArgumentRow)) :=
  λ w, let '(s, r) := QueryContext db (dbState w) query arg in
       match r with
       | Err e => (Err e, mkWorld s (rowsOpened w), [EvQueryContext query arg])
       | Ok rows =>
           (Ok (rowsOpened w, rows), mkWorld s (S (rowsOpened w)),
            [EvQueryContext query arg; EvRowsOpen (rowsOpened w)])
       end.

(** rows.Close(); its error is only logged *)
Definition rows_Close (h : nat) (w : World) : World * list Event := (w, [EvRowsClose h]).

(** ** The Binder *)

Definition isRefCursorType (p : ProcedureParam) : bool :=
  String.eqb (ToUpper (Type_ p)) "REF CURSOR" || String.eqb (ToUpper (Type_ p)) "SYS_REFCURSOR".

(** createOutputParameter; [a] is the address of the variable [out] that the
    taken branch declares *)
Definition createOutputParameter (a : nat) (p : ProcedureParam) : go_ora_Out :=
  let t := ToUpper (Type_ p) in
  if isNumericType t then mkOut (PNullFloat64 a) 0
  else if isTextType t then mkOut (PNullString a) 4000
  else if isTemporalType t then mkOut (PNullTime a) 0
  else if String.eqb t "BOOLEAN" then mkOut (PBool a) 0
  else if isBinaryType t then mkOut (PBytes a) 4000
  else mkOut (PAny a) 0.

(** the two collections the first loop of CallProcedure fills *)
Record Bound : Type := mkBound {
  args : list NamedArg;
  outputParams : gmap string Dest;
}.

(** one iteration of [for _, p := range params] of the Binder, for the
    parameter at index [i] *)
Definition bindParam (i : nat) (p : ProcedureParam) (b : Bound) : outcome Bound :=
  let d := ToUpper (Direction p) in
  if String.eqb d "IN" then
    Ok (mkBound (args b ++ [sql_Named (Name p) (AValue (convertInputValue p))])
                (outputParams b))
  else if String.eqb d "OUT" then
    if isRefCursorType p then
      Ok (mkBound (args b ++ [sql_Named (Name p) (AOut (mkOut (PRefCursor i) 0))])
                  (<[Name p := PRefCursor i]> (outputParams b)))
    else
      let outParam := createOutputParameter i p in
      Ok (mkBound (args b ++ [sql_Named (Name p) (AOut outParam)])
                  (<[Name p := Dest_ outParam]> (outputParams b)))
  else if String.eqb d "INOUT" then
    let inputValue := convertInputValue p in
    if isRefCursorType p then
      Err "REF CURSOR cannot be used as INOUT parameter"
    else
      let outParam := createOutputParameter i p in
      Ok (mkBound (args b ++ [sql_Named (Name p) (AInOut inputValue outParam)])
                  (<[Name p := Dest_ outParam]> (outputParams b)))
  else Err ("unsupported parameter direction: " +:+ Direction p).

Fixpoint bindParams (i : nat) (params : list ProcedureParam) (b : Bound) : outcome Bound :=
  match params with
  | [] => Ok b
  | p :: rest =>
      match bindParam i p b with
      | Ok b' => bindParams (S i) rest b'
      | Err e => Err e
      end
  end.

(** ** The Invoker *)

(** the loop that appends the placeholders to [query], from index [i] on *)
Fixpoint appendPlaceholders (i : nat) (params : list ProcedureParam) (query : string) : string :=
  match params with
  | [] => query
  | p :: rest =>
      let query := if (0 <? i)%nat then query +:+ ", " else query in
      appendPlaceholders (S i) rest (query +:+ (":" +:+ Name p))
  end.

Definition buildQuery (name : string) (params : list ProcedureParam) : string :=
  appendPlaceholders 0 params ("BEGIN " +:+ name +:+ "(") +:+ "); END;".

(** ** The Normalizer *)

(** what a key of the result map holds: a scalar or nil, or the rows of a
    cursor *)
Inductive ResultValue : Type :=
| RValue (v : any)
| RRows (rowsData : list (gmap string any)).

(** the type switch on a scanned column *)
Definition presentColumn (v : any) : any :=
  match v with
  | VBytes b => VString b
  | VTime t => VString (Format_RFC3339 t)
  | v => v
  end.

(** [for i, colName := range cols { rowMap[colName] = ... columns[i] ... }];
    [columns] has len(cols) entries, nil where Scan stored nothing *)
Fixpoint fillRowMap (i : nat) (cols : list string) (columns : list any)
    (rowMap : gmap string any) : gmap string any :=
  match cols with
  | [] => rowMap
  | colName :: rest =>
      fillRowMap (S i) rest columns (<[colName := presentColumn (nth i columns VNil)]> rowMap)
  end.

(** [for rows.Next() { ... }] over the rows still to come *)
Fixpoint scanRows (cols : list string) (pending : list (outcome (list any)))
    (allRows : list (gmap string any)) : outcome (list (gmap string any)) :=
  match pending with
  | [] => Ok allRows
  | Err e :: _ => Err ("scan failed: " +:+ e)
  | Ok columns :: rest => scanRows cols rest (allRows ++ [fillRowMap 0 cols columns ∅])
  end.

(** processRowsResult on the row set with handle [h] *)
Definition processRowsResult (h : nat) (rows : Rows) : M (list (gmap string any)) :=
  defer (rows_Close h)
    (match Columns rows with
     | Err e => fail ("failed to get columns: " +:+ e)
     | Ok cols =>
         let* allRows := lift (scanRows cols (scans rows) []) in
         match rows_Err rows with
         | Some e => fail ("rows iteration error: " +:+ e)
         | None => ret allRows
         end
     end).

(** the body of the loop of processOutputParameters; a [continue] returns
    [result] as it stands *)
Definition processOutputParameter (heap : Heap) (outputParams : gmap string Dest)
    (p : ProcedureParam) (result : gmap string ResultValue) : M (gmap string ResultValue) :=
  if String.eqb (ToUpper (Direction p)) "IN" then ret result
  else
    match outputParams !! Name p with
    | None => ret result
    | Some dest =>
        if isRefCursorType p then
          match dest with
          | PRefCursor a =>
              let* wrapped :=
                wrapErr ("failed to wrap REF CURSOR for parameter " +:+ Name p +:+ ": ")
                        (go_ora_WrapRefCursor (mRefCursor heap a)) in
              match wrapped with
              | Some (h, rows) =>
                  let* rowsData :=
                    wrapErr ("failed to process REF CURSOR for parameter " +:+ Name p +:+ ": ")
                            (processRowsResult h rows) in
                  ret (<[Name p := RRows rowsData]> result)
              | None => ret (<[Name p := RValue VNil]> result)
              end
          | _ => ret result
          end
        else
          match dest with
          | PNullString a =>
              let dest := mNullString heap a in
              if ns_Valid dest then ret (<[Name p := RValue (VString (ns_String dest))]> result)
              else ret (<[Name p := RValue VNil]> result)
          | PNullFloat64 a =>
              let dest := mNullFloat64 heap a in
              if nf_Valid dest then ret (<[Name p := RValue (VFloat64 (nf_Float64 dest))]> result)
              else ret (<[Name p := RValue VNil]> result)
          | PNullTime a =>
              let dest := mNullTime heap a in
              if nt_Valid dest then ret (<[Name p := RValue (VTime (nt_Time dest))]> result)
              else ret (<[Name p := RValue VNil]> result)
          | PBool a => ret (<[Name p := RValue (VBool (mBool heap a))]> result)
          | PBytes a => ret (<[Name p := RValue (VBytes (mBytes heap a))]> result)
          | PAny a => ret (<[Name p := RValue (mAny heap a)]> result)
          | PRefCursor _ => ret result
          end
    end.

Fixpoint processOutputLoop (heap : Heap) (outputParams : gmap string Dest)
    (params : list ProcedureParam) (result : gmap string ResultValue)
    : M (gmap string ResultValue) :=
  match params with
  | [] => ret result
  | p :: rest =>
      let* result := processOutputParameter heap outputParams p result in
      processOutputLoop heap outputParams rest result
  end.

Definition processOutputParameters (heap : Heap) (params : list ProcedureParam)
    (outputParams : gmap string Dest) : M (gmap string ResultValue) :=
  processOutputLoop heap outputParams params ∅.

(** ** CallProcedure *)

Definition CallProcedure (name : string) (params : list ProcedureParam)
    : M (gmap string ResultValue) :=
  let* b := lift (bindParams 0 params (mkBound [] ∅)) in
  let query := buildQuery name params in
  let* heap :=
    wrapErr ("execution failed for procedure '" +:+ name +:+ "': ")
            (db_ExecContext query (args b) zeroHeap) in
  processOutputParameters heap params (outputParams b).

(** ** GetProcedureInfo *)

Definition procedureInfoQuery : string := "
        SELECT 
            ARGUMENT_NAME,
            DATA_TYPE,
            IN_OUT,
            POSITION,
            DEFAULT_VALUE
        FROM ALL_ARGUMENTS 
        WHERE OBJECT_NAME = UPPER(:1)
        AND OWNER = USER
        ORDER BY POSITION
    ".

(** Scan into a sql.NullString and a sql.NullInt64 (database/sql): NULL
    leaves the zero value with Valid false *)
Definition scanNullString (v : option string) : sql_NullString :=
  match v with
  | Some s => mkNullString s true
  | None => mkNullString "" false
  end.

Definition scanNullInt64 (v : option Z) : sql_NullInt64 :=
  match v with
  | Some n => mkNullInt64 n true
  | None => mkNullInt64 0 false
  end.

(** the map literal built for one scanned row *)
Definition argumentRowMap (r : ArgumentRow) : gmap string any :=
  let argName := scanNullString (ARGUMENT_NAME r) in
  let dataType := scanNullString (DATA_TYPE r) in
  let inOut := scanNullString (IN_OUT r) in
  let position := scanNullInt64 (POSITION r) in
  let defaultValue := scanNullString (DEFAULT_VALUE r) in
  <["argument_name" := VString (ns_String argName)]>
  (<["data_type" := VString (ns_String dataType)]>
  (<["in_out" := VString (ns_String inOut)]>
  (<["position" := VInt64 (ni_Int64 position)]>
  (<["default_value" := VString (ns_String defaultValue)]> ∅)))).

Fixpoint scanArguments (pending : list (outcome ArgumentRow))
    (result : list (gmap string any)) : outcome (list (gmap string any)) :=
  match pending with
  | [] => Ok result
  | Err e :: _ => Err ("scan failed: " +:+ e)
  | Ok r :: rest => scanArguments rest (result ++ [argumentRowMap r])
  end.

Definition GetProcedureInfo (procedureName : string) : M (list (gmap string any)) :=
  let* '(h, rows) :=
    wrapErr "failed to query procedure info: "
            (db_QueryContext procedureInfoQuery procedureName) in
  defer (rows_Close h) (lift (scanArguments rows [])).

End Repository.

(** ** The older copy of the package, on database/sql alone *)

(** The repository also holds an earlier version of the same package, which
    prepares the statement and passes sql.Out values positionally. Its
    Binder and its row map are embedded here next to the current ones. *)
Module Legacy.
Section Legacy.
Context `{GoRuntime}.

Inductive Dest : Type :=
| PRows (a : nat)
| PNullFloat64 (a : nat)
| PNullString (a : nat)
| PNullTime (a : nat)
| PAny (a : nat).

(** sql.Out *)
Record sql_Out : Type := mkOut { Dest_ : Dest; In : bool }.

Inductive Arg : Type :=
| AValue (v : any)
| AOut (o : sql_Out).

Definition isNumericType (t : string) : bool :=
  bool_decide (t ∈ ["NUMBER"; "INTEGER"; "INT"]).
Definition isTextType (t : string) : bool :=
  bool_decide (t ∈ ["VARCHAR2"; "VARCHAR"; "CHAR"; "CLOB"]).
Definition isTemporalType (t : string) : bool :=
  bool_decide (t ∈ ["DATE"; "TIMESTAMP"]).
Definition isRowsType (t : string) : bool :=
  bool_decide (t ∈ ["REF_CURSOR"; "SYS_REFCURSOR"]).

Definition convertInputValue (p : ProcedureParam) : any :=
  let t := ToUpper (Type_ p) in
  if isNumericType t then
    match Value p with
    | VFloat64 v => VFloat64 v
    | VInt v => VFloat64 (float64_of_int v)
    | VInt64 v => VFloat64 (float64_of_int v)
    | VString v => VString v
    | v => v
    end
  else if isTextType t then VString (Sprintf_v (Value p))
  else if isTemporalType t then Value p
  else Value p.

Definition createOutputParameter (a : nat) (p : ProcedureParam) : sql_Out :=
  let t := ToUpper (Type_ p) in
  if isRowsType t then mkOut (PRows a) false
  else if isNumericType t then mkOut (PNullFloat64 a) false
  else if isTextType t then mkOut (PNullString a) false
  else if isTemporalType t then mkOut (PNullTime a) false
  else mkOut (PAny a) false.

Definition createInOutParameter (a : nat) (p : ProcedureParam) : sql_Out :=
  let t := ToUpper (Type_ p) in
  if isNumericType t then mkOut (PNullFloat64 a) true
  else if isTextType t then mkOut (PNullString a) true
  else if isTemporalType t then mkOut (PNullTime a) true
  else mkOut (PAny a) true.

(** the switch that fills args[i] *)
Definition bindArg (i : nat) (p : ProcedureParam) : outcome Arg :=
  let d := ToUpper (Direction p) in
  if String.eqb d "IN" then Ok (AValue (convertInputValue p))
  else if String.eqb d "OUT" then Ok (AOut (createOutputParameter i p))
  else if String.eqb d "INOUT" then Ok (AOut (createInOutParameter i p))
  else Err ("unsupported parameter direction: " +:+ Direction p).

(** [for i, colName := range cols { rowMap[colName] = columns[i] }] *)
Fixpoint fillRowMap (i : nat) (cols : list string) (columns : list any)
    (rowMap : gmap string any) : gmap string any :=
  match cols with
  | [] => rowMap
  | colName :: rest => fillRowMap (S i) rest columns (<[colName := nth i columns VNil]> rowMap)
  end.

End Legacy.
End Legacy.

(** ** The vocabulary of the properties *)

Section Vocabulary.
Context `{GoRuntime}.
Context {Conn : Type} (db : Driver Conn).

(** name, type and direction of the entry are all blank *)
Definition allBlank (p : ProcedureParam) : bool :=
  blank (Name p) && blank (Type_ p) && blank (Direction p).

(** name, type and direction of the entry are all filled in *)
Definition noneBlank (p : ProcedureParam) : bool :=
  negb (blank (Name p)) && negb (blank (Type_ p)) && negb (blank (Direction p)).

(** an entry that Validate rejects: some field is filled in, and [field] is
    the first blank one in the order name, type, direction *)
Definition firstBlankField (p : ProcedureParam) (field : string) : Prop :=
  allBlank p = false ∧
  ((field = "name" ∧ blank (Name p) = true)
   ∨ (field = "type" ∧ blank (Name p) = false ∧ blank (Type_ p) = true)
   ∨ (field = "direction" ∧ blank (Name p) = false ∧ blank (Type_ p) = false
      ∧ blank (Direction p) = true)).

(** the direction is IN, OUT or INOUT in some case *)
Definition supportedDirection (d : string) : bool :=
  String.eqb (ToUpper d) "IN" || String.eqb (ToUpper d) "OUT"
  || String.eqb (ToUpper d) "INOUT".

(** a parameter at which the Binder stops: an unsupported direction, or a
    cursor type with direction INOUT *)
Definition rejected (p : ProcedureParam) : bool :=
  negb (supportedDirection (Direction p))
  || (String.eqb (ToUpper (Direction p)) "INOUT" && isRefCursorType p).

(** two descriptors that differ at most in the case of the direction *)
Definition caseVariant (p p' : ProcedureParam) : Prop :=
  Name p = Name p' ∧ Type_ p = Type_ p' ∧ Value p = Value p'
  ∧ ToUpper (Direction p) = ToUpper (Direction p').

(** the destination is a *go_ora.RefCursor *)
Definition isCursorDest (d : Dest) : bool :=
  match d with
  | PRefCursor _ => true
  | _ => false
  end.

(** the error of a rejected parameter *)
Definition bindError (p : ProcedureParam) : error :=
  if supportedDirection (Direction p) then "REF CURSOR cannot be used as INOUT parameter"
  else "unsupported parameter direction: " +:+ Direction p.

(** the text the specification gives for the block *)
Definition anonymousBlock (name : string) (params : list ProcedureParam) : string :=
  "BEGIN " +:+ name +:+ "(" +:+ String.concat ", " ((λ p, ":" +:+ Name p) <$> params)
  +:+ "); END;".

(** the placeholders after the first one, each behind its separator *)
Fixpoint laterPlaceholders (params : list ProcedureParam) : string :=
  match params with
  | [] => ""
  | p :: rest => ", " +:+ (":" +:+ Name p) +:+ laterPlaceholders rest
  end.

(** the error of the first row that does not scan *)
Fixpoint firstScanError (pending : list (outcome (list any))) : option error :=
  match pending with
  | [] => None
  | Err c :: _ => Some c
  | Ok _ :: rest => firstScanError rest
  end.

(** why reading a row set fails, if it does: its columns, else the first row
    that does not scan, else the iteration *)
Definition firstRowsFailure (rows : Rows) : option error :=
  match Columns rows with
  | Err c => Some ("failed to get columns: " +:+ c)
  | Ok _ =>
      match firstScanError (scans rows) with
      | Some c => Some ("scan failed: " +:+ c)
      | None =>
          match rows_Err rows with
          | Some c => Some ("rows iteration error: " +:+ c)
          | None => None
          end
      end
  end.

(** the iteration for [p] stores an entry: [p] is not IN and the
    destination recorded under its name has the shape its type asks for *)
Definition writes (outputParams : gmap string Dest) (p : ProcedureParam) : bool :=
  negb (String.eqb (ToUpper (Direction p)) "IN")
  && match outputParams !! Name p with
     | Some d => Bool.eqb (isRefCursorType p) (isCursorDest d)
     | None => false
     end.

(** a failure while the cursor of [p] is wrapped or its rows are read; [e]
    is what processOutputParameters returns for it *)
Definition resultProcessingError (heap : Heap) (outputParams : gmap string Dest)
    (p : ProcedureParam) (e : error) : Prop :=
  String.eqb (ToUpper (Direction p)) "IN" = false
  ∧ isRefCursorType p = true
  ∧ ∃ a, outputParams !! Name p = Some (PRefCursor a)
      ∧ ((∃ s s' cause,
            WrapRefCursor db s (mRefCursor heap a) = (s', Err cause)
            ∧ e = "failed to wrap REF CURSOR for parameter " +:+ Name p +:+ ": " +:+ cause)
         ∨ (∃ s s' rows cause,
              WrapRefCursor db s (mRefCursor heap a) = (s', Ok (Some rows))
              ∧ firstRowsFailure rows = Some cause
              ∧ e = "failed to process REF CURSOR for parameter " +:+ Name p +:+ ": "
                    +:+ cause)).

(** the row the caller should see for a catalog row: each NULL column
    replaced by the zero value of its Go type *)
Definition zeroValueRow (r : ArgumentRow) : gmap string any :=
  list_to_map
    [("argument_name", VString (default "" (ARGUMENT_NAME r)));
     ("data_type", VString (default "" (DATA_TYPE r)));
     ("in_out", VString (default "" (IN_OUT r)));
     ("position", VInt64 (default 0%Z (POSITION r)));
     ("default_value", VString (default "" (DEFAULT_VALUE r)))].

(** [sub] occurs in [s] *)
Fixpoint contains (sub s : string) : bool :=
  String.prefix sub s
  || match s with
     | EmptyString => false
     | String _ s' => contains sub s'
     end.

End Vocabulary.

(** ** A runtime and a driver to run the model on concrete inputs *)

(** On ASCII strings [asciiRuntime] maps case and trims white space as Go
    does, and it formats the instants of the years 0000 to 9999 as
    time.RFC3339 asks. Its ParseFloat reads unsigned decimal integer literals
    only, its time.Parse accepts nothing and its %v renders nil, booleans,
    integers and strings: the examples below use no more. *)
Module Examples.

Fixpoint mapString (f : ascii → ascii) (s : string) : string :=
  match s with
  | EmptyString => EmptyString
  | String c s' => String (f c) (mapString f s')
  end.

Definition upperByte (c : ascii) : ascii :=
  let n := N_of_ascii c in
  if (97 <=? n)%N && (n <=? 122)%N then ascii_of_N (n - 32) else c.

Definition lowerByte (c : ascii) : ascii :=
  let n := N_of_ascii c in
  if (65 <=? n)%N && (n <=? 90)%N then ascii_of_N (n + 32) else c.

Definition isSpaceByte (c : ascii) : bool :=
  let n := N_of_ascii c in
  ((9 <=? n)%N && (n <=? 13)%N) || (n =? 32)%N.

Fixpoint trimLeft (s : string) : string :=
  match s with
  | String c s' => if isSpaceByte c then trimLeft s' else s
  | EmptyString => EmptyString
  end.

Definition trimSpace (s : string) : string :=
  String.rev (trimLeft (String.rev (trimLeft s))).

Fixpoint digits (s : string) (acc : Z) : option Z :=
  match s with
  | EmptyString => Some acc
  | String c s' =>
      let n := N_of_ascii c in
      if (48 <=? n)%N && (n <=? 57)%N then digits s' (10 * acc + Z.of_N (n - 48))
      else None
  end.

Definition parseFloat (s : string) : option float64 :=
  match s with
  | EmptyString => None
  | _ => float64_of_int <$> digits s 0
  end.

Definition sprint (v : any) : string :=
  match v with
  | VNil => "<nil>"
  | VBool true => "true"
  | VBool false => "false"
  | VInt n | VInt64 n => pretty n
  | VString s => s
  | _ => "?"
  end.

Definition pad2 (n : Z) : string :=
  if (n <? 10)%Z then "0" +:+ pretty n else pretty n.

Definition pad4 (n : Z) : string :=
  if (n <? 10)%Z then "000" +:+ pretty n
  else if (n <? 100)%Z then "00" +:+ pretty n
  else if (n <? 1000)%Z then "0" +:+ pretty n
  else pretty n.

(** year, month and day of the day that lies [days] days after 1970-01-01 *)
Definition civilFromDays (days : Z) : Z * Z * Z :=
  let z := (days + 719468)%Z in
  let era := (z / 146097)%Z in
  let doe := (z - era * 146097)%Z in
  let yoe := ((doe - doe / 1460 + doe / 36524 - doe / 146096) / 365)%Z in
  let doy := (doe - (365 * yoe + yoe / 4 - yoe / 100))%Z in
  let mp := ((5 * doy + 2) / 153)%Z in
  let d := (doy - (153 * mp + 2) / 5 + 1)%Z in
  let m := (if (mp <? 10)%Z then mp + 3 else mp - 9)%Z in
  let y := (yoe + era * 400 + (if (m <=? 2)%Z then 1 else 0))%Z in
  (y, m, d).

Definition formatRFC3339 (t : Time) : string :=
  let secs := (unixNano t / 1000000000 + zoneOffset t)%Z in
  let '(y, m, d) := civilFromDays (secs / 86400) in
  let rem := (secs mod 86400)%Z in
  let zone :=
    if (zoneOffset t =? 0)%Z then "Z"
    else (if (zoneOffset t <? 0)%Z then "-" else "+")
         +:+ pad2 (Z.abs (zoneOffset t) / 3600) +:+ ":"
         +:+ pad2 (Z.abs (zoneOffset t) mod 3600 / 60) in
  pad4 y +:+ "-" +:+ pad2 m +:+ "-" +:+ pad2 d +:+ "T"
  +:+ pad2 (rem / 3600) +:+ ":" +:+ pad2 (rem mod 3600 / 60) +:+ ":" +:+ pad2 (rem mod 60)
  +:+ zone.

#[export] Instance asciiRuntime : GoRuntime := {|
  ToUpper := mapString upperByte;
  ToLower := mapString lowerByte;
  TrimSpace := trimSpace;
  ParseFloat := parseFloat;
  time_Parse_RFC3339 := λ _, None;
  Format_RFC3339 := formatRFC3339;
  Sprintf_v := sprint;
|}.

(** a driver without state that answers every call the same way *)
Definition fixedDriver (exec : Heap → outcome Heap) (cursor : RefCursor → outcome (option Rows))
    (catalog : outcome (list (outcome ArgumentRow))) : Driver unit := {|
  ExecContext := λ s _ _ h, (s, exec h);
  QueryContext := λ s _ _, (s, catalog);
  WrapRefCursor := λ s c, (s, cursor c);
|}.

(** the driver that writes nothing and finds no cursor and no catalog row *)
Definition idleDriver : Driver unit := fixedDriver Ok (λ _, Ok None) (Ok []).

Definition world0 : World := mkWorld tt 0.

(** [h] after a valid [f] was written through the *sql.NullFloat64 at [a] *)
Definition storeFloat64 (a : nat) (f : float64) (h : Heap) : Heap :=
  mkHeap (mRefCursor h)
         (λ a', if decide (a' = a) then mkNullFloat64 f true else mNullFloat64 h a')
         (mNullString h) (mNullTime h) (mBool h) (mBytes h) (mAny h).

(** add_employee: the driver stores 1042 in the destination of emp_id *)
Definition addEmployee : list ProcedureParam :=
  [mkParam "emp_name" "VARCHAR2" (VString "Alice") "IN";
   mkParam "emp_id" "NUMBER" VNil "OUT"].

Definition addEmployeeDriver : Driver unit :=
  fixedDriver (λ h, Ok (storeFloat64 1 (float64_of_int 1042) h)) (λ _, Ok None) (Ok []).

Definition addEmployeeBound : Bound :=
  mkBound [sql_Named "emp_name" (AValue (VString "Alice"));
           sql_Named "emp_id" (AOut (mkOut (PNullFloat64 1) 0))]
          (<["emp_id" := PNullFloat64 1]> ∅).

Definition addEmployeeEvents : list Event :=
  [EvExecContext "BEGIN add_employee(:emp_name, :emp_id); END;" (args addEmployeeBound)].

Definition addEmployeeResult : gmap string ResultValue :=
  <["emp_id" := RValue (VFloat64 (float64_of_int 1042))]> ∅.

(** list_reports: the cursor comes back, its second row does not scan *)
Definition listReports : list ProcedureParam :=
  [mkParam "cur" "REF CURSOR" VNil "OUT"].

Definition brokenCursorDriver : Driver unit :=
  fixedDriver Ok
    (λ _, Ok (Some (mkRows (Ok ["ID"]) [Ok [VInt64 1]; Err "unsupported Scan"] None)))
    (Ok []).

Definition listReportsEvents : list Event :=
  [EvExecContext "BEGIN list_reports(:cur); END;"
     [sql_Named "cur" (AOut (mkOut (PRefCursor 0) 0))];
   EvWrapRefCursor (mkRefCursor 0); EvRowsOpen 0; EvRowsClose 0].

End Examples.
Import Examples.

(** * The rest of the program *)

(** ** package util *)

Module util.

(** strings.Split(s, "/"): the first part and the parts after it. The
    separator is a single byte, so splitting bytes is splitting the text. *)
Fixpoint splitSlash (s : string) : string * list string :=
  match s with
  | EmptyString => ("", [])
  | String c s' =>
      let '(part, parts) := splitSlash s' in
      if Ascii.eqb c "/" then ("", part :: parts) else (String c part, parts)
  end.

Definition strings_Split (s : string) : list string :=
  let '(part, parts) := splitSlash s in part :: parts.

Section util.
(** runtime.Caller(skip): the program counter when [ok] holds *)
Variable caller : Z → option Z.
(** runtime.FuncForPC(pc): the name of the function, when there is one *)
Variable funcForPC : Z → option string.

(** CurrentMethod; [None] is the panic of an index out of range *)
Definition CurrentMethod (skip : Z) : option string :=
  match caller skip with
  | None => Some "unknown"
  | Some pc =>
      match funcForPC pc with
      | None => Some "unknown"
      | Some name =>
          let parts := strings_Split name in
          parts !! (length parts - 1)%nat
      end
  end.

End util.
End util.

(** ** package response *)

Module response.

(** what [Data] holds in this program. CallProcedureResponse and
    GetProcedureInfoResponse are declared outside the files at hand; the
    tests build them as a map[string]any and as a []map[string]any. *)
Inductive Data : Type :=
| DObject (m : gmap string ResultValue)
| DRows (rows : list (gmap string any)).

Record HttpResponse : Type := mkHttpResponse {
  Message : string;
  Status : bool;
  Data_ : Data;
}.

(** [data] is [None] for the nil interface; a value of a map or slice type is
    never the nil interface, nil map and nil slice included *)
Definition SuccessResponse (message : string) (data : option Data) : HttpResponse :=
  let data := match data with
              | None => DObject ∅
              | Some d => d
              end in
  mkHttpResponse message true data.

Definition ErrorResponse (message : string) (data : option Data) : HttpResponse :=
  let data := match data with
              | None => DObject ∅
              | Some d => d
              end in
  mkHttpResponse message false data.

End response.

(** ** package service *)

Module service.
Section service.
Context `{GoRuntime}.
Context {Conn : Type} (db : Driver Conn).

(** ProcedureService over the OracleRepository, as main wires them *)
Definition CallProcedure (r : CallProcedureRequest) : M (gmap string ResultValue) :=
  λ w, match CallProcedure db (req_Name r) (Params r) w with
       | (Err err, w', evs) => (Err err, w', evs)
       | (Ok result, w', evs) => (Ok result, w', evs)
       end.

Definition GetProcedureInfo (procedureName : string) : M (list (gmap string any)) :=
  λ w, match GetProcedureInfo db procedureName w with
       | (Err err, w', evs) => (Err err, w', evs)
       | (Ok result, w', evs) => (Ok result, w', evs)
       end.

End service.
End service.

(** ** package handler *)

Module handler.
Section handler.
Context `{GoRuntime}.
Context {Conn : Type} (db : Driver Conn).

Definition StatusOK : Z := 200.
Definition StatusBadRequest : Z := 400.
Definition StatusInternalServerError : Z := 500.

(** What a handler does with a request: the status code and the body it
    hands to response.WriteJSON, each handler calling it once; what it logs
    is left out. [body] is the outcome of
    json.NewDecoder(r.Body).Decode(&req). *)
Definition Answer : Type :=
  @World Conn → (Z * response.HttpResponse) * @World Conn * list Event.

Definition CallProcedure (body : outcome CallProcedureRequest) : Answer :=
  λ w, match body with
       | Err _ =>
           ((StatusBadRequest, response.ErrorResponse "Invalid JSON format" None), w, [])
       | Ok req =>
           match Validate req with
           | Some err => ((StatusBadRequest, response.ErrorResponse err None), w, [])
           | None =>
               match service.CallProcedure db req w with
               | (Err err, w', evs) =>
                   ((StatusInternalServerError, response.ErrorResponse err None), w', evs)
               | (Ok result, w', evs) =>
                   ((StatusOK,
                     response.SuccessResponse "Success" (Some (response.DObject result))),
                    w', evs)
               end
           end
       end.

(** [body] is the decoded procedure_name, "" when the field is absent *)
Definition GetProcedureInfo (body : outcome string) : Answer :=
  λ w, match body with
       | Err _ =>
           ((StatusBadRequest, response.ErrorResponse "Invalid JSON format" None), w, [])
       | Ok ProcedureName =>
           if String.eqb ProcedureName "" then
             ((StatusBadRequest, response.ErrorResponse "procedure_name is required" None),
              w, [])
           else
             match service.GetProcedureInfo db ProcedureName w with
             | (Err err, w', evs) =>
                 ((StatusInternalServerError, response.ErrorResponse err None), w', evs)
             | (Ok result, w', evs) =>
                 ((StatusOK,
                   response.SuccessResponse "Success" (Some (response.DRows result))),
                  w', evs)
             end
       end.

End handler.
End handler.

(** ** More vocabulary *)

Section Vocabulary2.
Context `{GoRuntime}.

(** [s] holds the byte "/" *)
Fixpoint hasSlash (s : string) : bool :=
  match s with
  | EmptyString => false
  | String c s' => Ascii.eqb c "/" || hasSlash s'
  end.

(** the parts after the first one, each behind its slash *)
Fixpoint slashJoin (parts : list string) : string :=
  match parts with
  | [] => ""
  | part :: rest => "/" +:+ part +:+ slashJoin rest
  end.

(** the error of the first element that is one *)
Fixpoint firstError {A} (l : list (outcome A)) : option error :=
  match l with
  | [] => None
  | Err c :: _ => Some c
  | Ok _ :: rest => firstError rest
  end.

(** what the Binder appends for the parameter at index [i] *)
Definition boundArg (i : nat) (p : ProcedureParam) : NamedArg :=
  sql_Named (Name p)
    (if String.eqb (ToUpper (Direction p)) "IN" then AValue (convertInputValue p)
     else if String.eqb (ToUpper (Direction p)) "OUT" then
       AOut (if isRefCursorType p then mkOut (PRefCursor i) 0 else createOutputParameter i p)
     else AInOut (convertInputValue p) (createOutputParameter i p)).

(** the destination the Binder records for the parameter at index [i] *)
Definition boundDest (i : nat) (p : ProcedureParam) : Dest :=
  if isRefCursorType p then PRefCursor i else Dest_ (createOutputParameter i p).

(** what the result holds for a destination that is no cursor: the value
    behind it, nil when its Valid flag is down *)
Definition readScalar (heap : Heap) (d : Dest) : any :=
  match d with
  | PNullString a =>
      if ns_Valid (mNullString heap a) then VString (ns_String (mNullString heap a)) else VNil
  | PNullFloat64 a =>
      if nf_Valid (mNullFloat64 heap a) then VFloat64 (nf_Float64 (mNullFloat64 heap a))
      else VNil
  | PNullTime a =>
      if nt_Valid (mNullTime heap a) then VTime (nt_Time (mNullTime heap a)) else VNil
  | PBool a => VBool (mBool heap a)
  | PBytes a => VBytes (mBytes heap a)
  | PAny a => mAny heap a
  | PRefCursor _ => VNil
  end.

(** the rows of a cursor as the caller receives them *)
Definition rowMaps (cols : list string) (rs : list (list any)) : list (gmap string any) :=
  (λ columns, fillRowMap 0 cols columns ∅) <$> rs.

(** the parameter is not IN and has a cursor type *)
Definition isCursorOutput (p : ProcedureParam) : bool :=
  negb (String.eqb (ToUpper (Direction p)) "IN") && isRefCursorType p.

(** [p] with its value replaced *)
Definition withValue (p : ProcedureParam) (v : any) : ProcedureParam :=
  mkParam (Name p) (Type_ p) v (Direction p).

(** two entries that differ at most in their value *)
Definition sameButValue (p p' : ProcedureParam) : Prop :=
  Name p = Name p' ∧ Type_ p = Type_ p' ∧ Direction p = Direction p'.

(** two descriptors that differ at most in the case of the type *)
Definition typeVariant (p p' : ProcedureParam) : Prop :=
  Name p = Name p' ∧ Value p = Value p' ∧ Direction p = Direction p'
  ∧ ToUpper (Type_ p) = ToUpper (Type_ p').

End Vocabulary2.

(** ** More drivers to run the model on *)

(** the driver that refuses every statement *)
Definition failingDriver : Driver unit :=
  fixedDriver (λ _, Err "ORA-06550: line 1, column 7") (λ _, Ok None) (Err "ORA-00942").

(** list_reports for one department: the cursor comes back with two rows *)
Definition reportRows : Rows :=
  mkRows (Ok ["ID"; "NAME"]) [Ok [VInt64 1; VBytes "Q1"]; Ok [VInt64 2; VBytes "Q2"]] None.

Definition reportsDriver : Driver unit :=
  fixedDriver Ok (λ _, Ok (Some reportRows)) (Ok []).

Definition listReportsOf : list ProcedureParam :=
  [mkParam "dept" "NUMBER" (VInt 7) "IN"; mkParam "cur" "REF CURSOR" VNil "OUT"].

Definition listReportsOfBound : Bound :=
  mkBound [sql_Named "dept" (AValue (VFloat64 (float64_of_int 7)));
           sql_Named "cur" (AOut (mkOut (PRefCursor 1) 0))]
          (<["cur" := PRefCursor 1]> ∅).

Definition listReportsOfResult : gmap string ResultValue :=
  <["cur" := RRows [<["ID" := VInt64 1]> (<["NAME" := VString "Q1"]> ∅);
                    <["ID" := VInt64 2]> (<["NAME" := VString "Q2"]> ∅)]]> ∅.

(** ** The older copy: the whole call *)

Module LegacyRepository.

(** the variables behind the destinations of the older Binder; a *sql.Rows
    is [None] when nil *)
Record Heap : Type := mkHeap {
  mRows : nat → option Rows;
  mNullFloat64 : nat → sql_NullFloat64;
  mNullString : nat → sql_NullString;
  mNullTime : nat → sql_NullTime;
  mAny : nat → any;
}.

Definition zeroHeap : Heap := {|
  mRows := λ _, None;
  mNullFloat64 := λ _, mkNullFloat64 (S754_zero false) false;
  mNullString := λ _, mkNullString "" false;
  mNullTime := λ _, mkNullTime (mkTime (-62135596800000000000) 0) false;
  mAny := λ _, VNil;
|}.

(** *sql.DB and the *sql.Stmt it prepares; the statement is known by its
    text. ExecContext may write through the destinations it is handed. *)
Record Driver (Conn : Type) : Type := mkDriver {
  PrepareContext : Conn → string → Conn * option error;
  stmt_ExecContext : Conn → string → list Legacy.Arg → Heap → Conn * outcome Heap;
}.
Arguments PrepareContext {Conn} _ _ _.
Arguments stmt_ExecContext {Conn} _ _ _ _ _.

Inductive Event : Type :=
| EvPrepareContext (query : string)
| EvStmtExecContext (query : string) (args : list Legacy.Arg)
| EvStmtClose (query : string)
| EvRowsClose (a : nat).

Section LegacyRepository.
Context `{GoRuntime}.
Context {Conn : Type} (db : Driver Conn).

Definition M (A : Type) : Type := Conn → outcome A * Conn * list Event.

(** the loop that fills args[i], from index [i] on; [args] holds the
    entries filled so far *)
Fixpoint bindArgs (i : nat) (params : list ProcedureParam) (args : list Legacy.Arg)
    : outcome (list Legacy.Arg) :=
  match params with
  | [] => Ok args
  | p :: rest =>
      match Legacy.bindArg i p with
      | Ok a => bindArgs (S i) rest (args ++ [a])
      | Err e => Err e
      end
  end.

(** fmt.Sprintf("BEGIN %s(%s); END;", name, strings.Join(placeholders, ", ")) *)
Definition buildQuery (name : string) (params : list ProcedureParam) : string :=
  "BEGIN " +:+ name +:+ "(" +:+ String.concat ", " ((λ p, ":" +:+ Name p) <$> params)
  +:+ "); END;".

Fixpoint scanRows (cols : list string) (pending : list (outcome (list any)))
    (allRows : list (gmap string any)) : outcome (list (gmap string any)) :=
  match pending with
  | [] => Ok allRows
  | Err e :: _ => Err ("scan failed: " +:+ e)
  | Ok columns :: rest => scanRows cols rest (allRows ++ [Legacy.fillRowMap 0 cols columns ∅])
  end.

(** processRowsResult on the row set behind the destination at [a]; the
    deferred Close runs on every path *)
Definition processRowsResult (a : nat) (rows : Rows) : M (list (gmap string any)) :=
  λ s,
    (match Columns rows with
     | Err e => Err ("failed to get columns: " +:+ e)
     | Ok cols =>
         match scanRows cols (scans rows) [] with
         | Err e => Err e
         | Ok allRows =>
             match rows_Err rows with
             | Some e => Err ("rows iteration error: " +:+ e)
             | None => Ok allRows
             end
         end
     end, s, [EvRowsClose a]).

(** the body of the loop of processOutputParameters for the parameter at
    index [i]; a [continue] returns [result] as it stands *)
Definition processOutputParameter (heap : Heap) (args : list Legacy.Arg) (i : nat)
    (p : ProcedureParam) (result : gmap string ResultValue) : M (gmap string ResultValue) :=
  λ s,
    if String.eqb (ToUpper (Direction p)) "IN" then (Ok result, s, [])
    else
      match args !! i with
      | Some (Legacy.AOut out) =>
          match Legacy.Dest_ out with
          | Legacy.PNullString a =>
              let dest := mNullString heap a in
              if ns_Valid dest
              then (Ok (<[Name p := RValue (VString (ns_String dest))]> result), s, [])
              else (Ok (<[Name p := RValue VNil]> result), s, [])
          | Legacy.PNullFloat64 a =>
              let dest := mNullFloat64 heap a in
              if nf_Valid dest
              then (Ok (<[Name p := RValue (VFloat64 (nf_Float64 dest))]> result), s, [])
              else (Ok (<[Name p := RValue VNil]> result), s, [])
          | Legacy.PNullTime a =>
              let dest := mNullTime heap a in
              if nt_Valid dest
              then (Ok (<[Name p := RValue (VTime (nt_Time dest))]> result), s, [])
              else (Ok (<[Name p := RValue VNil]> result), s, [])
          | Legacy.PAny a => (Ok (<[Name p := RValue (mAny heap a)]> result), s, [])
          | Legacy.PRows a =>
              match mRows heap a with
              | None => (Ok (<[Name p := RValue VNil]> result), s, [])
              | Some rows =>
                  match processRowsResult a rows s with
                  | (Err err, s', evs) =>
                      (Err ("failed to process rows for parameter " +:+ Name p +:+ ": "
                            +:+ err), s', evs)
                  | (Ok rowsData, s', evs) =>
                      (Ok (<[Name p := RRows rowsData]> result), s', evs)
                  end
              end
          end
      | _ => (Ok result, s, [])
      end.

Fixpoint processOutputLoop (heap : Heap) (args : list Legacy.Arg) (i : nat)
    (params : list ProcedureParam) (result : gmap string ResultValue)
    : M (gmap string ResultValue) :=
  λ s,
    match params with
    | [] => (Ok result, s, [])
    | p :: rest =>
        match processOutputParameter heap args i p result s with
        | (Ok result', s', evs) =>
            let '(r, s'', evs') := processOutputLoop heap args (S i) rest result' s' in
            (r, s'', evs ++ evs')
        | (Err e, s', evs) => (Err e, s', evs)
        end
    end.

Definition processOutputParameters (heap : Heap) (params : list ProcedureParam)
    (args : list Legacy.Arg) : M (gmap string ResultValue) :=
  processOutputLoop heap args 0 params ∅.

(** CallProcedure; the deferred stmt.Close runs once the statement is
    prepared, on every path. What the function logs is left out. *)
Definition CallProcedure (name : string) (params : list ProcedureParam)
    : M (gmap string ResultValue) :=
  λ s,
    match bindArgs 0 params [] with
    | Err e => (Err e, s, [])
    | Ok args =>
        let query := buildQuery name params in
        match PrepareContext db s query with
        | (s1, Some err) =>
            (Err ("prepare failed for query '" +:+ query +:+ "': " +:+ err), s1,
             [EvPrepareContext query])
        | (s1, None) =>
            match stmt_ExecContext db s1 query args zeroHeap with
            | (s2, Err err) =>
                (Err ("execution failed for procedure '" +:+ name +:+ "': " +:+ err), s2,
                 [EvPrepareContext query; EvStmtExecContext query args; EvStmtClose query])
            | (s2, Ok heap) =>
                let '(r, s3, evs) := processOutputParameters heap params args s2 in
                (r, s3,
                 [EvPrepareContext query; EvStmtExecContext query args] ++ evs
                 ++ [EvStmtClose query])
            end
        end
    end.

End LegacyRepository.

(** a driver without state; the statement leaves [heap] behind *)
Definition fixedDriver (prepare : option error) (exec : outcome Heap) : Driver unit := {|
  PrepareContext := λ s _, (s, prepare);
  stmt_ExecContext := λ s _ _ _, (s, exec);
|}.

End LegacyRepository.

Section Vocabulary3.
Context `{GoRuntime}.

(** what the older result holds for the destination of a parameter that is
    not a row set *)
Definition legacyRead (heap : LegacyRepository.Heap) (d : Legacy.Dest) : any :=
  match d with
  | Legacy.PNullString a =>
      if ns_Valid (LegacyRepository.mNullString heap a)
      then VString (ns_String (LegacyRepository.mNullString heap a)) else VNil
  | Legacy.PNullFloat64 a =>
      if nf_Valid (LegacyRepository.mNullFloat64 heap a)
      then VFloat64 (nf_Float64 (LegacyRepository.mNullFloat64 heap a)) else VNil
  | Legacy.PNullTime a =>
      if nt_Valid (LegacyRepository.mNullTime heap a)
      then VTime (nt_Time (LegacyRepository.mNullTime heap a)) else VNil
  | Legacy.PAny a => LegacyRepository.mAny heap a
  | Legacy.PRows _ => VNil
  end.

(** two descriptors that agree in all but the value, and in the value too
    when the direction is IN *)
Definition sameButOutputValue (p p' : ProcedureParam) : Prop :=
  sameButValue p p' ∧ (String.eqb (ToUpper (Direction p)) "IN" = true → Value p = Value p').

(** the rows of a row set as the older version returns them *)
Definition legacyRowMaps (cols : list string) (rs : list (list any))
    : list (gmap string any) :=
  (λ columns, Legacy.fillRowMap 0 cols columns ∅) <$> rs.

(** [v] is what a call that succeeds stores for the destination [d] *)
Definition legacyEntry (heap : LegacyRepository.Heap) (d : Legacy.Dest) (v : ResultValue)
    : Prop :=
  match d with
  | Legacy.PRows a =>
      match LegacyRepository.mRows heap a with
      | None => v = RValue VNil
      | Some rows =>
          ∃ cols rs, Columns rows = Ok cols ∧ scans rows = Ok <$> rs
                     ∧ rows_Err rows = None ∧ v = RRows (legacyRowMaps cols rs)
      end
  | d => v = RValue (legacyRead heap d)
  end.

(** [ev] closes a row set *)
Definition isRowsClose (ev : LegacyRepository.Event) : bool :=
  match ev with
  | LegacyRepository.EvRowsClose _ => true
  | _ => false
  end.

End Vocabulary3.

(** ** A driver to run the older copy on *)

(** add_employee on the older copy: 1042 behind the destination of emp_id *)
Definition legacyEmployeeHeap : LegacyRepository.Heap := {|
  LegacyRepository.mRows := λ _, None;
  LegacyRepository.mNullFloat64 :=
    λ a, if decide (a = 1%nat) then mkNullFloat64 (float64_of_int 1042) true
         else mkNullFloat64 (S754_zero false) false;
  LegacyRepository.mNullString := λ _, mkNullString "" false;
  LegacyRepository.mNullTime := λ _, mkNullTime (mkTime (-62135596800000000000) 0) false;
  LegacyRepository.mAny := λ _, VNil;
|}.

Definition legacyEmployeeDriver : LegacyRepository.Driver unit :=
  LegacyRepository.fixedDriver None (Ok legacyEmployeeHeap).

Definition legacyEmployeeArgs : list Legacy.Arg :=
  [Legacy.AValue (VString "Alice"); Legacy.AOut (Legacy.mkOut (Legacy.PNullFloat64 1) false)].

Definition legacyEmployeeEvents : list LegacyRepository.Event :=
  [LegacyRepository.EvPrepareContext "BEGIN add_employee(:emp_name, :emp_id); END;";
   LegacyRepository.EvStmtExecContext "BEGIN add_employee(:emp_name, :emp_id); END;"
     legacyEmployeeArgs;
   LegacyRepository.EvStmtClose "BEGIN add_employee(:emp_name, :emp_id); END;"].

(** * Properties *)

(** ** Request validation *)

Section ValidateFacts.
Context `{GoRuntime}.

Lemma validateParam_None i p :
  validateParam i p = None ↔ allBlank p = true ∨ noneBlank p = true.
Proof.
  unfold validateParam, allBlank, noneBlank.
  destruct (blank (Name p)), (blank (Type_ p)), (blank (Direction p)); simpl;
    intuition congruence.
Qed.

Lemma validateParam_Some i p e :
  validateParam i p = Some e →
  ∃ field, firstBlankField p field ∧ e = "param[" +:+ pretty i +:+ "] " +:+ field +:+ " is required".
Proof.
  unfold validateParam, firstBlankField, allBlank.
  destruct (blank (Name p)) eqn:Hn, (blank (Type_ p)) eqn:Ht,
    (blank (Direction p)) eqn:Hd; simpl; intros [= <-].
  all: first
    [ exists "name"; split; [split; [done | left; done] | done]
    | exists "type"; split; [split; [done | right; left; done] | done]
    | exists "direction"; split; [split; [done | right; right; done] | done] ].
Qed.

Lemma validateParams_None i ps :
  validateParams i ps = None ↔ Forall (λ p, allBlank p = true ∨ noneBlank p = true) ps.
Proof.
  revert i. induction ps as [|p ps IH]; intros i; simpl.
  - split; [constructor | done].
  - destruct (validateParam i p) as [e|] eqn:Hp.
    + split; [done |]. intros Hall. apply Forall_cons in Hall as [Hp' _].
      apply (validateParam_None i) in Hp'. congruence.
    + rewrite IH, Forall_cons. apply validateParam_None in Hp. tauto.
Qed.

Lemma validateParams_Some i ps e :
  validateParams i ps = Some e →
  ∃ k p field, ps !! k = Some p ∧ firstBlankField p field
    ∧ Forall (λ q, allBlank q = true ∨ noneBlank q = true) (take k ps)
    ∧ e = "param[" +:+ pretty (i + k)%nat +:+ "] " +:+ field +:+ " is required".
Proof.
  revert i. induction ps as [|p ps IH]; intros i; simpl; [done |].
  destruct (validateParam i p) as [e'|] eqn:Hp.
  - intros [= ->]. apply validateParam_Some in Hp as (field & Hf & ->).
    exists 0%nat, p, field. rewrite Nat.add_0_r. simpl.
    split; [done |]. split; [done |]. split; [constructor | done].
  - intros He. apply IH in He as (k & q & field & Hk & Hf & Hpre & ->).
    exists (S k), q, field. split; [done |]. split; [done |]. split.
    + simpl. constructor; [by apply (validateParam_None i) | done].
    + by rewrite Nat.add_succ_r.
Qed.

(** C9. Validate returns the nil error exactly when the procedure name is not
    blank and every entry has its name, type and direction all blank or all
    filled in; so an entry whose three fields are blank is accepted. A blank
    procedure name is always an error. Any other error is the per-field
    error of the first entry that has a field filled in and one blank, and
    names the first blank field of that entry. *)
Theorem Validate_blank_entries (r : CallProcedureRequest) :
  (Validate r = None ↔
     blank (req_Name r) = false
     ∧ Forall (λ p, allBlank p = true ∨ noneBlank p = true) (Params r))
  ∧ (blank (req_Name r) = true → Validate r = Some "procedure name is required")
  ∧ (∀ e, blank (req_Name r) = false → Validate r = Some e →
       ∃ i p field,
         Params r !! i = Some p
         ∧ firstBlankField p field
         ∧ Forall (λ q, allBlank q = true ∨ noneBlank q = true) (take i (Params r))
         ∧ e = "param[" +:+ pretty i +:+ "] " +:+ field +:+ " is required").
Proof.
  unfold Validate. destruct (blank (req_Name r)) eqn:Hname.
  - split; [split; [done | intros [? _]; done] |]. split; [done | done].
  - split; [| split; [done |]].
    + rewrite validateParams_None. tauto.
    + intros e _ He. apply validateParams_Some in He as (k & p & field & ? & ? & ? & ->).
      by exists k, p, field.
Qed.

End ValidateFacts.

(** an entry of blanks between two complete ones is skipped; the entry after
    it is the one reported *)
Example Validate_skips_blank_entry :
  Validate (mkRequest "add_employee"
              [mkParam "emp_name" "VARCHAR2" (VString "Alice") "IN";
               mkParam "  " "" VNil " ";
               mkParam "emp_id" "NUMBER" VNil "OUT"]) = None
  ∧ Validate (mkRequest "add_employee"
              [mkParam "" "" VNil ""; mkParam "emp_id" " " VNil "OUT"])
    = Some "param[1] type is required"
  ∧ Validate (mkRequest " " []) = Some "procedure name is required".
Proof. by vm_compute. Qed.

(** ** Conversion of input values *)

Section ConvertFacts.
Context `{GoRuntime}.

(** C5. A numeric parameter (NUMBER, INTEGER, INT, FLOAT, DOUBLE in any case)
    whose value is a string is converted by a parse to float64; when the parse
    fails the string itself is the bind value. With direction IN the Binder's
    step for it cannot fail: it appends that value under the parameter's name
    and leaves the output destinations alone. *)
Theorem convertInputValue_numeric_string (p : ProcedureParam) (s : string) :
  isNumericType (ToUpper (Type_ p)) = true →
  Value p = VString s →
  (∀ f, ParseFloat s = Some f → convertInputValue p = VFloat64 f)
  ∧ (ParseFloat s = None → convertInputValue p = VString s)
  ∧ (∀ i b, ToUpper (Direction p) = "IN" →
       bindParam i p b
       = Ok (mkBound (args b ++ [sql_Named (Name p) (AValue (convertInputValue p))])
                     (outputParams b))).
Proof.
  intros Hty Hval. split; [| split].
  - intros f Hf. unfold convertInputValue. by rewrite Hty, Hval, Hf.
  - intros Hn. unfold convertInputValue. by rewrite Hty, Hval, Hn.
  - intros i b Hdir. unfold bindParam. rewrite Hdir. reflexivity.
Qed.

(** What convertInputValue does for a BOOLEAN parameter. The numeric clause
    compares the interface value with int(0): an int is true when it is not
    0, while every int64 and every float64 is true, zero included. *)
Lemma convertInputValue_BOOLEAN (p : ProcedureParam) :
  ToUpper (Type_ p) = "BOOLEAN" →
  convertInputValue p =
  match Value p with
  | VBool b => VBool b
  | VString v => VBool (bool_decide (ToLower v = "true") || bool_decide (v = "1"))
  | VInt n => VBool (bool_decide (n ≠ 0%Z))
  | VInt64 _ | VFloat64 _ => VBool true
  | _ => VBool false
  end.
Proof.
  intros Hty. unfold convertInputValue. rewrite Hty. simpl.
  destruct (Value p) as [| | n | | | v | | |]; simpl; try done.
  - f_equal. destruct (Z.eqb_spec n 0); [by rewrite bool_decide_eq_false_2; [|tauto]|].
    by rewrite bool_decide_eq_true_2.
  - f_equal. f_equal.
    + destruct (String.eqb_spec (ToLower v) "true");
        [by rewrite bool_decide_eq_true_2 | by rewrite bool_decide_eq_false_2].
    + destruct (String.eqb_spec v "1");
        [by rewrite bool_decide_eq_true_2 | by rewrite bool_decide_eq_false_2].
Qed.

End ConvertFacts.

Lemma convertInputValue_numeric_string_witness :
  let p := mkParam "salary" "number" (VString "not-a-number") "in" in
  (∀ f, ParseFloat "not-a-number" = Some f → convertInputValue p = VFloat64 f)
  ∧ (ParseFloat "not-a-number" = None → convertInputValue p = VString "not-a-number")
  ∧ (∀ i b, ToUpper (Direction p) = "IN" →
       bindParam i p b
       = Ok (mkBound (args b ++ [sql_Named (Name p) (AValue (convertInputValue p))])
                     (outputParams b))).
Proof.
  apply (convertInputValue_numeric_string
           (mkParam "salary" "number" (VString "not-a-number") "in") "not-a-number");
    reflexivity.
Defined.

(** C6. The JSON number 0 reaches the Binder as float64(0). For a BOOLEAN
    parameter it is converted to true, as is int64(0); only int(0) gives
    false. *)
Example convertInputValue_BOOLEAN_zero :
  convertInputValue (mkParam "active" "BOOLEAN" (VFloat64 (S754_zero false)) "IN") = VBool true
  ∧ convertInputValue (mkParam "active" "BOOLEAN" (VInt64 0) "IN") = VBool true
  ∧ convertInputValue (mkParam "active" "BOOLEAN" (VInt 0) "IN") = VBool false.
Proof. by vm_compute. Qed.

(** ** The monad *)

Section MonadFacts.
Context {Conn : Type}.
Implicit Types w : @World Conn.

Lemma bind_inv {A B} (m : M A) (f : A → M B) w r w' evs :
  bind m f w = (r, w', evs) →
  (∃ a w1 ev1 ev2, m w = (Ok a, w1, ev1) ∧ f a w1 = (r, w', ev2) ∧ evs = (ev1 ++ ev2))
  ∨ (∃ e, m w = (Err e, w', evs) ∧ r = Err e).
Proof.
  unfold bind. destruct (m w) as [[[a|e] w1] ev1].
  - destruct (f a w1) as [[r2 w2] ev2] eqn:Hf. intros [= <- <- <-].
    left. by exists a, w1, ev1, ev2.
  - intros [= <- <- <-]. right. by exists e.
Qed.

Lemma bind_assoc {A B C} (m : M A) (f : A → M B) (g : B → M C) w :
  bind (bind m f) g w = bind m (λ a, bind (f a) g) w.
Proof.
  unfold bind. destruct (m w) as [[[a|e] w1] ev1]; [| done].
  destruct (f a w1) as [[[b|e] w2] ev2]; [| done].
  destruct (g b w2) as [[r w3] ev3]. by rewrite app_assoc.
Qed.

Lemma bind_ret_l {A B} (a : A) (f : A → M B) w : bind (ret a) f w = f a w.
Proof. unfold bind, ret. by destruct (f a w) as [[r w1] ev1]. Qed.

Lemma all_released_app (evs1 evs2 : list Event) :
  all_released evs1 = true → all_released evs2 = true →
  all_released (evs1 ++ evs2) = true.
Proof.
  intros H1 H2. induction evs1 as [|ev evs1 IH]; simpl in *; [done |].
  destruct ev; auto.
  apply andb_true_iff in H1 as [Hc Hr]. apply andb_true_iff. split; [| auto].
  rewrite existsb_app, Hc. done.
Qed.

End MonadFacts.

(** ** Row materialisation *)

Section RowsFacts.
Context `{GoRuntime}.
Context {Conn : Type}.
Implicit Types w : @World Conn.

Lemma fillRowMap_lookup_notin i cols columns (m : gmap string any) c :
  c ∉ cols → fillRowMap i cols columns m !! c = m !! c.
Proof.
  revert i m. induction cols as [|c' cols IH]; intros i m Hc; simpl; [done |].
  apply not_elem_of_cons in Hc as [Hne Hc].
  rewrite IH by done. by rewrite lookup_insert_ne.
Qed.

Lemma fillRowMap_lookup_last i cols columns (m : gmap string any) j c :
  cols !! j = Some c → c ∉ drop (S j) cols →
  fillRowMap i cols columns m !! c = Some (presentColumn (nth (i + j) columns VNil)).
Proof.
  revert i j m. induction cols as [|c' cols IH]; intros i j m Hj Hlast; [done |].
  destruct j as [|j]; simpl in *.
  - injection Hj as ->. rewrite drop_0 in Hlast.
    rewrite fillRowMap_lookup_notin by done.
    by rewrite lookup_insert_eq, Nat.add_0_r.
  - rewrite (IH (S i) j) by done. by rewrite Nat.add_succ_r.
Qed.

Lemma fillRowMap_dom i cols columns (m : gmap string any) :
  dom (fillRowMap i cols columns m) = dom m ∪ list_to_set cols.
Proof.
  revert i m. induction cols as [|c cols IH]; intros i m; simpl.
  - by rewrite union_empty_r_L.
  - by rewrite IH, dom_insert_L, (union_comm_L {[c]}), <- union_assoc_L.
Qed.

Lemma scanRows_Ok cols rs allRows :
  scanRows cols (Ok <$> rs) allRows
  = Ok (allRows ++ ((λ columns, fillRowMap 0 cols columns ∅) <$> rs)).
Proof.
  revert allRows. induction rs as [|r rs IH]; intros allRows; simpl.
  - by rewrite app_nil_r.
  - by rewrite IH, <- app_assoc.
Qed.

(** C3. When the columns are known, every row scans and the iteration ends
    without error, processRowsResult returns one map per fetched row, in
    fetch order, and closes the row set. The keys of each map are the column
    names; the value under a name is the scanned value of the last column of
    that name, a byte slice as the string of its bytes, a time as its
    RFC 3339 rendering, anything else as it is. *)
Theorem processRowsResult_rows (h : nat) (rows : Rows) (cols : list string)
    (rs : list (list any)) w :
  Columns rows = Ok cols →
  scans rows = Ok <$> rs →
  rows_Err rows = None →
  ∃ out,
    processRowsResult h rows w = (Ok out, w, [EvRowsClose h])
    ∧ length out = length rs
    ∧ ∀ k r, rs !! k = Some r →
        ∃ m : gmap string any,
          out !! k = Some m
          ∧ dom m = list_to_set cols
          ∧ ∀ i c, cols !! i = Some c → c ∉ drop (S i) cols →
              m !! c = Some (match nth i r VNil with
                             | VBytes b => VString b
                             | VTime t => VString (Format_RFC3339 t)
                             | v => v
                             end).
Proof.
  intros Hcols Hscans Herr.
  exists ((λ columns, fillRowMap 0 cols columns ∅) <$> rs). split; [| split].
  - unfold processRowsResult, defer, bind, lift, ret.
    rewrite Hcols, Hscans, scanRows_Ok, Herr. reflexivity.
  - by rewrite length_fmap.
  - intros k r Hk. exists (fillRowMap 0 cols r ∅). split; [| split].
    + by rewrite list_lookup_fmap, Hk.
    + by rewrite fillRowMap_dom, dom_empty_L, union_empty_l_L.
    + intros i c Hi Hlast. rewrite (fillRowMap_lookup_last 0 cols r ∅ i c Hi Hlast).
      simpl. by destruct (nth i r VNil).
Qed.

End RowsFacts.

Lemma processRowsResult_rows_witness :
  let rows := mkRows (Ok ["ID"; "PHOTO"; "HIRED"])
                     [Ok [VInt64 7; VBytes "png"; VTime (mkTime 0 0)];
                      Ok [VInt64 8; VNil; VString "n/a"]] None in
  ∃ out,
    processRowsResult 0 rows world0 = (Ok out, world0, [EvRowsClose 0])
    ∧ length out = 2%nat
    ∧ ∀ k r, [[VInt64 7; VBytes "png"; VTime (mkTime 0 0)];
              [VInt64 8; VNil; VString "n/a"]] !! k = Some r →
        ∃ m : gmap string any,
          out !! k = Some m
          ∧ dom m = list_to_set ["ID"; "PHOTO"; "HIRED"]
          ∧ ∀ i c, ["ID"; "PHOTO"; "HIRED"] !! i = Some c
              → c ∉ drop (S i) ["ID"; "PHOTO"; "HIRED"] →
              m !! c = Some (match nth i r VNil with
                             | VBytes b => VString b
                             | VTime t => VString (Format_RFC3339 t)
                             | v => v
                             end).
Proof.
  apply (processRowsResult_rows 0
           (mkRows (Ok ["ID"; "PHOTO"; "HIRED"])
                   [Ok [VInt64 7; VBytes "png"; VTime (mkTime 0 0)];
                    Ok [VInt64 8; VNil; VString "n/a"]] None)
           ["ID"; "PHOTO"; "HIRED"]
           [[VInt64 7; VBytes "png"; VTime (mkTime 0 0)];
            [VInt64 8; VNil; VString "n/a"]] world0); reflexivity.
Defined.

(** the rows of that cursor as the caller receives them *)
Example processRowsResult_two_rows :
  (processRowsResult 0
     (mkRows (Ok ["ID"; "PHOTO"; "HIRED"])
             [Ok [VInt64 7; VBytes "png"; VTime (mkTime 0 0)];
              Ok [VInt64 8; VNil; VString "n/a"]] None) world0).1.1
  = Ok [ <["ID" := VInt64 7]> (<["PHOTO" := VString "png"]> (<["HIRED" := VString "1970-01-01T00:00:00Z"]> ∅));
         <["ID" := VInt64 8]> (<["PHOTO" := VNil]> (<["HIRED" := VString "n/a"]> ∅)) ].
Proof. by vm_compute. Qed.

(** ** GetProcedureInfo *)

Section ProcedureInfoFacts.
Context `{GoRuntime}.
Context {Conn : Type} (db : Driver Conn).
Implicit Types w : @World Conn.

Lemma argumentRowMap_zeroValueRow r : argumentRowMap r = zeroValueRow r.
Proof. by destruct r as [[?|] [?|] [?|] [?|] [?|]]. Qed.

Lemma scanArguments_Ok rs result :
  scanArguments (Ok <$> rs) result = Ok (result ++ (argumentRowMap <$> rs)).
Proof.
  revert result. induction rs as [|r rs IH]; intros result; simpl.
  - by rewrite app_nil_r.
  - by rewrite IH, <- app_assoc.
Qed.

Lemma zeroValueRow_no_nil r k : zeroValueRow r !! k ≠ Some VNil.
Proof.
  unfold zeroValueRow. simpl.
  repeat (rewrite lookup_insert; case_decide; [done |]).
  by rewrite lookup_empty.
Qed.

(** C10. When the catalog query succeeds and every row scans,
    GetProcedureInfo returns one map per catalog row, in order, in which a
    NULL column appears as the empty string (as 0 for position); no value of
    any returned map is nil. When the query matches no row the result is the
    empty sequence and no error. The row set is closed before the return. *)
Theorem GetProcedureInfo_zero_values (procedureName : string) w (s : Conn)
    (rs : list ArgumentRow) :
  QueryContext db (dbState w) procedureInfoQuery procedureName = (s, Ok (Ok <$> rs)) →
  GetProcedureInfo db procedureName w
    = (Ok (zeroValueRow <$> rs), mkWorld s (S (rowsOpened w)),
       [EvQueryContext procedureInfoQuery procedureName;
        EvRowsOpen (rowsOpened w); EvRowsClose (rowsOpened w)])
  ∧ Forall (λ m : gmap string any, ∀ k, m !! k ≠ Some VNil) (zeroValueRow <$> rs)
  ∧ (rs = [] → (GetProcedureInfo db procedureName w).1.1 = Ok []).
Proof.
  intros Hq.
  assert (GetProcedureInfo db procedureName w
    = (Ok (zeroValueRow <$> rs), mkWorld s (S (rowsOpened w)),
       [EvQueryContext procedureInfoQuery procedureName;
        EvRowsOpen (rowsOpened w); EvRowsClose (rowsOpened w)])) as Hrun.
  { unfold GetProcedureInfo, bind, wrapErr, db_QueryContext, defer, lift, rows_Close.
    rewrite Hq. simpl. rewrite scanArguments_Ok. simpl.
    do 3 f_equal. apply list_fmap_ext. intros _ r _. apply argumentRowMap_zeroValueRow. }
  split; [done | split].
  - apply Forall_fmap, Forall_forall. intros r _ k. apply zeroValueRow_no_nil.
  - intros ->. by rewrite Hrun.
Qed.

End ProcedureInfoFacts.

Lemma GetProcedureInfo_zero_values_witness :
  let db := fixedDriver Ok (λ _, Ok None)
              (Ok [Ok (mkArgumentRow None (Some "NUMBER") (Some "OUT") (Some 0%Z) None)]) in
  let rs := [mkArgumentRow None (Some "NUMBER") (Some "OUT") (Some 0%Z) None] in
  GetProcedureInfo db "get_total" world0
    = (Ok (zeroValueRow <$> rs), mkWorld tt 1,
       [EvQueryContext procedureInfoQuery "get_total"; EvRowsOpen 0; EvRowsClose 0])
  ∧ Forall (λ m : gmap string any, ∀ k, m !! k ≠ Some VNil) (zeroValueRow <$> rs)
  ∧ (rs = [] → (GetProcedureInfo db "get_total" world0).1.1 = Ok []).
Proof.
  apply (GetProcedureInfo_zero_values
           (fixedDriver Ok (λ _, Ok None)
              (Ok [Ok (mkArgumentRow None (Some "NUMBER") (Some "OUT") (Some 0%Z) None)]))
           "get_total" world0 tt
           [mkArgumentRow None (Some "NUMBER") (Some "OUT") (Some 0%Z) None]).
  reflexivity.
Defined.

(** a function's return value has no argument name and no default in the
    catalog; a procedure that is not there yields neither rows nor error *)
Example GetProcedureInfo_null_columns :
  (GetProcedureInfo
     (fixedDriver Ok (λ _, Ok None)
        (Ok [Ok (mkArgumentRow None (Some "NUMBER") (Some "OUT") None None)]))
     "get_total" world0).1.1
  = Ok [ <["argument_name" := VString ""]> (<["data_type" := VString "NUMBER"]>
         (<["in_out" := VString "OUT"]> (<["position" := VInt64 0]>
         (<["default_value" := VString ""]> ∅)))) ]
  ∧ (GetProcedureInfo idleDriver "nonexistent_procedure" world0).1.1 = Ok [].
Proof. by vm_compute. Qed.

(** ** The Binder's checks *)

Section BinderFacts.
Context `{GoRuntime}.

Lemma createOutputParameter_not_cursor i p :
  isCursorDest (Dest_ (createOutputParameter i p)) = false.
Proof.
  unfold createOutputParameter.
  repeat match goal with |- context [if ?c then _ else _] => destruct c end; done.
Qed.

Lemma bindParam_unsupported i p b :
  supportedDirection (Direction p) = false →
  bindParam i p b = Err ("unsupported parameter direction: " +:+ Direction p).
Proof.
  unfold supportedDirection, bindParam. intros Hd.
  apply orb_false_iff in Hd as [Hd Hinout]. apply orb_false_iff in Hd as [Hin Hout].
  by rewrite Hin, Hout, Hinout.
Qed.

Lemma bindParam_refcursor_inout i p b :
  ToUpper (Direction p) = "INOUT" → isRefCursorType p = true →
  bindParam i p b = Err "REF CURSOR cannot be used as INOUT parameter".
Proof. unfold bindParam. intros -> ->. reflexivity. Qed.

(** a parameter that is not rejected is bound: IN leaves the destinations
    alone, OUT and INOUT record a destination under the parameter's name, a
    cursor handle exactly for a cursor type *)
Lemma bindParam_accepted i p b :
  rejected p = false →
  ∃ a, bindParam i p b = Ok (mkBound (args b ++ [sql_Named (Name p) a])
         (if String.eqb (ToUpper (Direction p)) "IN" then outputParams b
          else <[Name p := if isRefCursorType p then PRefCursor i
                           else Dest_ (createOutputParameter i p)]> (outputParams b))).
Proof.
  unfold rejected, supportedDirection, bindParam. intros Hrej.
  destruct (String.eqb (ToUpper (Direction p)) "IN"); [by eexists |].
  destruct (String.eqb (ToUpper (Direction p)) "OUT").
  { destruct (isRefCursorType p); by eexists. }
  destruct (String.eqb (ToUpper (Direction p)) "INOUT"); [| done].
  destruct (isRefCursorType p); [done | by eexists].
Qed.

Lemma bindParam_rejected i p b :
  rejected p = true → bindParam i p b = Err (bindError p).
Proof.
  unfold rejected, bindError. intros Hp.
  destruct (supportedDirection (Direction p)) eqn:Hs; simpl in Hp.
  - apply andb_true_iff in Hp as [Hd Hc]. apply String.eqb_eq in Hd.
    by apply bindParam_refcursor_inout.
  - by apply bindParam_unsupported.
Qed.

(** the Binder stops at the first rejected parameter *)
Lemma bindParams_first_rejected i pre p post b :
  Forall (λ q, rejected q = false) pre → rejected p = true →
  bindParams i (pre ++ p :: post) b = Err (bindError p).
Proof.
  revert i b. induction pre as [|q pre IH]; intros i b Hpre Hp; simpl.
  - by rewrite bindParam_rejected.
  - apply Forall_cons in Hpre as [Hq Hpre].
    destruct (bindParam_accepted i q b Hq) as [a ->]. by apply IH.
Qed.

(** a list splits at its first rejected parameter *)
Lemma first_rejected params p :
  p ∈ params → rejected p = true →
  ∃ pre q post, params = pre ++ q :: post
    ∧ Forall (λ q, rejected q = false) pre ∧ rejected q = true.
Proof.
  induction params as [|x params IH]; intros Hin Hp; [by apply elem_of_nil in Hin |].
  destruct (rejected x) eqn:Hx.
  - by exists [], x, params.
  - apply elem_of_cons in Hin as [-> | Hin]; [congruence |].
    destruct (IH Hin Hp) as (pre & q & post & -> & Hpre & Hq).
    exists (x :: pre), q, post. split; [done |]. split; [by constructor | done].
Qed.

Lemma bindParams_rejected_Err i params p b :
  p ∈ params → rejected p = true →
  ∃ q, q ∈ params ∧ rejected q = true ∧ bindParams i params b = Err (bindError q).
Proof.
  intros Hin Hp. destruct (first_rejected params p Hin Hp) as (pre & q & post & -> & Hpre & Hq).
  exists q. split; [apply elem_of_app; right; apply elem_of_cons; by left |].
  split; [done |]. by apply bindParams_first_rejected.
Qed.

End BinderFacts.

(** ** The anonymous block *)

Lemma string_app_assoc (a b c : string) : (a +:+ b) +:+ c = a +:+ (b +:+ c).
Proof.
  induction a as [|ch a IH]; [done |].
  change (String ch ((a +:+ b) +:+ c) = String ch (a +:+ (b +:+ c))). by rewrite IH.
Qed.

Lemma string_app_empty_r (a : string) : a +:+ "" = a.
Proof.
  induction a as [|ch a IH]; [done |].
  change (String ch (a +:+ "") = String ch a). by rewrite IH.
Qed.

Lemma appendPlaceholders_later i params query :
  appendPlaceholders (S i) params query = query +:+ laterPlaceholders params.
Proof.
  revert i query. induction params as [|p rest IH]; intros i query; simpl.
  - by rewrite string_app_empty_r.
  - by rewrite IH, !string_app_assoc.
Qed.

Lemma concat_placeholders p rest :
  String.concat ", " ((λ p, ":" +:+ Name p) <$> (p :: rest))
  = (":" +:+ Name p) +:+ laterPlaceholders rest.
Proof.
  revert p. induction rest as [|q rest IH]; intros p.
  - simpl. by rewrite string_app_empty_r.
  - change (String.concat ", " ((λ p, ":" +:+ Name p) <$> (p :: q :: rest)))
      with ((":" +:+ Name p) +:+ ", " +:+ String.concat ", " ((λ p, ":" +:+ Name p) <$> (q :: rest))).
    by rewrite IH.
Qed.

Lemma buildQuery_anonymousBlock name params :
  buildQuery name params = anonymousBlock name params.
Proof.
  unfold buildQuery, anonymousBlock. destruct params as [|p rest].
  - simpl. by rewrite !string_app_assoc.
  - rewrite concat_placeholders. simpl. rewrite appendPlaceholders_later.
    by rewrite !string_app_assoc.
Qed.

Section CallProcedureFacts.
Context `{GoRuntime}.
Context {Conn : Type} (db : Driver Conn).
Implicit Types w : @World Conn.

(** CallProcedure, one step at a time *)
Lemma CallProcedure_unfold name params w :
  CallProcedure db name params w =
  match bindParams 0 params (mkBound [] ∅) with
  | Err e => (Err e, w, [])
  | Ok b =>
      match ExecContext db (dbState w) (buildQuery name params) (args b) zeroHeap with
      | (s, Err e) =>
          (Err (("execution failed for procedure '" +:+ name +:+ "': ") +:+ e),
           mkWorld s (rowsOpened w), [EvExecContext (buildQuery name params) (args b)])
      | (s, Ok heap) =>
          let '(r, w', evs) :=
            processOutputParameters db heap params (outputParams b)
              (mkWorld s (rowsOpened w)) in
          (r, w', EvExecContext (buildQuery name params) (args b) :: evs)
      end
  end.
Proof.
  unfold CallProcedure, bind, lift, wrapErr, db_ExecContext.
  destruct (bindParams 0 params (mkBound [] ∅)) as [b|e]; [| done].
  destruct (ExecContext db (dbState w) (buildQuery name params) (args b) zeroHeap)
    as [s [heap|e]]; [| done].
  by destruct (processOutputParameters db heap params (outputParams b)
                 (mkWorld s (rowsOpened w))) as [[r w'] evs].
Qed.

Lemma CallProcedure_rejected name params p w :
  p ∈ params → rejected p = true →
  ∃ q, q ∈ params ∧ rejected q = true
    ∧ CallProcedure db name params w = (Err (bindError q), w, []).
Proof.
  intros Hin Hp.
  destruct (bindParams_rejected_Err 0 params p (mkBound [] ∅) Hin Hp) as (q & Hq & Hrq & Hb).
  exists q. split; [done |]. split; [done |]. by rewrite CallProcedure_unfold, Hb.
Qed.

(** a call with a rejected parameter ends at the first rejected one, with
    its configuration error and before any driver call *)
Lemma CallProcedure_first_rejected name params p w :
  p ∈ params → rejected p = true →
  ∃ pre q post,
    params = pre ++ q :: post
    ∧ Forall (λ x, rejected x = false) pre
    ∧ rejected q = true
    ∧ CallProcedure db name params w = (Err (bindError q), w, []).
Proof.
  intros Hin Hp.
  destruct (first_rejected params p Hin Hp) as (pre & q & post & -> & Hpre & Hq).
  exists pre, q, post. split; [done |]. split; [done |]. split; [done |].
  by rewrite CallProcedure_unfold, (bindParams_first_rejected 0 pre q post _ Hpre Hq).
Qed.

(** C2, as the code has it. If some parameter has a type the code takes for
    a cursor (REF CURSOR or SYS_REFCURSOR in any case) and direction INOUT,
    CallProcedure returns a configuration error, leaves the driver untouched
    and emits no driver call. The error is that of the first rejected
    parameter of the list: the REF CURSOR one when no rejected parameter
    stands before this one, and in any case either the REF CURSOR one or the
    error of an unsupported direction. *)
Theorem CallProcedure_refcursor_inout (name : string) (params : list ProcedureParam)
    (p : ProcedureParam) w :
  p ∈ params →
  isRefCursorType p = true →
  ToUpper (Direction p) = "INOUT" →
  ∃ e,
    CallProcedure db name params w = (Err e, w, [])
    ∧ (∃ pre q post,
         params = pre ++ q :: post
         ∧ Forall (λ x, rejected x = false) pre
         ∧ rejected q = true
         ∧ e = bindError q)
    ∧ (e = "REF CURSOR cannot be used as INOUT parameter"
       ∨ ∃ q, q ∈ params ∧ supportedDirection (Direction q) = false
              ∧ e = "unsupported parameter direction: " +:+ Direction q)
    ∧ (∀ pre post, params = pre ++ p :: post → Forall (λ q, rejected q = false) pre →
         e = "REF CURSOR cannot be used as INOUT parameter").
Proof.
  intros Hin Hc Hd.
  assert (rejected p = true) as Hp.
  { unfold rejected. rewrite Hd, Hc. apply orb_true_r. }
  assert (bindError p = "REF CURSOR cannot be used as INOUT parameter") as Hbe.
  { unfold bindError, supportedDirection. by rewrite Hd. }
  destruct (CallProcedure_first_rejected name params p w Hin Hp)
    as (pre0 & q & post0 & Hsplit & Hpre0 & Hrq & Hrun).
  exists (bindError q). split; [done |]. split; [| split].
  - by exists pre0, q, post0.
  - unfold bindError. destruct (supportedDirection (Direction q)) eqn:Hs; [by left |].
    right. exists q. split; [| done].
    rewrite Hsplit. apply elem_of_app. right. by left.
  - intros pre post -> Hpre.
    rewrite CallProcedure_unfold, (bindParams_first_rejected 0 pre p post _ Hpre Hp) in Hrun.
    congruence.
Qed.

End CallProcedureFacts.

(** ** The Normalizer's loop *)

Section NormalizerFacts.
Context `{GoRuntime}.
Context {Conn : Type} (db : Driver Conn).
Implicit Types w : @World Conn.

Lemma scanRows_Ok_no_error cols pending allRows out :
  scanRows cols pending allRows = Ok out → firstScanError pending = None.
Proof.
  revert allRows. induction pending as [|[r|e'] pending IH]; intros allRows; simpl; try done.
  apply IH.
Qed.

Lemma scanRows_Err_first cols pending allRows e :
  scanRows cols pending allRows = Err e →
  ∃ c, firstScanError pending = Some c ∧ e = "scan failed: " +:+ c.
Proof.
  revert allRows. induction pending as [|[r|e'] pending IH]; intros allRows; simpl.
  - done.
  - apply IH.
  - intros [= <-]. by exists e'.
Qed.

(** processRowsResult closes the row set whatever happens, and fails exactly
    with the first failure of the row set *)
Lemma processRowsResult_cases h rows w :
  ∃ r, processRowsResult h rows w = (r, w, [EvRowsClose h])
       ∧ match firstRowsFailure rows with
         | Some e => r = Err e
         | None => ∃ out, r = Ok out
         end.
Proof.
  unfold processRowsResult, defer, bind, lift, fail, ret, rows_Close, firstRowsFailure.
  destruct (Columns rows) as [cols|c] eqn:Hcols; [| by eexists].
  destruct (scanRows cols (scans rows) []) as [allRows|e'] eqn:Hscan.
  - rewrite (scanRows_Ok_no_error _ _ _ _ Hscan).
    destruct (rows_Err rows) as [c|] eqn:Herr; eexists; (split; [reflexivity |]);
      [done | by eexists].
  - destruct (scanRows_Err_first _ _ _ _ Hscan) as (c & -> & ->). by eexists.
Qed.

Lemma processOutputParameter_cases heap outputParams p result w :
  ∃ r w' evs,
    processOutputParameter db heap outputParams p result w = (r, w', evs)
    ∧ Forall (λ ev, isExec ev = false) evs
    ∧ all_released evs = true
    ∧ match r with
      | Ok result' =>
          if writes outputParams p then ∃ v, result' = <[Name p := v]> result
          else result' = result
      | Err e => resultProcessingError db heap outputParams p e
      end.
Proof.
  unfold processOutputParameter, writes, resultProcessingError.
  destruct (String.eqb (ToUpper (Direction p)) "IN") eqn:Hin; simpl.
  { exists (Ok result), w, []. by repeat split. }
  destruct (outputParams !! Name p) as [dest|] eqn:Hdest.
  2: { exists (Ok result), w, []. by repeat split. }
  destruct (isRefCursorType p) eqn:Hcur.
  - destruct dest as [a| | | | | |]; simpl;
      try (exists (Ok result), w, []; by repeat split).
    unfold bind, wrapErr, go_ora_WrapRefCursor, ret.
    destruct (WrapRefCursor db (dbState w) (mRefCursor heap a)) as [s' [[rows|]|c]] eqn:Hwrap.
    + destruct (processRowsResult_cases (rowsOpened w) rows (mkWorld s' (S (rowsOpened w))))
        as (r & Hrun & Herr).
      rewrite Hrun. destruct r as [rowsData|e'].
      * do 3 eexists. split; [reflexivity |]. split; [by repeat constructor |].
        split; [simpl; by rewrite bool_decide_eq_true_2 | by eexists].
      * do 3 eexists. split; [reflexivity |]. split; [by repeat constructor |].
        split; [simpl; by rewrite bool_decide_eq_true_2 |].
        split; [done |]. split; [done |]. exists a. split; [done |]. right.
        exists (dbState w), s', rows, e'. split; [done |]. split.
        { destruct (firstRowsFailure rows) as [e0|]; [congruence | by destruct Herr]. }
        by rewrite !string_app_assoc.
    + do 3 eexists. split; [reflexivity |]. split; [by repeat constructor |].
      split; [done | by eexists].
    + do 3 eexists. split; [reflexivity |]. split; [by repeat constructor |].
      split; [done |]. split; [done |]. split; [done |]. exists a. split; [done |]. left.
      exists (dbState w), s', c. split; [done |]. by rewrite !string_app_assoc.
  - destruct dest as [a|a|a|a|a|a|a]; simpl.
    + exists (Ok result), w, []. by repeat split.
    + destruct (nf_Valid (mNullFloat64 heap a));
        do 3 eexists; (split; [reflexivity |]); by repeat split; try eexists.
    + destruct (ns_Valid (mNullString heap a));
        do 3 eexists; (split; [reflexivity |]); by repeat split; try eexists.
    + destruct (nt_Valid (mNullTime heap a));
        do 3 eexists; (split; [reflexivity |]); by repeat split; try eexists.
    + do 3 eexists; (split; [reflexivity |]); by repeat split; try eexists.
    + do 3 eexists; (split; [reflexivity |]); by repeat split; try eexists.
    + do 3 eexists; (split; [reflexivity |]); by repeat split; try eexists.
Qed.

Lemma processOutputLoop_cases heap outputParams params result w r w' evs :
  processOutputLoop db heap outputParams params result w = (r, w', evs) →
  Forall (λ ev, isExec ev = false) evs
  ∧ all_released evs = true
  ∧ match r with
    | Ok result' =>
        ∀ n, is_Some (result' !! n) ↔
             is_Some (result !! n)
             ∨ ∃ p, p ∈ params ∧ Name p = n ∧ writes outputParams p = true
    | Err e => ∃ p, p ∈ params ∧ resultProcessingError db heap outputParams p e
    end.
Proof.
  revert result w r w' evs. induction params as [|p rest IH]; intros result w r w' evs; simpl.
  - unfold ret. intros [= <- <- <-]. split; [constructor |]. split; [done |].
    intros n. split; [by left |]. intros [? | (p & Hp & _)]; [done |].
    by apply elem_of_nil in Hp.
  - intros Hrun. apply bind_inv in Hrun.
    destruct (processOutputParameter_cases heap outputParams p result w)
      as (r1 & w1 & ev1 & Hp & Hex1 & Hrel1 & Hr1).
    destruct Hrun as [(result1 & w1' & ev1' & ev2 & Hp' & Hloop & ->) | (e & Hp' & ->)].
    + rewrite Hp in Hp'. injection Hp' as -> <- <-.
      destruct (IH _ _ _ _ _ Hloop) as (Hex2 & Hrel2 & Hr2).
      split; [by apply Forall_app |]. split; [by apply all_released_app |].
      destruct r as [result'|e].
      * intros n. rewrite Hr2. destruct (writes outputParams p) eqn:Hw.
        -- destruct Hr1 as [v ->]. rewrite lookup_insert. split.
           ++ intros [Hn | (q & Hq & Hqn & Hqw)].
              ** case_decide as Hnp; [| by left].
                 right. exists p. split; [by left | done].
              ** right. exists q. split; [by right | done].
           ++ intros [Hn | (q & Hq & Hqn & Hqw)].
              ** left. case_decide; [by eexists | done].
              ** apply elem_of_cons in Hq as [-> | Hq].
                 --- left. rewrite decide_True by done. by eexists.
                 --- right. by exists q.
        -- subst result1. split.
           ++ intros [Hn | (q & Hq & Hqn & Hqw)]; [by left |].
              right. exists q. split; [by right | done].
           ++ intros [Hn | (q & Hq & Hqn & Hqw)]; [by left |].
              apply elem_of_cons in Hq as [-> | Hq]; [congruence |].
              right. by exists q.
      * destruct Hr2 as (q & Hq & He). exists q. split; [by right | done].
    + rewrite Hp in Hp'. injection Hp' as -> <- <-.
      split; [done |]. split; [done |]. exists p. split; [by left | done].
Qed.

(** a cursor that cannot be wrapped, or whose rows cannot be read, ends the
    iteration with the error of that parameter *)
Lemma processOutputParameter_cursor_failure heap outputParams p result w a :
  String.eqb (ToUpper (Direction p)) "IN" = false →
  isRefCursorType p = true →
  outputParams !! Name p = Some (PRefCursor a) →
  (∀ s' cause,
     WrapRefCursor db (dbState w) (mRefCursor heap a) = (s', Err cause) →
     processOutputParameter db heap outputParams p result w
     = (Err ("failed to wrap REF CURSOR for parameter " +:+ Name p +:+ ": " +:+ cause),
        mkWorld s' (rowsOpened w), [EvWrapRefCursor (mRefCursor heap a)]))
  ∧ (∀ s' rows cause,
       WrapRefCursor db (dbState w) (mRefCursor heap a) = (s', Ok (Some rows)) →
       firstRowsFailure rows = Some cause →
       processOutputParameter db heap outputParams p result w
       = (Err ("failed to process REF CURSOR for parameter " +:+ Name p +:+ ": " +:+ cause),
          mkWorld s' (S (rowsOpened w)),
          [EvWrapRefCursor (mRefCursor heap a); EvRowsOpen (rowsOpened w);
           EvRowsClose (rowsOpened w)])).
Proof.
  intros Hin Hcur Hdest. unfold processOutputParameter. rewrite Hin, Hdest, Hcur.
  unfold bind, wrapErr, go_ora_WrapRefCursor. split.
  - intros s' cause ->. by rewrite !string_app_assoc.
  - intros s' rows cause -> Hfail.
    destruct (processRowsResult_cases (rowsOpened w) rows (mkWorld s' (S (rowsOpened w))))
      as (r & -> & Hr).
    rewrite Hfail in Hr. subst r. by rewrite !string_app_assoc.
Qed.

Lemma processOutputLoop_app heap outputParams pre post result w :
  processOutputLoop db heap outputParams (pre ++ post) result w
  = bind (processOutputLoop db heap outputParams pre result)
         (λ result1, processOutputLoop db heap outputParams post result1) w.
Proof.
  revert result w. induction pre as [|p pre IH]; intros result w; simpl.
  - by rewrite bind_ret_l.
  - rewrite bind_assoc. unfold bind at 1 2.
    destruct (processOutputParameter db heap outputParams p result w) as [[[r1|e] w1] ev1];
      [| done].
    by rewrite IH.
Qed.

End NormalizerFacts.

(** ** What the Binder records *)

Section BoundFacts.
Context `{GoRuntime}.

Lemma bindParams_arg_names i params b b' :
  bindParams i params b = Ok b' →
  arg_Name <$> args b' = (arg_Name <$> args b) ++ (Name <$> params).
Proof.
  revert i b. induction params as [|p rest IH]; intros i b; simpl.
  - intros [= <-]. by rewrite app_nil_r.
  - destruct (bindParam i p b) as [b1|e] eqn:Hp; [| done].
    intros Hrest. rewrite (IH _ _ Hrest).
    destruct (rejected p) eqn:Hrej; [by rewrite (bindParam_rejected i p b Hrej) in Hp |].
    destruct (bindParam_accepted i p b Hrej) as [a Ha]. rewrite Ha in Hp.
    injection Hp as <-. simpl. by rewrite fmap_app, <- app_assoc.
Qed.

(** Under each name the Binder leaves the destination of the last parameter
    of that name that is not IN, and that destination has the shape this
    parameter's type asks for. *)
Lemma bindParams_outputParams i params b b' :
  bindParams i params b = Ok b' →
  ∀ n,
    (outputParams b' !! n = outputParams b !! n
     ∧ ∀ p, p ∈ params → Name p = n → String.eqb (ToUpper (Direction p)) "IN" = true)
    ∨ (∃ q, q ∈ params ∧ Name q = n ∧ writes (outputParams b') q = true).
Proof.
  revert i b. induction params as [|p rest IH]; intros i b; simpl.
  - intros [= <-] n. left. split; [done |]. intros p Hp. by apply elem_of_nil in Hp.
  - destruct (bindParam i p b) as [b1|e] eqn:Hp; [| done].
    intros Hrest n.
    destruct (IH _ _ Hrest n) as [[Hsame Hrest_in] | (q & Hq & Hqn & Hqw)].
    2: { right. exists q. split; [by right | done]. }
    destruct (rejected p) eqn:Hrej; [by rewrite (bindParam_rejected i p b Hrej) in Hp |].
    destruct (bindParam_accepted i p b Hrej) as [a Ha]. rewrite Ha in Hp.
    injection Hp as <-. simpl in Hsame.
    destruct (String.eqb (ToUpper (Direction p)) "IN") eqn:Hin.
    + left. split; [done |]. intros p' Hp' Hn.
      apply elem_of_cons in Hp' as [-> | Hp']; [done | by apply Hrest_in].
    + destruct (decide (Name p = n)) as [Hpn | Hpn].
      * right. exists p. split; [by left |]. split; [done |].
        unfold writes. rewrite Hin, Hpn, Hsame, <- Hpn, lookup_insert_eq. simpl.
        destruct (isRefCursorType p); [done |].
        by rewrite createOutputParameter_not_cursor.
      * left. split; [by rewrite Hsame, lookup_insert_ne |].
        intros p' Hp' Hn. apply elem_of_cons in Hp' as [-> | Hp']; [done | by apply Hrest_in].
Qed.

End BoundFacts.

(** ** CallProcedure as a whole *)

Lemma prefix_app (sub s : string) : String.prefix sub (sub +:+ s) = true.
Proof.
  induction sub as [|c sub IH]; [by destruct s |].
  change (String.prefix (String c sub) (String c (sub +:+ s)) = true). simpl.
  by destruct (ascii_dec c c).
Qed.

Lemma contains_prefix (sub s : string) : String.prefix sub s = true → contains sub s = true.
Proof. intros Hp. destruct s; simpl in *; by rewrite Hp. Qed.

Lemma contains_app (sub a b : string) : contains sub (a +:+ sub +:+ b) = true.
Proof.
  induction a as [|c a IH].
  - apply contains_prefix. apply (prefix_app sub b).
  - change (contains sub (String c (a +:+ sub +:+ b)) = true). simpl.
    rewrite IH. apply orb_true_r.
Qed.

Section ResultFacts.
Context `{GoRuntime}.
Context {Conn : Type} (db : Driver Conn).
Implicit Types w : @World Conn.

(** C1, as the code has it. After a call that returns without error the keys
    of the result are exactly the names of the parameters whose direction is
    not IN: each such parameter has an entry, and the name of an IN parameter
    is a key only when another parameter of the same name is not IN. *)
Theorem CallProcedure_result_keys (name : string) (params : list ProcedureParam)
    w (result : gmap string ResultValue) w' (evs : list Event) :
  CallProcedure db name params w = (Ok result, w', evs) →
  (∀ p, p ∈ params → ToUpper (Direction p) ≠ "IN" → is_Some (result !! Name p))
  ∧ (∀ n, is_Some (result !! n) →
       ∃ q, q ∈ params ∧ Name q = n ∧ ToUpper (Direction q) ≠ "IN")
  ∧ (∀ p, p ∈ params → ToUpper (Direction p) = "IN" →
       (∀ q, q ∈ params → Name q = Name p → ToUpper (Direction q) = "IN") →
       result !! Name p = None).
Proof.
  rewrite CallProcedure_unfold.
  destruct (bindParams 0 params (mkBound [] ∅)) as [b|e] eqn:Hbind; [| done].
  destruct (ExecContext db (dbState w) (buildQuery name params) (args b) zeroHeap)
    as [s [heap|e]]; [| done].
  destruct (processOutputParameters db heap params (outputParams b)
              (mkWorld s (rowsOpened w))) as [[r w1] evs1] eqn:Hout.
  intros [= -> <- <-]. unfold processOutputParameters in Hout.
  apply processOutputLoop_cases in Hout as (_ & _ & Hkeys).
  assert (∀ n, is_Some (result !! n) →
            ∃ q, q ∈ params ∧ Name q = n ∧ ToUpper (Direction q) ≠ "IN") as Hsound.
  { intros n Hn. apply Hkeys in Hn as [Hn | (q & Hq & Hqn & Hqw)].
    - rewrite lookup_empty in Hn. by destruct Hn.
    - exists q. split; [done |]. split; [done |].
      unfold writes in Hqw. apply andb_true_iff in Hqw as [Hin _].
      intros Heq. rewrite Heq in Hin. done. }
  split; [| split; [done |]].
  - intros p Hp Hdir. apply Hkeys. right.
    destruct (bindParams_outputParams 0 params _ _ Hbind (Name p))
      as [[_ Hall] | Hq]; [| done].
    specialize (Hall p Hp eq_refl). by apply String.eqb_eq in Hall.
  - intros p Hp Hdir Hall. destruct (result !! Name p) as [v|] eqn:Hv; [| done].
    destruct (Hsound (Name p)) as (q & Hq & Hqn & Hqd); [by eexists |].
    by specialize (Hall q Hq Hqn).
Qed.

(** C7. When the Binder accepts the list, CallProcedure hands the driver one
    statement, first of all: the block BEGIN name(:n1, ..., :nk); END; whose
    placeholders are the parameters' names in input order, with one argument
    per parameter, named alike and in the same order. Nothing else it does is
    a statement. For the empty list the block is BEGIN name(); END; without
    arguments, and when the driver executes it the result is the empty map. *)
Theorem CallProcedure_anonymous_block (name : string) (params : list ProcedureParam)
    w (b : Bound) :
  bindParams 0 params (mkBound [] ∅) = Ok b →
  arg_Name <$> args b = Name <$> params
  ∧ (∃ r w' evs,
       CallProcedure db name params w
       = (r, w', EvExecContext (anonymousBlock name params) (args b) :: evs)
       ∧ Forall (λ ev, isExec ev = false) evs)
  ∧ (params = [] →
       anonymousBlock name params = "BEGIN " +:+ name +:+ "(); END;"
       ∧ args b = []
       ∧ ∀ s heap,
           ExecContext db (dbState w) (anonymousBlock name []) [] zeroHeap = (s, Ok heap) →
           CallProcedure db name [] w
           = (Ok ∅, mkWorld s (rowsOpened w), [EvExecContext (anonymousBlock name []) []])).
Proof.
  intros Hbind. split; [| split].
  - by rewrite (bindParams_arg_names _ _ _ _ Hbind).
  - rewrite CallProcedure_unfold, Hbind, buildQuery_anonymousBlock.
    destruct (ExecContext db (dbState w) (anonymousBlock name params) (args b) zeroHeap)
      as [s [heap|e]].
    + destruct (processOutputParameters db heap params (outputParams b)
                  (mkWorld s (rowsOpened w))) as [[r w1] evs1] eqn:Hout.
      exists r, w1, evs1. split; [done |].
      unfold processOutputParameters in Hout.
      by apply processOutputLoop_cases in Hout as (Hex & _ & _).
    + do 3 eexists. split; [reflexivity | constructor].
  - intros ->. simpl in Hbind. injection Hbind as <-. split; [done |]. split; [done |].
    intros s heap Hexec.
    rewrite CallProcedure_unfold, buildQuery_anonymousBlock. simpl. by rewrite Hexec.
Qed.

(** C8. On every path out of CallProcedure each row set it opened has been
    closed. When the Binder and the execution succeeded: an error that
    CallProcedure returns comes from the cursor of one parameter of the list
    (wrapping it failed, or reading its rows failed at the columns, at a scan
    or at the end of the iteration) and its message carries that parameter's
    name; and when the parameters before a cursor parameter were processed
    and its cursor cannot be wrapped or its rows cannot be read, that error,
    with the parameter's name, is what CallProcedure returns. *)
Theorem CallProcedure_result_processing_error (name : string)
    (params : list ProcedureParam) w (r : outcome (gmap string ResultValue)) w'
    (evs : list Event) :
  CallProcedure db name params w = (r, w', evs) →
  all_released evs = true
  ∧ ∀ b s heap,
      bindParams 0 params (mkBound [] ∅) = Ok b →
      ExecContext db (dbState w) (buildQuery name params) (args b) zeroHeap = (s, Ok heap) →
      (∀ e, r = Err e →
         ∃ p, p ∈ params
              ∧ resultProcessingError db heap (outputParams b) p e
              ∧ contains (Name p) e = true)
      ∧ (∀ pre p post result1 w1 ev1 a,
           params = pre ++ p :: post →
           processOutputLoop db heap (outputParams b) pre ∅ (mkWorld s (rowsOpened w))
           = (Ok result1, w1, ev1) →
           String.eqb (ToUpper (Direction p)) "IN" = false →
           isRefCursorType p = true →
           outputParams b !! Name p = Some (PRefCursor a) →
           (∀ s' cause,
              WrapRefCursor db (dbState w1) (mRefCursor heap a) = (s', Err cause) →
              r = Err ("failed to wrap REF CURSOR for parameter " +:+ Name p +:+ ": "
                       +:+ cause))
           ∧ (∀ s' rows cause,
                WrapRefCursor db (dbState w1) (mRefCursor heap a) = (s', Ok (Some rows)) →
                firstRowsFailure rows = Some cause →
                r = Err ("failed to process REF CURSOR for parameter " +:+ Name p +:+ ": "
                         +:+ cause))).
Proof.
  rewrite CallProcedure_unfold.
  destruct (bindParams 0 params (mkBound [] ∅)) as [b|e0] eqn:Hbind.
  2: { intros [= <- <- <-]. split; [done |]. intros b s heap Hb. done. }
  destruct (ExecContext db (dbState w) (buildQuery name params) (args b) zeroHeap)
    as [s [heap|e0]] eqn:Hexec.
  2: { intros [= <- <- <-]. split; [done |]. intros b' s' heap' [= <-] He. congruence. }
  destruct (processOutputParameters db heap params (outputParams b)
              (mkWorld s (rowsOpened w))) as [[r1 w1] evs1] eqn:Hout.
  intros [= <- <- <-]. unfold processOutputParameters in Hout.
  pose proof (processOutputLoop_cases _ _ _ _ _ _ _ _ _ Hout) as (_ & Hrel & Hr).
  split; [done |]. intros b' s' heap' [= <-] He.
  rewrite Hexec in He. injection He as <- <-. split.
  - intros e ->. destruct Hr as (p & Hp & Herr). exists p. split; [done |]. split; [done |].
    destruct Herr
      as (_ & _ & a & _ & [(? & ? & cause & _ & ->) | (? & ? & ? & cause & _ & _ & ->)]).
    + apply (contains_app (Name p) "failed to wrap REF CURSOR for parameter ").
    + apply (contains_app (Name p) "failed to process REF CURSOR for parameter ").
  - intros pre p post result1 w2 ev1 a -> Hpre Hin Hcur Hdest.
    rewrite processOutputLoop_app in Hout. unfold bind at 1 in Hout. rewrite Hpre in Hout.
    simpl in Hout. unfold bind at 1 in Hout.
    destruct (processOutputParameter_cursor_failure db heap (outputParams b) p result1 w2 a
                Hin Hcur Hdest) as [Hwrap Hrows].
    split.
    + intros s' cause Hw. rewrite (Hwrap s' cause Hw) in Hout. by injection Hout as <- _ _.
    + intros s' rows cause Hw Hfail. rewrite (Hrows s' rows cause Hw Hfail) in Hout.
      by injection Hout as <- _ _.
Qed.

End ResultFacts.

(** ** Directions *)

Section DirectionFacts.
Context `{GoRuntime}.
Context {Conn : Type} (db : Driver Conn).
Implicit Types w : @World Conn.

Lemma caseVariant_bindParam i p p' b :
  caseVariant p p' → supportedDirection (Direction p) = true →
  bindParam i p' b = bindParam i p b.
Proof.
  destruct p as [n t v d], p' as [n' t' v' d']. unfold caseVariant, supportedDirection.
  simpl. intros (<- & <- & <- & Hd) Hs.
  unfold bindParam, isRefCursorType, convertInputValue, createOutputParameter. simpl.
  rewrite <- Hd.
  destruct (String.eqb (ToUpper d) "IN"); [done |].
  destruct (String.eqb (ToUpper d) "OUT"); [done |].
  by destruct (String.eqb (ToUpper d) "INOUT").
Qed.

Lemma caseVariant_bindParams i params params' b :
  Forall2 caseVariant params params' →
  Forall (λ p, supportedDirection (Direction p) = true) params →
  bindParams i params' b = bindParams i params b.
Proof.
  intros Hv. revert i b. induction Hv as [|p p' rest rest' Hp _ IH]; intros i b Hs; [done |].
  apply Forall_cons in Hs as [Hsp Hs]. simpl.
  rewrite (caseVariant_bindParam i p p' b Hp Hsp).
  destruct (bindParam i p b); [by apply IH | done].
Qed.

Lemma caseVariant_appendPlaceholders i params params' query :
  Forall2 caseVariant params params' →
  appendPlaceholders i params' query = appendPlaceholders i params query.
Proof.
  intros Hv. revert i query. induction Hv as [|p p' rest rest' Hp _ IH]; intros i query; [done |].
  simpl. destruct Hp as (<- & _). apply IH.
Qed.

Lemma caseVariant_processOutputParameter heap outputParams p p' result w :
  caseVariant p p' →
  processOutputParameter db heap outputParams p' result w
  = processOutputParameter db heap outputParams p result w.
Proof.
  destruct p as [n t v d], p' as [n' t' v' d']. unfold caseVariant. simpl.
  intros (<- & <- & <- & Hd).
  unfold processOutputParameter, isRefCursorType. simpl. by rewrite <- Hd.
Qed.

Lemma caseVariant_processOutputLoop heap outputParams params params' result w :
  Forall2 caseVariant params params' →
  processOutputLoop db heap outputParams params' result w
  = processOutputLoop db heap outputParams params result w.
Proof.
  intros Hv. revert result w.
  induction Hv as [|p p' rest rest' Hp _ IH]; intros result w; [done |].
  simpl. unfold bind. rewrite (caseVariant_processOutputParameter _ _ p p' _ _ Hp).
  destruct (processOutputParameter db heap outputParams p result w) as [[[r1|e] w1] ev1];
    [| done].
  by rewrite IH.
Qed.

(** C4, as the code has it. If some parameter has a direction that is not IN,
    OUT or INOUT in any case, CallProcedure returns an error, leaves the
    driver untouched and emits no driver call. The error is the one of the
    first rejected parameter of the list: it names that parameter's
    direction string, exactly as given, when its direction is the
    unsupported one, and it is the REF CURSOR error, which names no
    direction, when that parameter is a cursor declared INOUT. Two lists that
    differ only in the case of their (supported) directions give the same
    outcome. *)
Theorem CallProcedure_unsupported_direction (name : string) w :
  (∀ params p,
     p ∈ params → supportedDirection (Direction p) = false →
     ∃ e,
       CallProcedure db name params w = (Err e, w, [])
       ∧ (∃ pre q post,
            params = pre ++ q :: post
            ∧ Forall (λ x, rejected x = false) pre
            ∧ q ∈ params ∧ rejected q = true ∧ e = bindError q
            ∧ (supportedDirection (Direction q) = false →
                 e = "unsupported parameter direction: " +:+ Direction q)
            ∧ (supportedDirection (Direction q) = true →
                 e = "REF CURSOR cannot be used as INOUT parameter"))
       ∧ (∀ pre post, params = pre ++ p :: post →
            Forall (λ q, rejected q = false) pre →
            e = "unsupported parameter direction: " +:+ Direction p))
  ∧ (∀ params params',
       Forall2 caseVariant params params' →
       Forall (λ p, supportedDirection (Direction p) = true) params →
       CallProcedure db name params' w = CallProcedure db name params w).
Proof.
  split.
  - intros params p Hin Hs.
    assert (rejected p = true) as Hp by (unfold rejected; by rewrite Hs).
    destruct (CallProcedure_first_rejected db name params p w Hin Hp)
      as (pre0 & q & post0 & Hsplit & Hpre0 & Hrq & Hrun).
    exists (bindError q). split; [done |]. split.
    { exists pre0, q, post0. split; [done |]. split; [done |]. split.
      { rewrite Hsplit. apply elem_of_app. right. by left. }
      split; [done |]. split; [done |]. unfold bindError.
      split; intros Hq; by rewrite Hq. }
    intros pre post -> Hpre.
    rewrite CallProcedure_unfold, (bindParams_first_rejected 0 pre p post _ Hpre Hp) in Hrun.
    injection Hrun as <-. unfold bindError. by rewrite Hs.
  - intros params params' Hv Hs. rewrite !CallProcedure_unfold.
    rewrite (caseVariant_bindParams 0 params params' _ Hv Hs).
    unfold buildQuery. rewrite (caseVariant_appendPlaceholders 0 params params' _ Hv).
    destruct (bindParams 0 params (mkBound [] ∅)) as [b|e]; [| done].
    destruct (ExecContext db (dbState w) _ (args b) zeroHeap) as [s [heap|e]]; [| done].
    unfold processOutputParameters. by rewrite (caseVariant_processOutputLoop _ _ _ _ _ _ Hv).
Qed.

End DirectionFacts.

(** ** The scenarios of the specification, run *)

Lemma CallProcedure_result_keys_witness :
  CallProcedure addEmployeeDriver "add_employee" addEmployee world0
  = (Ok addEmployeeResult, world0, addEmployeeEvents)
  ∧ (∀ p, p ∈ addEmployee → ToUpper (Direction p) ≠ "IN" →
       is_Some (addEmployeeResult !! Name p))
  ∧ (∀ n, is_Some (addEmployeeResult !! n) →
       ∃ q, q ∈ addEmployee ∧ Name q = n ∧ ToUpper (Direction q) ≠ "IN")
  ∧ (∀ p, p ∈ addEmployee → ToUpper (Direction p) = "IN" →
       (∀ q, q ∈ addEmployee → Name q = Name p → ToUpper (Direction q) = "IN") →
       addEmployeeResult !! Name p = None).
Proof.
  split; [by vm_compute |].
  apply (CallProcedure_result_keys addEmployeeDriver "add_employee" addEmployee world0
           addEmployeeResult world0 addEmployeeEvents).
  by vm_compute.
Defined.

(** C1 as stated fails when two parameters share a name: the IN parameter
    "total" is followed by an OUT parameter "total", the call succeeds, and
    "total" is a key of the result. *)
Example CallProcedure_in_name_is_key :
  let p := mkParam "total" "NUMBER" (VInt 5) "IN" in
  let params := [p; mkParam "total" "NUMBER" VNil "OUT"] in
  p ∈ params
  ∧ ToUpper (Direction p) = "IN"
  ∧ (CallProcedure idleDriver "add_to_total" params world0).1.1
    = Ok (<["total" := RValue VNil]> ∅)
  ∧ (<["total" := RValue VNil]> (∅ : gmap string ResultValue)) !! Name p
    = Some (RValue VNil).
Proof. split; [by left | by vm_compute]. Qed.

Lemma CallProcedure_refcursor_inout_witness :
  let p := mkParam "cur" "sys_refcursor" VNil "InOut" in
  let params := [mkParam "emp_name" "VARCHAR2" (VString "Alice") "in"; p] in
  ∃ e,
    CallProcedure idleDriver "list_reports" params world0 = (Err e, world0, [])
    ∧ (∃ pre q post,
         params = pre ++ q :: post
         ∧ Forall (λ x, rejected x = false) pre
         ∧ rejected q = true
         ∧ e = bindError q)
    ∧ (e = "REF CURSOR cannot be used as INOUT parameter"
       ∨ ∃ q, q ∈ params ∧ supportedDirection (Direction q) = false
              ∧ e = "unsupported parameter direction: " +:+ Direction q)
    ∧ (∀ pre post, params = pre ++ p :: post → Forall (λ q, rejected q = false) pre →
         e = "REF CURSOR cannot be used as INOUT parameter").
Proof.
  intros p params.
  apply (CallProcedure_refcursor_inout idleDriver "list_reports" params p world0).
  - right. left.
  - reflexivity.
  - reflexivity.
Defined.

(** C2 as stated fails for the spelling REF_CURSOR, the one the
    specification gives for a cursor type: the Binder does not take it for a
    cursor type, binds the INOUT parameter to a dynamic destination, and the
    call goes on to the database and succeeds. The request passes Validate. *)
Example CallProcedure_underscore_is_no_cursor :
  isRefCursorType (mkParam "cur" "REF_CURSOR" VNil "INOUT") = false
  ∧ Validate (mkRequest "list_reports" [mkParam "cur" "REF_CURSOR" VNil "INOUT"]) = None
  ∧ CallProcedure idleDriver "list_reports" [mkParam "cur" "REF_CURSOR" VNil "INOUT"] world0
    = (Ok (<["cur" := RValue VNil]> ∅), world0,
       [EvExecContext "BEGIN list_reports(:cur); END;"
          [sql_Named "cur" (AInOut VNil (mkOut (PAny 0) 0))]]).
Proof. by vm_compute. Qed.

(** C4 as stated fails for a parameter behind the first rejected one: the
    direction "UP" is unsupported, yet the error names "SIDEWAYS" only; and
    behind a REF CURSOR INOUT parameter the error names no direction. *)
Example CallProcedure_names_first_rejected_only :
  supportedDirection "UP" = false
  ∧ CallProcedure idleDriver "move"
      [mkParam "a" "NUMBER" VNil "SIDEWAYS"; mkParam "b" "NUMBER" VNil "UP"] world0
    = (Err "unsupported parameter direction: SIDEWAYS", world0, [])
  ∧ contains "UP" "unsupported parameter direction: SIDEWAYS" = false
  ∧ CallProcedure idleDriver "move"
      [mkParam "c" "REF CURSOR" VNil "INOUT"; mkParam "b" "NUMBER" VNil "UP"] world0
    = (Err "REF CURSOR cannot be used as INOUT parameter", world0, [])
  ∧ contains "UP" "REF CURSOR cannot be used as INOUT parameter" = false.
Proof. by vm_compute. Qed.

(** the empty direction and a misspelt one are refused before any driver
    call; "in", "In" and "IN" are bound alike *)
Example CallProcedure_direction_examples :
  CallProcedure idleDriver "p" [mkParam "param1" "IN" (VString "value1") ""] world0
  = (Err "unsupported parameter direction: ", world0, [])
  ∧ CallProcedure idleDriver "p" [mkParam "param1" "IN" (VString "test") "INVALID"] world0
    = (Err "unsupported parameter direction: INVALID", world0, [])
  ∧ CallProcedure idleDriver "p" [mkParam "x" "NUMBER" (VInt 1) "in"] world0
    = CallProcedure idleDriver "p" [mkParam "x" "NUMBER" (VInt 1) "IN"] world0
  ∧ CallProcedure idleDriver "p" [mkParam "x" "NUMBER" (VInt 1) "In"] world0
    = CallProcedure idleDriver "p" [mkParam "x" "NUMBER" (VInt 1) "IN"] world0.
Proof. by vm_compute. Qed.

Lemma CallProcedure_anonymous_block_witness :
  arg_Name <$> args addEmployeeBound = Name <$> addEmployee
  ∧ (∃ r w' evs,
       CallProcedure addEmployeeDriver "add_employee" addEmployee world0
       = (r, w', EvExecContext (anonymousBlock "add_employee" addEmployee)
                               (args addEmployeeBound) :: evs)
       ∧ Forall (λ ev, isExec ev = false) evs)
  ∧ (addEmployee = [] →
       anonymousBlock "add_employee" addEmployee = "BEGIN " +:+ "add_employee" +:+ "(); END;"
       ∧ args addEmployeeBound = []
       ∧ ∀ s heap,
           ExecContext addEmployeeDriver (dbState world0)
             (anonymousBlock "add_employee" []) [] zeroHeap = (s, Ok heap) →
           CallProcedure addEmployeeDriver "add_employee" [] world0
           = (Ok ∅, mkWorld s (rowsOpened world0),
              [EvExecContext (anonymousBlock "add_employee" []) []])).
Proof.
  apply (CallProcedure_anonymous_block addEmployeeDriver "add_employee" addEmployee world0
           addEmployeeBound).
  by vm_compute.
Defined.

(** invoke("no_op", []) *)
Example CallProcedure_no_op :
  CallProcedure idleDriver "no_op" [] world0
  = (Ok ∅, world0, [EvExecContext "BEGIN no_op(); END;" []]).
Proof. by vm_compute. Qed.

Lemma CallProcedure_result_processing_error_witness :
  let e := "failed to process REF CURSOR for parameter cur: scan failed: unsupported Scan" in
  CallProcedure brokenCursorDriver "list_reports" listReports world0
  = (Err e, mkWorld tt 1, listReportsEvents)
  ∧ all_released listReportsEvents = true
  ∧ ∃ p, p ∈ listReports ∧ contains (Name p) e = true.
Proof.
  intros e.
  assert (CallProcedure brokenCursorDriver "list_reports" listReports world0
          = (Err e, mkWorld tt 1, listReportsEvents)) as Hrun by (by vm_compute).
  split; [exact Hrun |].
  destruct (CallProcedure_result_processing_error brokenCursorDriver "list_reports"
              listReports world0 (Err e) (mkWorld tt 1) listReportsEvents Hrun)
    as [Hrel Hafter].
  split; [exact Hrel |].
  destruct (Hafter (mkBound [sql_Named "cur" (AOut (mkOut (PRefCursor 0) 0))]
                            (<["cur" := PRefCursor 0]> ∅)) tt zeroHeap eq_refl eq_refl)
    as [Hback _].
  destruct (Hback e eq_refl) as (p & Hp & _ & Hname). by exists p.
Defined.

(** ** The older copy: where it differs *)

Section LegacyFacts.
Context `{GoRuntime}.

(** X21. The older Binder has no cursor check for INOUT: every type is bound, a
    cursor type to a dynamic destination *)
Lemma Legacy_bindArg_inout i p :
  ToUpper (Direction p) = "INOUT" →
  Legacy.bindArg i p = Ok (Legacy.AOut (Legacy.createInOutParameter i p))
  ∧ (Legacy.isRowsType (ToUpper (Type_ p)) = true →
       Legacy.createInOutParameter i p = Legacy.mkOut (Legacy.PAny i) true).
Proof.
  intros Hd. split.
  - unfold Legacy.bindArg. by rewrite Hd.
  - unfold Legacy.isRowsType, Legacy.createInOutParameter, Legacy.isNumericType,
      Legacy.isTextType, Legacy.isTemporalType.
    intros Ht. apply bool_decide_eq_true in Ht.
    repeat (apply elem_of_cons in Ht as [-> | Ht]; [done |]). by apply elem_of_nil in Ht.
Qed.

(** the older conversion never parses a numeric string: it is handed on *)
Lemma Legacy_convertInputValue_numeric_string p s :
  Legacy.isNumericType (ToUpper (Type_ p)) = true → Value p = VString s →
  Legacy.convertInputValue p = VString s.
Proof. intros Ht Hv. unfold Legacy.convertInputValue. by rewrite Ht, Hv. Qed.

(** the older row map stores what was scanned, byte slices and times
    included *)
Lemma Legacy_fillRowMap_lookup_last i cols columns (m : gmap string any) j c :
  cols !! j = Some c → c ∉ drop (S j) cols →
  Legacy.fillRowMap i cols columns m !! c = Some (nth (i + j) columns VNil).
Proof.
  revert i j m. induction cols as [|c' cols IH]; intros i j m Hj Hlast; [done |].
  destruct j as [|j]; simpl in *.
  - injection Hj as ->. rewrite drop_0 in Hlast.
    assert (∀ k (m' : gmap string any), Legacy.fillRowMap k cols columns m' !! c = m' !! c)
      as Hnotin.
    { clear IH. induction cols as [|c'' cols IH]; intros k m'; simpl; [done |].
      apply not_elem_of_cons in Hlast as [Hne Hlast].
      rewrite IH by done. by rewrite lookup_insert_ne. }
    by rewrite Hnotin, lookup_insert_eq, Nat.add_0_r.
  - rewrite (IH (S i) j) by done. by rewrite Nat.add_succ_r.
Qed.

End LegacyFacts.

(** * Further properties *)

(** ** util.CurrentMethod *)

Lemma string_app_cons (c : ascii) (a b : string) : String c a +:+ b = String c (a +:+ b).
Proof. reflexivity. Qed.

Lemma splitSlash_join (s : string) :
  s = (util.splitSlash s).1 +:+ slashJoin (util.splitSlash s).2.
Proof.
  induction s as [|c s IH]; [done |].
  simpl. destruct (util.splitSlash s) as [part parts]. simpl in *.
  destruct (Ascii.eqb_spec c "/") as [-> | Hc]; simpl.
  - rewrite IH at 1. reflexivity.
  - rewrite string_app_cons. by rewrite <- IH.
Qed.

Lemma splitSlash_no_slash (s : string) :
  hasSlash (util.splitSlash s).1 = false
  ∧ Forall (λ part, hasSlash part = false) (util.splitSlash s).2.
Proof.
  induction s as [|c s [IH1 IH2]]; [by split |].
  simpl. destruct (util.splitSlash s) as [part parts]. simpl in *.
  destruct (Ascii.eqb_spec c "/") as [-> | Hc]; simpl.
  - split; [done | by constructor].
  - split; [| done]. rewrite IH1. by destruct (Ascii.eqb_spec c "/").
Qed.

Lemma last_cons_default {A} (x d : A) (l : list A) : List.last (x :: l) d = List.last l x.
Proof.
  revert x d. induction l as [|y l IH]; intros x d; [done |].
  change (List.last (x :: y :: l) d) with (List.last (y :: l) d).
  by rewrite (IH y d), (IH y x).
Qed.

Lemma last_index (part : string) (parts : list string) :
  (part :: parts) !! (length (part :: parts) - 1)%nat = Some (List.last parts part).
Proof.
  revert part. induction parts as [|x parts IH]; intros part; [done |].
  rewrite last_cons_default, <- (IH x). simpl. by rewrite Nat.sub_0_r.
Qed.

Lemma slashJoin_last (part : string) (parts : list string) :
  part +:+ slashJoin parts = List.last parts part
  ∨ ∃ prefix, part +:+ slashJoin parts = prefix +:+ "/" +:+ List.last parts part.
Proof.
  revert part. induction parts as [|x parts IH]; intros part.
  - left. apply string_app_empty_r.
  - right. rewrite last_cons_default.
    change (slashJoin (x :: parts)) with ("/" +:+ x +:+ slashJoin parts).
    destruct (IH x) as [Hx | [prefix Hx]]; rewrite Hx.
    + by exists part.
    + exists (part +:+ "/" +:+ prefix). by rewrite !string_app_assoc.
Qed.

Lemma last_Forall {A} (P : A → Prop) (x : A) (l : list A) :
  P x → Forall P l → P (List.last l x).
Proof.
  intros Hx Hl. revert x Hx. induction Hl as [|y l Hy Hl IH]; intros x Hx; [done |].
  simpl. destruct l; [done |]. by apply IH.
Qed.

(** X1. CurrentMethod never runs out of the slice it indexes. It answers
    "unknown" when the caller or its function is not found; otherwise it
    answers the part of the function's name behind its last slash: a string
    without a slash that is the whole name, or the name after some prefix
    and a slash. *)
Theorem CurrentMethod_last_segment (caller : Z → option Z) (funcForPC : Z → option string)
    (skip : Z) :
  ∃ m,
    util.CurrentMethod caller funcForPC skip = Some m
    ∧ match caller skip with
      | None => m = "unknown"
      | Some pc =>
          match funcForPC pc with
          | None => m = "unknown"
          | Some name =>
              hasSlash m = false
              ∧ (name = m ∨ ∃ prefix, name = prefix +:+ "/" +:+ m)
          end
      end.
Proof.
  unfold util.CurrentMethod. destruct (caller skip) as [pc|]; [| by exists "unknown"].
  destruct (funcForPC pc) as [name|]; [| by exists "unknown"].
  unfold util.strings_Split.
  pose proof (splitSlash_join name) as Hjoin.
  pose proof (splitSlash_no_slash name) as [Hpart Hparts].
  destruct (util.splitSlash name) as [part parts]. simpl in *.
  exists (List.last parts part). split; [apply last_index |]. split.
  - by apply (last_Forall (λ x, hasSlash x = false)).
  - rewrite Hjoin. apply slashJoin_last.
Qed.

(** the example of the function's own comment *)
Example CurrentMethod_example :
  util.CurrentMethod (λ _, Some 7%Z)
    (λ _, Some "oracle-golang/internal/service.(*ProcedureService).CallProcedure") 2
  = Some "service.(*ProcedureService).CallProcedure"
  ∧ util.CurrentMethod (λ _, Some 7%Z) (λ _, Some "main.main") 0 = Some "main.main"
  ∧ util.CurrentMethod (λ _, Some 7%Z) (λ _, None) 0 = Some "unknown"
  ∧ util.CurrentMethod (λ _, None) (λ _, Some "main.main") 0 = Some "unknown".
Proof. by vm_compute. Qed.

(** ** The Binder, argument by argument *)

Section BinderShape.
Context `{GoRuntime}.

Lemma bindParam_boundArg i p b :
  rejected p = false →
  bindParam i p b
  = Ok (mkBound (args b ++ [boundArg i p])
         (if String.eqb (ToUpper (Direction p)) "IN" then outputParams b
          else <[Name p := boundDest i p]> (outputParams b))).
Proof.
  unfold rejected, supportedDirection, bindParam, boundArg, boundDest. intros Hrej.
  destruct (String.eqb (ToUpper (Direction p)) "IN"); [done |].
  destruct (String.eqb (ToUpper (Direction p)) "OUT").
  { by destruct (isRefCursorType p). }
  destruct (String.eqb (ToUpper (Direction p)) "INOUT"); [| done].
  by destruct (isRefCursorType p).
Qed.

Lemma bindParams_args i params b b' :
  bindParams i params b = Ok b' →
  args b' = args b ++ imap (λ k p, boundArg (i + k) p) params.
Proof.
  revert i b. induction params as [|p rest IH]; intros i b; simpl.
  - intros [= <-]. by rewrite app_nil_r.
  - destruct (rejected p) eqn:Hrej; [by rewrite (bindParam_rejected i p b Hrej) |].
    rewrite (bindParam_boundArg i p b Hrej). intros Hrest.
    rewrite (IH _ _ Hrest). simpl. rewrite <- app_assoc, Nat.add_0_r. simpl.
    do 2 f_equal. apply imap_ext. intros k q _. simpl. by rewrite Nat.add_succ_r.
Qed.

Lemma bindParams_accepted i params b :
  Forall (λ q, rejected q = false) params → ∃ b', bindParams i params b = Ok b'.
Proof.
  intros Hall. revert i b. induction Hall as [|p rest Hp _ IH]; intros i b; simpl.
  - by eexists.
  - rewrite (bindParam_boundArg i p b Hp). apply IH.
Qed.

Lemma bindParams_Ok_accepted i params b b' :
  bindParams i params b = Ok b' → Forall (λ q, rejected q = false) params.
Proof.
  revert i b. induction params as [|p rest IH]; intros i b; simpl; [constructor |].
  destruct (rejected p) eqn:Hrej; [by rewrite (bindParam_rejected i p b Hrej) |].
  rewrite (bindParam_boundArg i p b Hrej). intros Hrest.
  constructor; [done | by eapply IH].
Qed.

(** under the name of a parameter that is not IN and is the last such one
    of its name, the Binder records that parameter's own destination *)
Lemma bindParams_last_dest i params b b' k p :
  bindParams i params b = Ok b' →
  params !! k = Some p →
  String.eqb (ToUpper (Direction p)) "IN" = false →
  (∀ j q, (k < j)%nat → params !! j = Some q → Name q = Name p →
          String.eqb (ToUpper (Direction q)) "IN" = true) →
  outputParams b' !! Name p = Some (boundDest (i + k) p).
Proof.
  revert i b k. induction params as [|x rest IH]; intros i b k; simpl; [done |].
  destruct (rejected x) eqn:Hrej; [by rewrite (bindParam_rejected i x b Hrej) |].
  rewrite (bindParam_boundArg i x b Hrej). intros Hrest Hk Hin Hlast.
  destruct k as [|k]; simpl in Hk.
  - injection Hk as ->. rewrite Hin in Hrest. rewrite Nat.add_0_r.
    destruct (bindParams_outputParams _ _ _ _ Hrest (Name p)) as [[-> _] | (q & Hq & Hqn & Hqw)].
    + simpl. by rewrite lookup_insert_eq.
    + apply list_elem_of_lookup in Hq as [j Hj].
      specialize (Hlast (S j) q ltac:(lia) Hj Hqn).
      unfold writes in Hqw. by rewrite Hlast in Hqw.
  - rewrite <- Nat.add_succ_comm. eapply IH; [exact Hrest | exact Hk | exact Hin |].
    intros j q Hj Hq. apply (Hlast (S j) q); [lia | done].
Qed.

(** X2. The Binder accepts a list exactly when none of its parameters is
    rejected (unsupported direction, or cursor type with INOUT). It then
    holds one argument per parameter, at the parameter's own position and
    under its name: the converted value for IN, a destination for OUT, the
    converted value with a destination for INOUT. *)
Theorem bindParams_accepts_iff (params : list ProcedureParam) :
  (Forall (λ q, rejected q = false) params ↔
     ∃ b, bindParams 0 params (mkBound [] ∅) = Ok b)
  ∧ ∀ b, bindParams 0 params (mkBound [] ∅) = Ok b →
      length (args b) = length params
      ∧ ∀ k p, params !! k = Some p → args b !! k = Some (boundArg k p).
Proof.
  split.
  - split; [apply bindParams_accepted |]. intros [b Hb]. by eapply bindParams_Ok_accepted.
  - intros b Hb. apply bindParams_args in Hb. simpl in Hb. rewrite Hb. split.
    + by rewrite length_imap.
    + intros k p Hk. by rewrite list_lookup_imap, Hk.
Qed.

End BinderShape.

(** ** What the Normalizer reads *)

Section NormalizerReads.
Context `{GoRuntime}.
Context {Conn : Type} (db : Driver Conn).
Implicit Types w : @World Conn.

Lemma processOutputParameter_input heap outputParams p result w :
  String.eqb (ToUpper (Direction p)) "IN" = true →
  processOutputParameter db heap outputParams p result w = (Ok result, w, []).
Proof. intros Hin. unfold processOutputParameter. by rewrite Hin. Qed.

(** the iteration for a parameter whose type is no cursor type talks to no
    driver; it stores what is read behind the destination, when that is no
    cursor handle *)
Lemma processOutputParameter_scalar heap outputParams p result w :
  isCursorOutput p = false →
  processOutputParameter db heap outputParams p result w
  = (Ok (if writes outputParams p
         then <[Name p := RValue (readScalar heap (default (PAny 0) (outputParams !! Name p)))]>
                result
         else result), w, []).
Proof.
  unfold isCursorOutput, processOutputParameter, writes.
  destruct (String.eqb (ToUpper (Direction p)) "IN"); simpl; [done |].
  intros ->. destruct (outputParams !! Name p) as [d|]; [| done]. simpl.
  destruct d as [a|a|a|a|a|a|a]; simpl; try done.
  - by destruct (nf_Valid (mNullFloat64 heap a)).
  - by destruct (ns_Valid (mNullString heap a)).
  - by destruct (nt_Valid (mNullTime heap a)).
Qed.

(** entries under other names, and under names no iteration stores to,
    stay as they are *)
Lemma processOutputLoop_frame heap outputParams params result w result' w' evs n :
  processOutputLoop db heap outputParams params result w = (Ok result', w', evs) →
  (∀ q, q ∈ params → Name q = n → writes outputParams q = false) →
  result' !! n = result !! n.
Proof.
  revert result w evs. induction params as [|p rest IH]; intros result w evs; simpl.
  - unfold ret. by intros [= <- <- <-].
  - intros Hrun Hnone. apply bind_inv in Hrun.
    destruct Hrun as [(result1 & w1 & ev1 & ev2 & Hp & Hloop & ->) | (e & _ & [=])].
    rewrite (IH _ _ _ Hloop) by (intros q Hq; apply Hnone; by right).
    destruct (processOutputParameter_cases db heap outputParams p result w)
      as (r1 & w1' & ev1' & Hp' & _ & _ & Hr1).
    rewrite Hp in Hp'. injection Hp' as <- <- <-.
    destruct (writes outputParams p) eqn:Hw; [| by subst].
    destruct Hr1 as [v ->]. destruct (decide (Name p = n)) as [Hn | Hn].
    + rewrite (Hnone p) in Hw; [done | by left | done].
    + by rewrite lookup_insert_ne.
Qed.

(** all iterations that store under a name behind which no cursor handle
    is recorded store the same value *)
Lemma processOutputLoop_scalar heap outputParams params result w result' w' evs n d :
  processOutputLoop db heap outputParams params result w = (Ok result', w', evs) →
  outputParams !! n = Some d →
  isCursorDest d = false →
  result !! n = Some (RValue (readScalar heap d))
  ∨ (∃ q, q ∈ params ∧ Name q = n ∧ writes outputParams q = true) →
  result' !! n = Some (RValue (readScalar heap d)).
Proof.
  revert result w evs. induction params as [|p rest IH]; intros result w evs; simpl.
  - unfold ret. intros [= <- <- <-] _ _ [Hn | (q & Hq & _)]; [done |].
    by apply elem_of_nil in Hq.
  - intros Hrun Hd Hnc Hsrc. apply bind_inv in Hrun.
    destruct Hrun as [(result1 & w1 & ev1 & ev2 & Hp & Hloop & ->) | (e & _ & [=])].
    apply (IH _ _ _ Hloop Hd Hnc).
    destruct (decide (Name p = n ∧ writes outputParams p = true)) as [[Hn Hw] | Hno].
    + left.
      assert (isCursorOutput p = false) as Hco.
      { unfold writes in Hw. rewrite Hn, Hd, Hnc in Hw.
        apply andb_true_iff in Hw as [_ Hw]. unfold isCursorOutput.
        destruct (isRefCursorType p); [done | apply andb_false_r]. }
      rewrite (processOutputParameter_scalar _ _ _ _ _ Hco), Hw in Hp.
      injection Hp as <- _ _. by rewrite Hn, Hd, lookup_insert_eq.
    + destruct Hsrc as [Hres | (q & Hq & Hqn & Hqw)].
      * left.
        destruct (processOutputParameter_cases db heap outputParams p result w)
          as (r1 & w1' & ev1' & Hp' & _ & _ & Hr1).
        rewrite Hp in Hp'. injection Hp' as <- <- <-.
        destruct (writes outputParams p) eqn:Hw; [| by subst].
        destruct Hr1 as [v ->]. rewrite lookup_insert_ne; [done |].
        intros Hn. apply Hno. by split.
      * apply elem_of_cons in Hq as [-> | Hq]; [by destruct Hno |].
        right. by exists q.
Qed.

Lemma processOutputLoop_no_cursor heap outputParams params result w :
  Forall (λ p, isCursorOutput p = false) params →
  ∃ result',
    processOutputLoop db heap outputParams params result w = (Ok result', w, []).
Proof.
  intros Hall. revert result. induction Hall as [|p rest Hp _ IH]; intros result; simpl.
  - by eexists.
  - unfold bind. rewrite (processOutputParameter_scalar _ _ _ _ _ Hp).
    destruct (IH (if writes outputParams p
                  then <[Name p := RValue (readScalar heap
                                     (default (PAny 0) (outputParams !! Name p)))]> result
                  else result)) as [result' ->].
    by eexists.
Qed.

End NormalizerReads.

(** ** CallProcedure: errors and outputs *)

Section CallProcedureMore.
Context `{GoRuntime}.
Context {Conn : Type} (db : Driver Conn).
Implicit Types w : @World Conn.

Lemma bindParams_Err i params b e :
  bindParams i params b = Err e →
  ∃ q, q ∈ params ∧ rejected q = true ∧ e = bindError q.
Proof.
  revert i b. induction params as [|p rest IH]; intros i b; simpl; [done |].
  destruct (rejected p) eqn:Hrej.
  - rewrite (bindParam_rejected i p b Hrej). intros [= <-]. exists p. split; [by left | done].
  - rewrite (bindParam_boundArg i p b Hrej). intros Hrest.
    destruct (IH _ _ Hrest) as (q & Hq & Hrq & ->). exists q. split; [by right | done].
Qed.

(** X3. When the driver fails to execute the block, CallProcedure returns the
    driver's error behind the text "execution failed for procedure
    '<name>': ", and does nothing after the statement: no output is read
    and no cursor is wrapped. *)
Theorem CallProcedure_execution_failure (name : string) (params : list ProcedureParam)
    w (b : Bound) (s : Conn) (cause : error) :
  bindParams 0 params (mkBound [] ∅) = Ok b →
  ExecContext db (dbState w) (buildQuery name params) (args b) zeroHeap = (s, Err cause) →
  CallProcedure db name params w
  = (Err ("execution failed for procedure '" +:+ name +:+ "': " +:+ cause),
     mkWorld s (rowsOpened w), [EvExecContext (buildQuery name params) (args b)])
  ∧ contains name ("execution failed for procedure '" +:+ name +:+ "': " +:+ cause) = true.
Proof.
  intros Hbind Hexec. split.
  - rewrite CallProcedure_unfold, Hbind, Hexec. by rewrite !string_app_assoc.
  - apply (contains_app name "execution failed for procedure '").
Qed.

(** X4. Every error of CallProcedure is of one of three kinds, told apart by
    what reached the driver: a configuration error of a rejected parameter
    (nothing reached it, its state is untouched), an execution error (the
    statement alone reached it), or the error of one cursor parameter
    (the statement succeeded first). *)
Theorem CallProcedure_error_taxonomy (name : string) (params : list ProcedureParam)
    w (e : error) w' (evs : list Event) :
  CallProcedure db name params w = (Err e, w', evs) →
  (evs = [] ∧ w' = w ∧ ∃ q, q ∈ params ∧ rejected q = true ∧ e = bindError q)
  ∨ (∃ b s cause,
       bindParams 0 params (mkBound [] ∅) = Ok b
       ∧ ExecContext db (dbState w) (buildQuery name params) (args b) zeroHeap
         = (s, Err cause)
       ∧ e = "execution failed for procedure '" +:+ name +:+ "': " +:+ cause
       ∧ w' = mkWorld s (rowsOpened w)
       ∧ evs = [EvExecContext (buildQuery name params) (args b)])
  ∨ (∃ b s heap p evs',
       bindParams 0 params (mkBound [] ∅) = Ok b
       ∧ ExecContext db (dbState w) (buildQuery name params) (args b) zeroHeap
         = (s, Ok heap)
       ∧ p ∈ params
       ∧ resultProcessingError db heap (outputParams b) p e
       ∧ evs = EvExecContext (buildQuery name params) (args b) :: evs').
Proof.
  rewrite CallProcedure_unfold.
  destruct (bindParams 0 params (mkBound [] ∅)) as [b|e0] eqn:Hbind.
  2: { intros [= <- <- <-]. left. split; [done |]. split; [done |].
       by apply bindParams_Err in Hbind. }
  destruct (ExecContext db (dbState w) (buildQuery name params) (args b) zeroHeap)
    as [s [heap|cause]] eqn:Hexec.
  2: { intros [= <- <- <-]. right. left. exists b, s, cause.
       split; [done |]. split; [done |]. split; [by rewrite !string_app_assoc | done]. }
  destruct (processOutputParameters db heap params (outputParams b)
              (mkWorld s (rowsOpened w))) as [[r1 w1] evs1] eqn:Hout.
  intros [= -> <- <-]. unfold processOutputParameters in Hout.
  apply processOutputLoop_cases in Hout as (_ & _ & p & Hp & Herr).
  right. right. by exists b, s, heap, p, evs1.
Qed.

(** X5. A list of IN parameters is always bound, each to its converted value and
    to no destination; when the statement succeeds the result is the empty
    map and the statement is all that reached the driver. *)
Theorem CallProcedure_inputs_only (name : string) (params : list ProcedureParam) w :
  Forall (λ p, ToUpper (Direction p) = "IN") params →
  ∃ b,
    bindParams 0 params (mkBound [] ∅) = Ok b
    ∧ args b = (λ p, sql_Named (Name p) (AValue (convertInputValue p))) <$> params
    ∧ outputParams b = ∅
    ∧ ∀ s heap,
        ExecContext db (dbState w) (buildQuery name params) (args b) zeroHeap = (s, Ok heap) →
        CallProcedure db name params w
        = (Ok ∅, mkWorld s (rowsOpened w),
           [EvExecContext (buildQuery name params) (args b)]).
Proof.
  intros Hall.
  assert (∀ i b0, ∃ b,
            bindParams i params b0 = Ok b
            ∧ args b = args b0
                       ++ ((λ p, sql_Named (Name p) (AValue (convertInputValue p))) <$> params)
            ∧ outputParams b = outputParams b0) as Hbind.
  { induction Hall as [|p rest Hp _ IH]; intros i b0; simpl.
    - exists b0. by rewrite app_nil_r.
    - unfold bindParam. rewrite Hp. simpl.
      destruct (IH (S i) (mkBound (args b0 ++ [sql_Named (Name p) (AValue (convertInputValue p))])
                                  (outputParams b0))) as (b & -> & Hargs & Hout).
      exists b. split; [done |]. rewrite Hargs, Hout. simpl. by rewrite <- app_assoc. }
  destruct (Hbind 0%nat (mkBound [] ∅)) as (b & Hb & Hargs & Hout).
  exists b. split; [done |]. split; [done |]. split; [done |].
  intros s heap Hexec. rewrite CallProcedure_unfold, Hb, Hexec.
  unfold processOutputParameters.
  assert (∀ result w0, processOutputLoop db heap (outputParams b) params result w0
                       = (Ok result, w0, [])) as Hloop.
  { clear -Hall. induction Hall as [|p rest Hp _ IH]; intros result w0; simpl; [done |].
    unfold bind. rewrite processOutputParameter_input by (by rewrite Hp).
    by rewrite IH. }
  by rewrite Hloop.
Qed.

(** X6. When no parameter is a cursor output, a call that was bound and executed
    cannot fail any more: it returns a result, and the statement is all that
    reached the driver. *)
Theorem CallProcedure_without_cursors (name : string) (params : list ProcedureParam)
    w (b : Bound) (s : Conn) (heap : Heap) :
  bindParams 0 params (mkBound [] ∅) = Ok b →
  ExecContext db (dbState w) (buildQuery name params) (args b) zeroHeap = (s, Ok heap) →
  Forall (λ p, isCursorOutput p = false) params →
  ∃ result,
    CallProcedure db name params w
    = (Ok result, mkWorld s (rowsOpened w),
       [EvExecContext (buildQuery name params) (args b)]).
Proof.
  intros Hbind Hexec Hall. rewrite CallProcedure_unfold, Hbind, Hexec.
  unfold processOutputParameters.
  destruct (processOutputLoop_no_cursor db heap (outputParams b) params ∅
              (mkWorld s (rowsOpened w)) Hall) as [result ->].
  by exists result.
Qed.

(** X7. The entry of an OUT or INOUT parameter whose type is no cursor type, and
    which is the last parameter of its name that is not IN, is what the
    driver left behind that parameter's own destination: the value when the
    destination is valid, nil when a nullable destination is not. *)
Theorem CallProcedure_scalar_output (name : string) (params : list ProcedureParam)
    w (result : gmap string ResultValue) w' (evs : list Event)
    (b : Bound) (s : Conn) (heap : Heap) (k : nat) (p : ProcedureParam) :
  CallProcedure db name params w = (Ok result, w', evs) →
  bindParams 0 params (mkBound [] ∅) = Ok b →
  ExecContext db (dbState w) (buildQuery name params) (args b) zeroHeap = (s, Ok heap) →
  params !! k = Some p →
  String.eqb (ToUpper (Direction p)) "IN" = false →
  isRefCursorType p = false →
  (∀ j q, (k < j)%nat → params !! j = Some q → Name q = Name p →
          String.eqb (ToUpper (Direction q)) "IN" = true) →
  result !! Name p = Some (RValue (readScalar heap (Dest_ (createOutputParameter k p)))).
Proof.
  intros Hrun Hbind Hexec Hk Hin Hcur Hlast.
  rewrite CallProcedure_unfold, Hbind, Hexec in Hrun.
  destruct (processOutputParameters db heap params (outputParams b)
              (mkWorld s (rowsOpened w))) as [[r1 w1] evs1] eqn:Hout.
  injection Hrun as -> <- <-. unfold processOutputParameters in Hout.
  pose proof (bindParams_last_dest 0 params _ b k p Hbind Hk Hin Hlast) as Hdest.
  unfold boundDest in Hdest. rewrite Hcur in Hdest. simpl in Hdest.
  apply (processOutputLoop_scalar db heap (outputParams b) params ∅ _ _ _ _ (Name p) _ Hout Hdest).
  - apply createOutputParameter_not_cursor.
  - right. exists p. split; [by eapply list_elem_of_lookup_2 |]. split; [done |].
    unfold writes. rewrite Hin, Hdest, Hcur. simpl.
    by rewrite createOutputParameter_not_cursor.
Qed.

End CallProcedureMore.

(** ** Cursors *)

Section CursorFacts.
Context `{GoRuntime}.
Context {Conn : Type} (db : Driver Conn).
Implicit Types w : @World Conn.

Lemma scanRows_Ok_inv cols pending allRows out :
  scanRows cols pending allRows = Ok out →
  ∃ rs, pending = Ok <$> rs ∧ out = allRows ++ rowMaps cols rs.
Proof.
  revert allRows. induction pending as [|[r|e] pending IH]; intros allRows; simpl.
  - intros [= <-]. exists []. by rewrite app_nil_r.
  - intros Hrest. destruct (IH _ Hrest) as (rs & -> & ->).
    exists (r :: rs). by rewrite <- app_assoc.
  - done.
Qed.

Lemma processRowsResult_Ok_inv h rows w out w' evs :
  processRowsResult h rows w = (Ok out, w', evs) →
  ∃ cols rs, Columns rows = Ok cols ∧ scans rows = Ok <$> rs
             ∧ rows_Err rows = None ∧ out = rowMaps cols rs.
Proof.
  unfold processRowsResult, defer, bind, lift, fail, ret, rows_Close.
  destruct (Columns rows) as [cols|c] eqn:Hcols; [| done].
  destruct (scanRows cols (scans rows) []) as [allRows|e'] eqn:Hscan; [| done].
  destruct (scanRows_Ok_inv _ _ _ _ Hscan) as (rs & Hrs & ->).
  destruct (rows_Err rows) as [c|] eqn:Herr; [done |].
  intros [= <- _ _]. by exists cols, rs.
Qed.

(** X9. processRowsResult closes the row set once, whatever it returns, and
    touches nothing else. It returns rows only when the columns are known,
    every row scans and the iteration ends without error; otherwise it
    returns no rows at all and the first failure in that order: the columns,
    the first row that does not scan, the iteration. *)
Theorem processRowsResult_outcome (h : nat) (rows : Rows) w :
  ∃ r,
    processRowsResult h rows w = (r, w, [EvRowsClose h])
    ∧ match r with
      | Ok out =>
          ∃ cols rs, Columns rows = Ok cols ∧ scans rows = Ok <$> rs
                     ∧ rows_Err rows = None ∧ out = rowMaps cols rs
      | Err e =>
          match Columns rows with
          | Err c => e = "failed to get columns: " +:+ c
          | Ok _ =>
              match firstError (scans rows) with
              | Some c => e = "scan failed: " +:+ c
              | None => ∃ c, rows_Err rows = Some c ∧ e = "rows iteration error: " +:+ c
              end
          end
      end.
Proof.
  unfold processRowsResult, defer, bind, lift, fail, ret, rows_Close.
  destruct (Columns rows) as [cols|c] eqn:Hcols; [| by eexists].
  destruct (scanRows cols (scans rows) []) as [allRows|e'] eqn:Hscan.
  - destruct (scanRows_Ok_inv _ _ _ _ Hscan) as (rs & Hrs & ->).
    destruct (rows_Err rows) as [c|] eqn:Herr; eexists; (split; [reflexivity |]).
    + rewrite Hrs. clear. induction rs as [|r rs IH]; simpl; [by exists c | done].
    + by exists cols, rs.
  - eexists. split; [reflexivity |]. clear Hcols.
    revert Hscan. generalize (@nil (gmap string any)).
    induction (scans rows) as [|[r|c] pending IH]; intros allRows; simpl; [done | apply IH |].
    by intros [= <-].
Qed.

(** X8. The entry of a cursor output parameter that is the last parameter of its
    name that is not IN: the call wraps the cursor the driver left behind the
    parameter's own handle; a call that succeeds stores nil when no row set
    came back, and otherwise all rows of the row set, in fetch order. *)
Theorem CallProcedure_cursor_output (name : string) (pre post : list ProcedureParam)
    (p : ProcedureParam) w (result : gmap string ResultValue) w' (evs : list Event)
    (b : Bound) (s : Conn) (heap : Heap) :
  CallProcedure db name (pre ++ p :: post) w = (Ok result, w', evs) →
  bindParams 0 (pre ++ p :: post) (mkBound [] ∅) = Ok b →
  ExecContext db (dbState w) (buildQuery name (pre ++ p :: post)) (args b) zeroHeap
  = (s, Ok heap) →
  isCursorOutput p = true →
  Forall (λ q, Name q = Name p → String.eqb (ToUpper (Direction q)) "IN" = true) post →
  EvWrapRefCursor (mRefCursor heap (length pre)) ∈ evs
  ∧ ∃ s1 s2 wrapped,
      WrapRefCursor db s1 (mRefCursor heap (length pre)) = (s2, Ok wrapped)
      ∧ match wrapped with
        | None => result !! Name p = Some (RValue VNil)
        | Some rows =>
            ∃ cols rs, Columns rows = Ok cols ∧ scans rows = Ok <$> rs
                       ∧ rows_Err rows = None
                       ∧ result !! Name p = Some (RRows (rowMaps cols rs))
        end.
Proof.
  intros Hrun Hbind Hexec Hco Hpost.
  unfold isCursorOutput in Hco. apply andb_true_iff in Hco as [Hin Hcur].
  apply negb_true_iff in Hin.
  rewrite CallProcedure_unfold, Hbind, Hexec in Hrun.
  destruct (processOutputParameters db heap (pre ++ p :: post) (outputParams b)
              (mkWorld s (rowsOpened w))) as [[r1 w1] evs1] eqn:Hout.
  injection Hrun as -> <- <-. unfold processOutputParameters in Hout.
  assert (outputParams b !! Name p = Some (PRefCursor (length pre))) as Hdest.
  { pose proof (bindParams_last_dest 0 (pre ++ p :: post) _ b (length pre) p Hbind) as Hd.
    unfold boundDest in Hd. rewrite Hcur in Hd. apply Hd; [| done |].
    - by rewrite lookup_app_r, Nat.sub_diag by lia.
    - intros j q Hj Hq. rewrite lookup_app_r in Hq by lia.
      destruct (j - length pre)%nat as [|m] eqn:Hm; [lia |]. simpl in Hq.
      rewrite Forall_forall in Hpost. apply Hpost. by eapply list_elem_of_lookup_2. }
  assert (∀ q, q ∈ post → Name q = Name p → writes (outputParams b) q = false) as Hquiet.
  { intros q Hq Hn. rewrite Forall_forall in Hpost. unfold writes.
    by rewrite (Hpost q Hq Hn). }
  rewrite processOutputLoop_app in Hout. apply bind_inv in Hout.
  destruct Hout as [(result1 & w2 & ev1 & ev2 & _ & Hrest & ->) | (e & _ & [=])].
  simpl in Hrest. apply bind_inv in Hrest.
  destruct Hrest as [(result2 & w3 & ev3 & ev4 & Hp & Hloop & ->) | (e & _ & [=])].
  pose proof (processOutputLoop_frame db _ _ _ _ _ _ _ _ (Name p) Hloop Hquiet) as Hframe.
  unfold processOutputParameter in Hp. rewrite Hin, Hdest, Hcur in Hp.
  unfold bind, wrapErr, go_ora_WrapRefCursor in Hp.
  destruct (WrapRefCursor db (dbState w2) (mRefCursor heap (length pre)))
    as [s2 [[rows|]|cause]] eqn:Hwrap; [| | done].
  - destruct (processRowsResult_cases (rowsOpened w2) rows (mkWorld s2 (S (rowsOpened w2))))
      as (r & Hr & _).
    rewrite Hr in Hp. destruct r as [out|e]; [| done].
    apply processRowsResult_Ok_inv in Hr as Hshape.
    injection Hp as <- _ <-. split.
    { right. apply elem_of_app. right. apply elem_of_app. left. by left. }
    exists (dbState w2), s2, (Some rows). split; [done |].
    destruct Hshape as (cols & rs & Hcols & Hscans & Herr & ->).
    exists cols, rs. by rewrite Hframe, lookup_insert_eq.
  - injection Hp as <- _ <-. split.
    { right. apply elem_of_app. right. apply elem_of_app. left. by left. }
    exists (dbState w2), s2, None. split; [done |].
    by rewrite Hframe, lookup_insert_eq.
Qed.

End CursorFacts.

Lemma CallProcedure_execution_failure_witness :
  CallProcedure failingDriver "add_employee" addEmployee world0
  = (Err "execution failed for procedure 'add_employee': ORA-06550: line 1, column 7",
     world0, addEmployeeEvents)
  ∧ contains "add_employee"
      "execution failed for procedure 'add_employee': ORA-06550: line 1, column 7" = true.
Proof.
  apply (CallProcedure_execution_failure failingDriver "add_employee" addEmployee world0
           addEmployeeBound tt "ORA-06550: line 1, column 7").
  - by vm_compute.
  - by vm_compute.
Defined.

Lemma CallProcedure_error_taxonomy_witness :
  let e := "failed to process REF CURSOR for parameter cur: scan failed: unsupported Scan" in
  CallProcedure brokenCursorDriver "list_reports" listReports world0
  = (Err e, mkWorld tt 1, listReportsEvents)
  ∧ ∃ b heap p, p ∈ listReports
                ∧ resultProcessingError brokenCursorDriver heap (outputParams b) p e.
Proof.
  intros e.
  assert (CallProcedure brokenCursorDriver "list_reports" listReports world0
          = (Err e, mkWorld tt 1, listReportsEvents)) as Hrun by (by vm_compute).
  split; [exact Hrun |].
  destruct (CallProcedure_error_taxonomy brokenCursorDriver "list_reports" listReports
              world0 e (mkWorld tt 1) listReportsEvents Hrun)
    as [[Hevs _] | [(b & s & cause & _ & Hexec & _) | (b & s & heap & p & evs' & _ & _ & Hp & He & _)]].
  - discriminate Hevs.
  - discriminate Hexec.
  - exists b, heap, p. split; [exact Hp | exact He].
Defined.

Lemma CallProcedure_inputs_only_witness :
  let params := [mkParam "emp_name" "VARCHAR2" (VString "Alice") "in";
                 mkParam "salary" "NUMBER" (VString "1200.5") "In"] in
  ∃ b,
    bindParams 0 params (mkBound [] ∅) = Ok b
    ∧ args b = (λ p, sql_Named (Name p) (AValue (convertInputValue p))) <$> params
    ∧ outputParams b = ∅
    ∧ ∀ s heap,
        ExecContext idleDriver (dbState world0) (buildQuery "raise" params) (args b) zeroHeap
        = (s, Ok heap) →
        CallProcedure idleDriver "raise" params world0
        = (Ok ∅, mkWorld s (rowsOpened world0),
           [EvExecContext (buildQuery "raise" params) (args b)]).
Proof.
  intros params. apply (CallProcedure_inputs_only idleDriver "raise" params world0).
  repeat constructor.
Defined.

Lemma CallProcedure_without_cursors_witness :
  ∃ result,
    CallProcedure addEmployeeDriver "add_employee" addEmployee world0
    = (Ok result, world0, addEmployeeEvents).
Proof.
  apply (CallProcedure_without_cursors addEmployeeDriver "add_employee" addEmployee world0
           addEmployeeBound tt (storeFloat64 1 (float64_of_int 1042) zeroHeap)).
  - by vm_compute.
  - by vm_compute.
  - repeat constructor.
Defined.

Lemma CallProcedure_scalar_output_witness :
  let p := mkParam "emp_id" "NUMBER" VNil "OUT" in
  let heap := storeFloat64 1 (float64_of_int 1042) zeroHeap in
  readScalar heap (Dest_ (createOutputParameter 1 p)) = VFloat64 (float64_of_int 1042)
  ∧ addEmployeeResult !! Name p
    = Some (RValue (readScalar heap (Dest_ (createOutputParameter 1 p)))).
Proof.
  intros p heap. split; [by vm_compute |].
  apply (CallProcedure_scalar_output addEmployeeDriver "add_employee" addEmployee world0
           addEmployeeResult world0 addEmployeeEvents addEmployeeBound tt
           (storeFloat64 1 (float64_of_int 1042) zeroHeap) 1
           (mkParam "emp_id" "NUMBER" VNil "OUT")).
  - by vm_compute.
  - by vm_compute.
  - by vm_compute.
  - reflexivity.
  - reflexivity.
  - reflexivity.
  - intros [|[|[|j]]] q Hj Hq; simpl in Hq; first [lia | discriminate Hq].
Defined.

Lemma CallProcedure_cursor_output_witness :
  let p := mkParam "cur" "REF CURSOR" VNil "OUT" in
  let pre := [mkParam "dept" "NUMBER" (VInt 7) "IN"] in
  CallProcedure reportsDriver "list_reports" (pre ++ p :: []) world0
  = (Ok listReportsOfResult, mkWorld tt 1,
     [EvExecContext "BEGIN list_reports(:dept, :cur); END;" (args listReportsOfBound);
      EvWrapRefCursor (mkRefCursor 0); EvRowsOpen 0; EvRowsClose 0])
  ∧ EvWrapRefCursor (mRefCursor zeroHeap (length pre))
    ∈ [EvExecContext "BEGIN list_reports(:dept, :cur); END;" (args listReportsOfBound);
       EvWrapRefCursor (mkRefCursor 0); EvRowsOpen 0; EvRowsClose 0]
  ∧ ∃ s1 s2 wrapped,
      WrapRefCursor reportsDriver s1 (mRefCursor zeroHeap (length pre)) = (s2, Ok wrapped)
      ∧ match wrapped with
        | None => listReportsOfResult !! Name p = Some (RValue VNil)
        | Some rows =>
            ∃ cols rs, Columns rows = Ok cols ∧ scans rows = Ok <$> rs
                       ∧ rows_Err rows = None
                       ∧ listReportsOfResult !! Name p = Some (RRows (rowMaps cols rs))
        end.
Proof.
  intros p pre.
  assert (CallProcedure reportsDriver "list_reports" (pre ++ p :: []) world0
          = (Ok listReportsOfResult, mkWorld tt 1,
             [EvExecContext "BEGIN list_reports(:dept, :cur); END;" (args listReportsOfBound);
              EvWrapRefCursor (mkRefCursor 0); EvRowsOpen 0; EvRowsClose 0])) as Hrun
    by (by vm_compute).
  split; [exact Hrun |].
  apply (CallProcedure_cursor_output reportsDriver "list_reports" pre [] p world0
           listReportsOfResult (mkWorld tt 1) _ listReportsOfBound tt zeroHeap Hrun).
  - by vm_compute.
  - by vm_compute.
  - reflexivity.
  - constructor.
Defined.

(** a row set whose second row does not scan yields no rows, though the
    first one was read; an iteration error is reported only when every row
    scanned *)
Example processRowsResult_failures :
  processRowsResult 0 (mkRows (Ok ["ID"]) [Ok [VInt64 1]; Err "unsupported Scan"]
                         (Some "ORA-01555")) world0
  = (Err "scan failed: unsupported Scan", world0, [EvRowsClose 0])
  ∧ processRowsResult 0 (mkRows (Ok ["ID"]) [Ok [VInt64 1]] (Some "ORA-01555")) world0
    = (Err "rows iteration error: ORA-01555", world0, [EvRowsClose 0])
  ∧ processRowsResult 0 (mkRows (Err "closed") [Ok [VInt64 1]] None) world0
    = (Err "failed to get columns: closed", world0, [EvRowsClose 0]).
Proof. by vm_compute. Qed.

(** ** GetProcedureInfo: every outcome *)

Section ProcedureInfoMore.
Context `{GoRuntime}.
Context {Conn : Type} (db : Driver Conn).
Implicit Types w : @World Conn.

Lemma scanArguments_cases pending result :
  match firstError pending with
  | Some c => scanArguments pending result = Err ("scan failed: " +:+ c)
  | None => ∃ rs, pending = Ok <$> rs
                  ∧ scanArguments pending result = Ok (result ++ (argumentRowMap <$> rs))
  end.
Proof.
  revert result. induction pending as [|[r|c] pending IH]; intros result; simpl.
  - exists []. by rewrite app_nil_r.
  - specialize (IH (result ++ [argumentRowMap r])).
    destruct (firstError pending) as [c|]; [done |].
    destruct IH as (rs & -> & ->). exists (r :: rs). by rewrite <- app_assoc.
  - done.
Qed.

(** X10. GetProcedureInfo sends the catalog query with the name as it was given.
    When the query fails it returns the driver's error behind "failed to
    query procedure info: " and there is no row set to close. Otherwise it
    closes the row set on every path; the first row that does not scan ends
    the call with "scan failed: " and no rows, the rows read before it being
    dropped. *)
Theorem GetProcedureInfo_outcome (procedureName : string) w :
  ∃ s q,
    QueryContext db (dbState w) procedureInfoQuery procedureName = (s, q)
    ∧ match q with
      | Err cause =>
          GetProcedureInfo db procedureName w
          = (Err ("failed to query procedure info: " +:+ cause),
             mkWorld s (rowsOpened w), [EvQueryContext procedureInfoQuery procedureName])
      | Ok pending =>
          ∃ r,
            GetProcedureInfo db procedureName w
            = (r, mkWorld s (S (rowsOpened w)),
               [EvQueryContext procedureInfoQuery procedureName;
                EvRowsOpen (rowsOpened w); EvRowsClose (rowsOpened w)])
            ∧ match firstError pending with
              | Some cause => r = Err ("scan failed: " +:+ cause)
              | None => ∃ rs, pending = Ok <$> rs ∧ r = Ok (argumentRowMap <$> rs)
              end
      end.
Proof.
  destruct (QueryContext db (dbState w) procedureInfoQuery procedureName) as [s q] eqn:Hq.
  exists s, q. split; [done |].
  unfold GetProcedureInfo, bind, wrapErr, db_QueryContext, defer, lift, rows_Close.
  rewrite Hq. destruct q as [pending|cause]; [| done]. simpl.
  eexists. split; [reflexivity |].
  pose proof (scanArguments_cases pending []) as Hscan.
  destruct (firstError pending) as [c|]; [done |].
  destruct Hscan as (rs & -> & ->). by exists rs.
Qed.

End ProcedureInfoMore.

(** the catalog cannot be queried; the second catalog row does not scan *)
Example GetProcedureInfo_failures :
  GetProcedureInfo failingDriver "add_employee" world0
  = (Err "failed to query procedure info: ORA-00942", world0,
     [EvQueryContext procedureInfoQuery "add_employee"])
  ∧ GetProcedureInfo
      (fixedDriver Ok (λ _, Ok None)
         (Ok [Ok (mkArgumentRow (Some "EMP_ID") (Some "NUMBER") (Some "OUT") (Some 1%Z) None);
              Err "converting NULL to int64 is unsupported"]))
      "add_employee" world0
    = (Err "scan failed: converting NULL to int64 is unsupported", mkWorld tt 1,
       [EvQueryContext procedureInfoQuery "add_employee"; EvRowsOpen 0; EvRowsClose 0]).
Proof. by vm_compute. Qed.

(** ** Conversion: normal forms and the case of type names *)

Section ConvertMore.
Context `{GoRuntime}.
Context {Conn : Type} (db : Driver Conn).
Implicit Types w : @World Conn.

(** X11. A converted value is a fixed point of the conversion for the same type:
    converting it again changes nothing. For the text types this rests on
    fmt rendering a string as itself. *)
Theorem convertInputValue_idempotent (p : ProcedureParam) :
  (∀ s, Sprintf_v (VString s) = s) →
  convertInputValue (withValue p (convertInputValue p)) = convertInputValue p.
Proof.
  intros Hfmt. destruct p as [n t v d]. unfold convertInputValue, withValue. simpl.
  destruct (isNumericType (ToUpper t)).
  { destruct v as [| | | | | s | | |]; simpl; try done.
    destruct (ParseFloat s) eqn:Hparse; simpl; [done | by rewrite Hparse]. }
  destruct (isTextType (ToUpper t)); [by rewrite Hfmt |].
  destruct (isTemporalType (ToUpper t)).
  { destruct v as [| | | | | s | | |]; simpl; try done.
    destruct (time_Parse_RFC3339 s) eqn:Hparse; simpl; [done | by rewrite Hparse]. }
  destruct (String.eqb (ToUpper t) "BOOLEAN").
  { by destruct v. }
  destruct (isBinaryType (ToUpper t)); [by destruct v | done].
Qed.

Lemma typeVariant_bindParam i p p' b :
  typeVariant p p' → bindParam i p' b = bindParam i p b.
Proof.
  destruct p as [n t v d], p' as [n' t' v' d']. unfold typeVariant. simpl.
  intros (<- & <- & <- & Ht).
  unfold bindParam, isRefCursorType, convertInputValue, createOutputParameter. simpl.
  by rewrite <- Ht.
Qed.

Lemma typeVariant_bindParams i params params' b :
  Forall2 typeVariant params params' → bindParams i params' b = bindParams i params b.
Proof.
  intros Hv. revert i b. induction Hv as [|p p' rest rest' Hp _ IH]; intros i b; [done |].
  simpl. rewrite (typeVariant_bindParam i p p' b Hp).
  destruct (bindParam i p b); [by apply IH | done].
Qed.

Lemma typeVariant_appendPlaceholders i params params' query :
  Forall2 typeVariant params params' →
  appendPlaceholders i params' query = appendPlaceholders i params query.
Proof.
  intros Hv. revert i query. induction Hv as [|p p' rest rest' Hp _ IH]; intros i query; [done |].
  simpl. destruct Hp as (<- & _). apply IH.
Qed.

Lemma typeVariant_processOutputLoop heap outputParams params params' result w :
  Forall2 typeVariant params params' →
  processOutputLoop db heap outputParams params' result w
  = processOutputLoop db heap outputParams params result w.
Proof.
  intros Hv. revert result w.
  induction Hv as [|p p' rest rest' Hp _ IH]; intros result w; [done |].
  simpl. unfold bind.
  assert (processOutputParameter db heap outputParams p' result w
          = processOutputParameter db heap outputParams p result w) as ->.
  { destruct p as [n t v d], p' as [n' t' v' d']. unfold typeVariant in Hp. simpl in Hp.
    destruct Hp as (<- & <- & <- & Ht).
    unfold processOutputParameter, isRefCursorType. simpl. by rewrite <- Ht. }
  destruct (processOutputParameter db heap outputParams p result w) as [[[r1|e] w1] ev1];
    [| done].
  by rewrite IH.
Qed.

(** X13. The type of a parameter is matched whatever its case: two lists that
    differ only in the case of their type names are the same call, with the
    same statement, the same arguments, the same result or error. *)
Theorem CallProcedure_type_case (name : string) (params params' : list ProcedureParam) w :
  Forall2 typeVariant params params' →
  CallProcedure db name params' w = CallProcedure db name params w.
Proof.
  intros Hv. rewrite !CallProcedure_unfold.
  rewrite (typeVariant_bindParams 0 params params' _ Hv).
  destruct (bindParams 0 params (mkBound [] ∅)) as [b|e]; [| done].
  unfold buildQuery. rewrite (typeVariant_appendPlaceholders 0 params params' _ Hv).
  destruct (ExecContext db (dbState w)
              (appendPlaceholders 0 params ("BEGIN " +:+ name +:+ "(") +:+ "); END;")
              (args b) zeroHeap) as [s [heap|e]]; [| done].
  unfold processOutputParameters.
  by rewrite (typeVariant_processOutputLoop _ _ params params' _ _ Hv).
Qed.

End ConvertMore.

Lemma convertInputValue_idempotent_witness :
  let p := mkParam "salary" "number" (VString "1200.5") "IN" in
  convertInputValue (withValue p (convertInputValue p)) = convertInputValue p.
Proof.
  intros p. apply (convertInputValue_idempotent p). reflexivity.
Defined.

Lemma CallProcedure_type_case_witness :
  CallProcedure addEmployeeDriver "add_employee"
    [mkParam "emp_name" "varchar2" (VString "Alice") "IN";
     mkParam "emp_id" "Number" VNil "OUT"] world0
  = CallProcedure addEmployeeDriver "add_employee" addEmployee world0.
Proof.
  apply (CallProcedure_type_case addEmployeeDriver "add_employee" addEmployee).
  repeat constructor.
Defined.

(** ** The handlers *)

Section HandlerFacts.
Context `{GoRuntime}.
Context {Conn : Type} (db : Driver Conn).
Implicit Types w : @World Conn.

Lemma CallProcedure_released name params w r w' evs :
  CallProcedure db name params w = (r, w', evs) → all_released evs = true.
Proof.
  rewrite CallProcedure_unfold.
  destruct (bindParams 0 params (mkBound [] ∅)) as [b|e0]; [| by intros [= <- <- <-]].
  destruct (ExecContext db (dbState w) (buildQuery name params) (args b) zeroHeap)
    as [s [heap|cause]]; [| by intros [= <- <- <-]].
  destruct (processOutputParameters db heap params (outputParams b)
              (mkWorld s (rowsOpened w))) as [[r1 w1] evs1] eqn:Hout.
  intros [= <- <- <-]. unfold processOutputParameters in Hout.
  by apply processOutputLoop_cases in Hout as (_ & Hrel & _).
Qed.

(** X14. The answer of the CallProcedure handler. The code is 400 exactly when
    the body does not decode or does not validate, and then the database is
    not contacted; a request that validates is handed to the repository as
    it is, and the answer is 200 with the result as data when the call
    succeeds, 500 with the error as message when it fails. The status flag
    is up exactly for 200, every other answer carries the empty object as
    data, and no row set is left open. *)
Theorem handler_CallProcedure_answer (body : outcome CallProcedureRequest) w
    (code : Z) (resp : response.HttpResponse) w' (evs : list Event) :
  handler.CallProcedure db body w = ((code, resp), w', evs) →
  (code = 400%Z ↔ ∀ req, body = Ok req → Validate req ≠ None)
  ∧ (code = 400%Z → w' = w ∧ evs = [])
  ∧ (∀ req, body = Ok req → Validate req = None →
       ∃ r, CallProcedure db (req_Name req) (Params req) w = (r, w', evs)
            ∧ match r with
              | Ok result =>
                  code = 200%Z
                  ∧ resp = response.mkHttpResponse "Success" true (response.DObject result)
              | Err e =>
                  code = 500%Z
                  ∧ resp = response.mkHttpResponse e false (response.DObject ∅)
              end)
  ∧ response.Status resp = bool_decide (code = 200%Z)
  ∧ (code ≠ 200%Z → response.Data_ resp = response.DObject ∅)
  ∧ all_released evs = true.
Proof.
  unfold handler.CallProcedure, service.CallProcedure.
  destruct body as [req|e0].
  2: { intros [= <- <- <- <-]. repeat split; try done. }
  destruct (Validate req) as [e|] eqn:Hval.
  { intros [= <- <- <- <-]. repeat split; try done.
    - intros _ req' [= <-]. by rewrite Hval.
    - intros req' [= <-]. by rewrite Hval. }
  destruct (CallProcedure db (req_Name req) (Params req) w) as [[[result|e] w1] evs1] eqn:Hrun;
    intros [= <- <- <- <-].
  - split; [split; [done |] |].
    { intros Hall. by destruct (Hall req eq_refl). }
    split; [done |]. split.
    { intros req' [= <-] _. exists (Ok result). by rewrite Hrun. }
    split; [done |]. split; [done |]. by eapply CallProcedure_released.
  - split; [split; [done |] |].
    { intros Hall. by destruct (Hall req eq_refl). }
    split; [done |]. split.
    { intros req' [= <-] _. exists (Err e). by rewrite Hrun. }
    split; [done |]. split; [done |]. by eapply CallProcedure_released.
Qed.

(** X15. Validate does not look at what a direction says. A request that
    validates and holds a parameter the Binder rejects (an unsupported
    direction, a blank one included, or a cursor type with INOUT) is answered
    with 500 and the configuration error of the first such parameter of the
    list, the one no rejected parameter stands before, and the database is
    not contacted. When the parameter at hand is that first one, the message
    is its own configuration error. *)
Theorem handler_CallProcedure_rejected (req : CallProcedureRequest) (p : ProcedureParam) w :
  Validate req = None →
  p ∈ Params req →
  rejected p = true →
  (∃ pre q post,
     Params req = pre ++ q :: post
     ∧ Forall (λ x, rejected x = false) pre
     ∧ rejected q = true
     ∧ handler.CallProcedure db (Ok req) w
       = ((500%Z, response.mkHttpResponse (bindError q) false (response.DObject ∅)), w, []))
  ∧ (∀ pre post,
       Params req = pre ++ p :: post →
       Forall (λ x, rejected x = false) pre →
       handler.CallProcedure db (Ok req) w
       = ((500%Z, response.mkHttpResponse (bindError p) false (response.DObject ∅)), w, [])).
Proof.
  intros Hval Hp Hrej. split.
  - destruct (CallProcedure_first_rejected db (req_Name req) (Params req) p w Hp Hrej)
      as (pre & q & post & Hsplit & Hpre & Hrq & Hrun).
    exists pre, q, post. split; [done |]. split; [done |]. split; [done |].
    unfold handler.CallProcedure, service.CallProcedure. by rewrite Hval, Hrun.
  - intros pre post Hsplit Hpre.
    unfold handler.CallProcedure, service.CallProcedure.
    rewrite Hval, CallProcedure_unfold, Hsplit.
    by rewrite (bindParams_first_rejected 0 pre p post _ Hpre Hrej).
Qed.

(** X16. The GetProcedureInfo handler refuses the empty name with 400 and no
    database contact. Every other name, a blank one included, goes to the
    repository as it is: the answer is 200 with the rows as data, or 500
    with the repository's error as message, and the catalog query with that
    name is the first thing the database sees. *)
Theorem handler_GetProcedureInfo_answer (ProcedureName : string) w :
  if String.eqb ProcedureName "" then
    handler.GetProcedureInfo db (Ok ProcedureName) w
    = ((400%Z, response.mkHttpResponse "procedure_name is required" false
                 (response.DObject ∅)), w, [])
  else
    ∃ r w' evs,
      GetProcedureInfo db ProcedureName w
      = (r, w', EvQueryContext procedureInfoQuery ProcedureName :: evs)
      ∧ handler.GetProcedureInfo db (Ok ProcedureName) w
        = (match r with
           | Ok rows =>
               (200%Z, response.mkHttpResponse "Success" true (response.DRows rows))
           | Err e => (500%Z, response.mkHttpResponse e false (response.DObject ∅))
           end, w', EvQueryContext procedureInfoQuery ProcedureName :: evs).
Proof.
  unfold handler.GetProcedureInfo, service.GetProcedureInfo.
  destruct (String.eqb ProcedureName ""); [done |].
  assert (∃ r w' evs, GetProcedureInfo db ProcedureName w
                      = (r, w', EvQueryContext procedureInfoQuery ProcedureName :: evs))
    as (r & w' & evs & Hrun).
  { unfold GetProcedureInfo, bind, wrapErr, db_QueryContext, defer, lift, rows_Close.
    destruct (QueryContext db (dbState w) procedureInfoQuery ProcedureName)
      as [s [pending|cause]]; simpl; by do 3 eexists. }
  exists r, w', evs. split; [done |]. rewrite Hrun. by destruct r.
Qed.

End HandlerFacts.

Lemma handler_CallProcedure_answer_witness :
  let body := Ok (mkRequest "add_employee" addEmployee) in
  let resp := response.mkHttpResponse "Success" true (response.DObject addEmployeeResult) in
  handler.CallProcedure addEmployeeDriver body world0
  = ((200%Z, resp), world0, addEmployeeEvents)
  ∧ response.Status resp = bool_decide (200%Z = 200%Z)
  ∧ all_released addEmployeeEvents = true.
Proof.
  intros body resp.
  assert (handler.CallProcedure addEmployeeDriver body world0
          = ((200%Z, resp), world0, addEmployeeEvents)) as Hrun by (by vm_compute).
  split; [exact Hrun |].
  destruct (handler_CallProcedure_answer addEmployeeDriver body world0 200%Z resp world0
              addEmployeeEvents Hrun) as (_ & _ & _ & Hstatus & _ & Hrel).
  split; [exact Hstatus | exact Hrel].
Defined.

Lemma handler_CallProcedure_rejected_witness :
  let req := mkRequest "add_employee"
               [mkParam "emp_name" "VARCHAR2" (VString "Alice") "IN";
                mkParam "  " "" VNil " "] in
  let p := mkParam "  " "" VNil " " in
  (∃ pre q post,
     Params req = pre ++ q :: post
     ∧ Forall (λ x, rejected x = false) pre
     ∧ rejected q = true
     ∧ handler.CallProcedure idleDriver (Ok req) world0
       = ((500%Z, response.mkHttpResponse (bindError q) false (response.DObject ∅)),
          world0, []))
  ∧ (∀ pre post,
       Params req = pre ++ p :: post →
       Forall (λ x, rejected x = false) pre →
       handler.CallProcedure idleDriver (Ok req) world0
       = ((500%Z, response.mkHttpResponse (bindError p) false (response.DObject ∅)),
          world0, [])).
Proof.
  intros req p.
  apply (handler_CallProcedure_rejected idleDriver req p world0).
  - by vm_compute.
  - right. left.
  - by vm_compute.
Defined.

(** a request that does not decode, one that does not validate, one whose
    blank entry validates and is then refused, and one the database refuses *)
Example handler_CallProcedure_examples :
  handler.CallProcedure idleDriver (Err "unexpected EOF") world0
  = ((400%Z, response.mkHttpResponse "Invalid JSON format" false (response.DObject ∅)),
     world0, [])
  ∧ handler.CallProcedure idleDriver (Ok (mkRequest " " [])) world0
    = ((400%Z, response.mkHttpResponse "procedure name is required" false
                 (response.DObject ∅)), world0, [])
  ∧ handler.CallProcedure idleDriver
      (Ok (mkRequest "add_employee" [mkParam "  " "" VNil " "])) world0
    = ((500%Z, response.mkHttpResponse "unsupported parameter direction:  " false
                 (response.DObject ∅)), world0, [])
  ∧ handler.CallProcedure failingDriver (Ok (mkRequest "no_op" [])) world0
    = ((500%Z, response.mkHttpResponse
                 "execution failed for procedure 'no_op': ORA-06550: line 1, column 7"
                 false (response.DObject ∅)),
       world0, [EvExecContext "BEGIN no_op(); END;" []]).
Proof. by vm_compute. Qed.

(** a name of blanks is no empty name: it reaches the catalog *)
Example handler_GetProcedureInfo_blank_name :
  handler.GetProcedureInfo idleDriver (Ok "  ") world0
  = ((200%Z, response.mkHttpResponse "Success" true (response.DRows [])), mkWorld tt 1,
     [EvQueryContext procedureInfoQuery "  "; EvRowsOpen 0; EvRowsClose 0])
  ∧ handler.GetProcedureInfo idleDriver (Ok "") world0
    = ((400%Z, response.mkHttpResponse "procedure_name is required" false
                 (response.DObject ∅)), world0, []).
Proof. by vm_compute. Qed.

(** ** The older copy: the whole call *)

Section LegacyCallFacts.
Context `{GoRuntime}.
Context {Conn : Type} (db : LegacyRepository.Driver Conn).
Implicit Types s : Conn.

Lemma Legacy_bindArg_supported i p :
  supportedDirection (Direction p) = true → ∃ a, Legacy.bindArg i p = Ok a.
Proof.
  unfold supportedDirection, Legacy.bindArg.
  destruct (String.eqb (ToUpper (Direction p)) "IN"); [by eexists |].
  destruct (String.eqb (ToUpper (Direction p)) "OUT"); [by eexists |].
  destruct (String.eqb (ToUpper (Direction p)) "INOUT"); [by eexists | done].
Qed.

Lemma Legacy_bindArg_unsupported i p :
  supportedDirection (Direction p) = false →
  Legacy.bindArg i p = Err ("unsupported parameter direction: " +:+ Direction p).
Proof.
  unfold supportedDirection, Legacy.bindArg.
  destruct (String.eqb (ToUpper (Direction p)) "IN"); [done |].
  destruct (String.eqb (ToUpper (Direction p)) "OUT"); [done |].
  by destruct (String.eqb (ToUpper (Direction p)) "INOUT").
Qed.

(** an argument that is bound for a parameter that is not IN is a sql.Out *)
Lemma Legacy_bindArg_out i p a :
  Legacy.bindArg i p = Ok a → String.eqb (ToUpper (Direction p)) "IN" = false →
  ∃ out, a = Legacy.AOut out.
Proof.
  unfold Legacy.bindArg. intros Ha Hin. rewrite Hin in Ha.
  destruct (String.eqb (ToUpper (Direction p)) "OUT"); [injection Ha as <-; by eexists |].
  destruct (String.eqb (ToUpper (Direction p)) "INOUT"); [injection Ha as <-; by eexists | done].
Qed.

Lemma Legacy_bindArgs_Ok i params args args' :
  LegacyRepository.bindArgs i params args = Ok args' →
  Forall (λ p, supportedDirection (Direction p) = true) params
  ∧ ∃ new, args' = args ++ new ∧ length new = length params
           ∧ ∀ k p, params !! k = Some p →
               ∃ a, Legacy.bindArg (i + k) p = Ok a ∧ new !! k = Some a.
Proof.
  revert i args. induction params as [|p rest IH]; intros i args; simpl.
  - intros [= <-]. split; [constructor |]. exists []. by rewrite app_nil_r.
  - destruct (supportedDirection (Direction p)) eqn:Hs.
    2: { by rewrite (Legacy_bindArg_unsupported i p Hs). }
    destruct (Legacy.bindArg i p) as [a|e] eqn:Ha; [| done]. intros Hrest.
    destruct (IH _ _ Hrest) as (Hall & new & -> & Hlen & Hat).
    split; [by constructor |]. exists (a :: new).
    split; [by rewrite <- app_assoc |]. split; [simpl; lia |].
    intros [|k] q Hq; simpl in Hq.
    + injection Hq as <-. exists a. by rewrite Nat.add_0_r.
    + destruct (Hat k q Hq) as (b & Hb & Hk). exists b.
      by rewrite <- Nat.add_succ_comm.
Qed.

Lemma Legacy_bindArgs_Err i params args e :
  LegacyRepository.bindArgs i params args = Err e →
  ∃ q, q ∈ params ∧ supportedDirection (Direction q) = false
       ∧ e = "unsupported parameter direction: " +:+ Direction q.
Proof.
  revert i args. induction params as [|p rest IH]; intros i args; simpl; [done |].
  destruct (supportedDirection (Direction p)) eqn:Hs.
  - destruct (Legacy_bindArg_supported i p Hs) as [a ->]. intros Hrest.
    destruct (IH _ _ Hrest) as (q & Hq & Hrest').
    exists q. split; [by right | done].
  - rewrite (Legacy_bindArg_unsupported i p Hs). intros [= <-].
    exists p. split; [by left | done].
Qed.

Lemma Legacy_bindArgs_accepted i params args :
  Forall (λ p, supportedDirection (Direction p) = true) params →
  ∃ args', LegacyRepository.bindArgs i params args = Ok args'.
Proof.
  intros Hall. revert i args. induction Hall as [|p rest Hp _ IH]; intros i args; simpl.
  - by eexists.
  - destruct (Legacy_bindArg_supported i p Hp) as [a ->]. apply IH.
Qed.

Lemma Legacy_processRowsResult_events a rows s :
  ∃ r, LegacyRepository.processRowsResult a rows s
       = (r, s, [LegacyRepository.EvRowsClose a]).
Proof. unfold LegacyRepository.processRowsResult. by eexists. Qed.

Lemma Legacy_processOutputParameter_events heap args i p result s r s' evs :
  LegacyRepository.processOutputParameter heap args i p result s = (r, s', evs) →
  Forall (λ ev, isRowsClose ev = true) evs.
Proof.
  unfold LegacyRepository.processOutputParameter.
  destruct (String.eqb (ToUpper (Direction p)) "IN"); [by intros [= <- <- <-] |].
  destruct (args !! i) as [[v|out]|]; try by intros [= <- <- <-].
  destruct (Legacy.Dest_ out) as [a|a|a|a|a].
  - destruct (LegacyRepository.mRows heap a) as [rows|]; [| by intros [= <- <- <-]].
    destruct (Legacy_processRowsResult_events a rows s) as [r0 ->].
    destruct r0; intros [= <- <- <-]; by repeat constructor.
  - destruct (nf_Valid _); by intros [= <- <- <-].
  - destruct (ns_Valid _); by intros [= <- <- <-].
  - destruct (nt_Valid _); by intros [= <- <- <-].
  - by intros [= <- <- <-].
Qed.

Lemma Legacy_processOutputLoop_events heap args i params result s r s' evs :
  LegacyRepository.processOutputLoop heap args i params result s = (r, s', evs) →
  Forall (λ ev, isRowsClose ev = true) evs.
Proof.
  revert i result s evs. induction params as [|p rest IH]; intros i result s evs; simpl.
  - by intros [= <- <- <-].
  - destruct (LegacyRepository.processOutputParameter heap args i p result s)
      as [[[result1|e] s1] ev1] eqn:Hp.
    + destruct (LegacyRepository.processOutputLoop heap args (S i) rest result1 s1)
        as [[r2 s2] ev2] eqn:Hloop.
      intros [= <- <- <-]. apply Forall_app. split.
      * by eapply Legacy_processOutputParameter_events.
      * by eapply IH.
    + intros [= <- <- <-]. by eapply Legacy_processOutputParameter_events.
Qed.

(** X17. The older CallProcedure reaches the database exactly when every direction
    is supported, a cursor type with INOUT included. A statement that could
    not be prepared leaves one event, the failed prepare, and an error that
    quotes the statement. A statement that was prepared is executed once and
    closed as the last thing on every path; in between only row sets are
    closed. *)
Theorem Legacy_CallProcedure_trace (name : string) (params : list ProcedureParam) (s : Conn) :
  ∃ r s' evs,
    LegacyRepository.CallProcedure db name params s = (r, s', evs)
    ∧ if forallb (λ p, supportedDirection (Direction p)) params then
        let query := LegacyRepository.buildQuery name params in
        (∃ cause,
           r = Err ("prepare failed for query '" +:+ query +:+ "': " +:+ cause)
           ∧ evs = [LegacyRepository.EvPrepareContext query])
        ∨ (∃ args mid,
             length args = length params
             ∧ evs = LegacyRepository.EvPrepareContext query
                     :: LegacyRepository.EvStmtExecContext query args
                     :: mid ++ [LegacyRepository.EvStmtClose query]
             ∧ Forall (λ ev, isRowsClose ev = true) mid)
      else
        evs = [] ∧ s' = s
        ∧ ∃ q, q ∈ params ∧ supportedDirection (Direction q) = false
               ∧ r = Err ("unsupported parameter direction: " +:+ Direction q).
Proof.
  unfold LegacyRepository.CallProcedure.
  destruct (LegacyRepository.bindArgs 0 params []) as [args|e] eqn:Hbind.
  - destruct (Legacy_bindArgs_Ok _ _ _ _ Hbind) as (Hall & new & -> & Hlen & _).
    pose proof (proj1 (Forall_forall _ _) Hall) as Hall'.
    assert (forallb (λ p, supportedDirection (Direction p)) params = true) as ->.
    { apply forallb_forall. intros p Hp. apply Hall'. by apply list_elem_of_In. }
    destruct (LegacyRepository.PrepareContext db s (LegacyRepository.buildQuery name params))
      as [s1 [cause|]].
    { do 3 eexists. split; [reflexivity |]. left. by exists cause. }
    destruct (LegacyRepository.stmt_ExecContext db s1
                (LegacyRepository.buildQuery name params) ([] ++ new)
                LegacyRepository.zeroHeap) as [s2 [heap|cause]].
    + destruct (LegacyRepository.processOutputParameters heap params ([] ++ new) s2)
        as [[r s3] evs] eqn:Hout.
      do 3 eexists. split; [reflexivity |]. right. exists ([] ++ new), evs.
      split; [done |]. split; [done |].
      by eapply Legacy_processOutputLoop_events.
    + do 3 eexists. split; [reflexivity |]. right. exists ([] ++ new), [].
      split; [done |]. split; [done | constructor].
  - destruct (Legacy_bindArgs_Err _ _ _ _ Hbind) as (q & Hq & Hs & ->).
    assert (forallb (λ p, supportedDirection (Direction p)) params = false) as ->.
    { apply not_true_is_false. intros Hall. rewrite forallb_forall in Hall.
      apply list_elem_of_In in Hq. specialize (Hall q Hq). simpl in Hall. congruence. }
    do 3 eexists. split; [reflexivity |]. split; [done |]. split; [done |]. by exists q.
Qed.

Lemma sameButOutputValue_bindArg i p p' :
  sameButOutputValue p p' → Legacy.bindArg i p' = Legacy.bindArg i p.
Proof.
  destruct p as [n t v d], p' as [n' t' v' d'].
  unfold sameButOutputValue, sameButValue. simpl. intros ((<- & <- & <-) & Hv).
  unfold Legacy.bindArg, Legacy.convertInputValue, Legacy.createOutputParameter,
    Legacy.createInOutParameter. simpl.
  destruct (String.eqb (ToUpper d) "IN"); [by rewrite Hv | done].
Qed.

Lemma sameButOutputValue_bindArgs i params params' args :
  Forall2 sameButOutputValue params params' →
  LegacyRepository.bindArgs i params' args = LegacyRepository.bindArgs i params args.
Proof.
  intros Hv. revert i args. induction Hv as [|p p' rest rest' Hp _ IH]; intros i args; [done |].
  simpl. rewrite (sameButOutputValue_bindArg i p p' Hp).
  destruct (Legacy.bindArg i p); [apply IH | done].
Qed.

Lemma sameButOutputValue_buildQuery name params params' :
  Forall2 sameButOutputValue params params' →
  LegacyRepository.buildQuery name params' = LegacyRepository.buildQuery name params.
Proof.
  intros Hv. unfold LegacyRepository.buildQuery.
  assert ((λ p, ":" +:+ Name p) <$> params' = (λ p, ":" +:+ Name p) <$> params) as ->; [| done].
  induction Hv as [|p p' rest rest' Hp _ IH]; [done |].
  rewrite !fmap_cons, IH. by destruct Hp as ((<- & _) & _).
Qed.

Lemma sameButOutputValue_processOutputLoop heap args i params params' result s :
  Forall2 sameButOutputValue params params' →
  LegacyRepository.processOutputLoop heap args i params' result s
  = LegacyRepository.processOutputLoop heap args i params result s.
Proof.
  intros Hv. revert i result s.
  induction Hv as [|p p' rest rest' Hp _ IH]; intros i result s; [done |].
  simpl.
  assert (LegacyRepository.processOutputParameter heap args i p' result s
          = LegacyRepository.processOutputParameter heap args i p result s) as ->.
  { destruct Hp as ((Hn & _ & Hd) & _).
    unfold LegacyRepository.processOutputParameter. by rewrite <- Hn, <- Hd. }
  destruct (LegacyRepository.processOutputParameter heap args i p result s)
    as [[[r1|e] s1] ev1]; [| done].
  by rewrite IH.
Qed.

(** X18. The older version never sends the value of an OUT or INOUT parameter:
    two lists that agree in names, types, directions and in the values of
    their IN parameters are the same call, whatever the values of the other
    parameters are. *)
Theorem Legacy_CallProcedure_ignores_output_values (name : string)
    (params params' : list ProcedureParam) (s : Conn) :
  Forall2 sameButOutputValue params params' →
  LegacyRepository.CallProcedure db name params' s
  = LegacyRepository.CallProcedure db name params s.
Proof.
  intros Hv. unfold LegacyRepository.CallProcedure.
  rewrite (sameButOutputValue_bindArgs 0 params params' [] Hv).
  rewrite (sameButOutputValue_buildQuery name params params' Hv).
  destruct (LegacyRepository.bindArgs 0 params []) as [args|e]; [| done].
  destruct (LegacyRepository.PrepareContext db s (LegacyRepository.buildQuery name params))
    as [s1 [cause|]]; [done |].
  destruct (LegacyRepository.stmt_ExecContext db s1 (LegacyRepository.buildQuery name params)
              args LegacyRepository.zeroHeap) as [s2 [heap|cause]]; [| done].
  unfold LegacyRepository.processOutputParameters.
  by rewrite (sameButOutputValue_processOutputLoop heap args 0 params params' ∅ s2 Hv).
Qed.

Lemma Legacy_scanRows_Ok_inv cols pending allRows out :
  LegacyRepository.scanRows cols pending allRows = Ok out →
  ∃ rs, pending = Ok <$> rs ∧ out = allRows ++ legacyRowMaps cols rs.
Proof.
  revert allRows. induction pending as [|[r|e] pending IH]; intros allRows; simpl.
  - intros [= <-]. exists []. by rewrite app_nil_r.
  - intros Hrest. destruct (IH _ Hrest) as (rs & -> & ->).
    exists (r :: rs). by rewrite <- app_assoc.
  - done.
Qed.

Lemma Legacy_processOutputParameter_read heap args i p result s r1 s1 ev out :
  LegacyRepository.processOutputParameter heap args i p result s = (Ok r1, s1, ev) →
  String.eqb (ToUpper (Direction p)) "IN" = false →
  args !! i = Some (Legacy.AOut out) →
  ∃ v, r1 !! Name p = Some v ∧ legacyEntry heap (Legacy.Dest_ out) v.
Proof.
  unfold LegacyRepository.processOutputParameter, legacyEntry. intros Hrun Hin Hout.
  rewrite Hin, Hout in Hrun.
  destruct (Legacy.Dest_ out) as [a|a|a|a|a]; simpl.
  - destruct (LegacyRepository.mRows heap a) as [rows|].
    + unfold LegacyRepository.processRowsResult in Hrun.
      destruct (Columns rows) as [cols|c] eqn:Hcols; [| done].
      destruct (LegacyRepository.scanRows cols (scans rows) []) as [allRows|e] eqn:Hscan;
        [| done].
      destruct (rows_Err rows) as [c|] eqn:Herr; [done |].
      injection Hrun as <- _ _. eexists. split; [by rewrite lookup_insert_eq |].
      destruct (Legacy_scanRows_Ok_inv _ _ _ _ Hscan) as (rs & Hrs & ->).
      by exists cols, rs.
    + injection Hrun as <- _ _. eexists. by rewrite lookup_insert_eq.
  - destruct (nf_Valid _); injection Hrun as <- _ _; eexists; by rewrite lookup_insert_eq.
  - destruct (ns_Valid _); injection Hrun as <- _ _; eexists; by rewrite lookup_insert_eq.
  - destruct (nt_Valid _); injection Hrun as <- _ _; eexists; by rewrite lookup_insert_eq.
  - injection Hrun as <- _ _. eexists. by rewrite lookup_insert_eq.
Qed.

Lemma Legacy_processOutputParameter_frame heap args i p result s r1 s1 ev n :
  LegacyRepository.processOutputParameter heap args i p result s = (Ok r1, s1, ev) →
  (Name p = n → String.eqb (ToUpper (Direction p)) "IN" = true) →
  r1 !! n = result !! n.
Proof.
  unfold LegacyRepository.processOutputParameter. intros Hrun Hn.
  destruct (String.eqb (ToUpper (Direction p)) "IN") eqn:Hin; [by injection Hrun as <- _ _ |].
  assert (Name p ≠ n) as Hne by (intros Heq; by specialize (Hn Heq)).
  destruct (args !! i) as [[v|out]|]; try by injection Hrun as <- _ _.
  destruct (Legacy.Dest_ out) as [a|a|a|a|a].
  - destruct (LegacyRepository.mRows heap a) as [rows|].
    + destruct (LegacyRepository.processRowsResult a rows s) as [[[rowsData|e] s0] ev0];
        [| done].
      injection Hrun as <- _ _. by rewrite lookup_insert_ne.
    + injection Hrun as <- _ _. by rewrite lookup_insert_ne.
  - destruct (nf_Valid _); injection Hrun as <- _ _; by rewrite lookup_insert_ne.
  - destruct (ns_Valid _); injection Hrun as <- _ _; by rewrite lookup_insert_ne.
  - destruct (nt_Valid _); injection Hrun as <- _ _; by rewrite lookup_insert_ne.
  - injection Hrun as <- _ _. by rewrite lookup_insert_ne.
Qed.

Lemma Legacy_processOutputLoop_frame heap args i params result s result' s' evs n :
  LegacyRepository.processOutputLoop heap args i params result s = (Ok result', s', evs) →
  (∀ q, q ∈ params → Name q = n → String.eqb (ToUpper (Direction q)) "IN" = true) →
  result' !! n = result !! n.
Proof.
  revert i result s evs. induction params as [|p rest IH]; intros i result s evs; simpl.
  - by intros [= <- <- <-].
  - destruct (LegacyRepository.processOutputParameter heap args i p result s)
      as [[[r1|e] s1] ev1] eqn:Hp; [| done].
    destruct (LegacyRepository.processOutputLoop heap args (S i) rest r1 s1)
      as [[r2 s2] ev2] eqn:Hloop.
    intros [= -> <- <-] Hquiet.
    rewrite (IH _ _ _ _ Hloop) by (intros q Hq; apply Hquiet; by right).
    eapply Legacy_processOutputParameter_frame; [exact Hp |]. apply Hquiet. by left.
Qed.

Lemma Legacy_processOutputLoop_read heap args i params result s result' s' evs k p out :
  LegacyRepository.processOutputLoop heap args i params result s = (Ok result', s', evs) →
  params !! k = Some p →
  String.eqb (ToUpper (Direction p)) "IN" = false →
  args !! (i + k)%nat = Some (Legacy.AOut out) →
  (∀ j q, (k < j)%nat → params !! j = Some q → Name q = Name p →
          String.eqb (ToUpper (Direction q)) "IN" = true) →
  ∃ v, result' !! Name p = Some v ∧ legacyEntry heap (Legacy.Dest_ out) v.
Proof.
  revert i result s evs k. induction params as [|x rest IH]; intros i result s evs k; [done |].
  simpl.
  destruct (LegacyRepository.processOutputParameter heap args i x result s)
    as [[[r1|e] s1] ev1] eqn:Hp; [| done].
  destruct (LegacyRepository.processOutputLoop heap args (S i) rest r1 s1)
    as [[r2 s2] ev2] eqn:Hloop.
  intros [= -> <- <-] Hk Hin Hout Hlast. destruct k as [|k]; simpl in Hk.
  - injection Hk as ->. rewrite Nat.add_0_r in Hout.
    rewrite (Legacy_processOutputLoop_frame _ _ _ _ _ _ _ _ _ (Name p) Hloop).
    + by eapply Legacy_processOutputParameter_read.
    + intros q Hq Hn. apply list_elem_of_lookup in Hq as [j Hj].
      apply (Hlast (S j) q); [lia | done | done].
  - eapply (IH _ _ _ _ k Hloop Hk Hin).
    + by rewrite Nat.add_succ_comm.
    + intros j q Hj Hq. apply (Hlast (S j) q); [lia | done].
Qed.

(** X19. What the older CallProcedure returns for an OUT or INOUT parameter that
    is the last parameter of its name that is not IN: the argument bound at
    the parameter's own position is a sql.Out, and the entry is read from its
    destination: the value, nil when a nullable destination is not valid or
    the row set is nil, the rows unconverted when a row set came back. *)
Theorem Legacy_CallProcedure_output (name : string) (params : list ProcedureParam) (s : Conn)
    (result : gmap string ResultValue) (s' : Conn) (evs : list LegacyRepository.Event)
    (args : list Legacy.Arg) (s1 s2 : Conn) (heap : LegacyRepository.Heap)
    (k : nat) (p : ProcedureParam) :
  LegacyRepository.CallProcedure db name params s = (Ok result, s', evs) →
  LegacyRepository.bindArgs 0 params [] = Ok args →
  LegacyRepository.PrepareContext db s (LegacyRepository.buildQuery name params) = (s1, None) →
  LegacyRepository.stmt_ExecContext db s1 (LegacyRepository.buildQuery name params) args
    LegacyRepository.zeroHeap = (s2, Ok heap) →
  params !! k = Some p →
  String.eqb (ToUpper (Direction p)) "IN" = false →
  (∀ j q, (k < j)%nat → params !! j = Some q → Name q = Name p →
          String.eqb (ToUpper (Direction q)) "IN" = true) →
  ∃ out v,
    Legacy.bindArg k p = Ok (Legacy.AOut out)
    ∧ args !! k = Some (Legacy.AOut out)
    ∧ result !! Name p = Some v
    ∧ legacyEntry heap (Legacy.Dest_ out) v.
Proof.
  intros Hrun Hbind Hprep Hexec Hk Hin Hlast.
  unfold LegacyRepository.CallProcedure in Hrun. rewrite Hbind, Hprep, Hexec in Hrun.
  destruct (LegacyRepository.processOutputParameters heap params args s2)
    as [[r s3] evs1] eqn:Hout.
  injection Hrun as -> _ _. unfold LegacyRepository.processOutputParameters in Hout.
  destruct (Legacy_bindArgs_Ok _ _ _ _ Hbind) as (_ & new & -> & _ & Hat).
  destruct (Hat k p Hk) as (a & Ha & Hnew). simpl in Ha, Hnew.
  destruct (Legacy_bindArg_out k p a Ha Hin) as [out ->].
  destruct (Legacy_processOutputLoop_read _ _ _ _ _ _ _ _ _ k p out Hout Hk Hin Hnew Hlast)
    as (v & Hv & Hentry).
  by exists out, v.
Qed.

End LegacyCallFacts.

Lemma Legacy_CallProcedure_ignores_output_values_witness :
  LegacyRepository.CallProcedure legacyEmployeeDriver "raise"
    [mkParam "emp_name" "VARCHAR2" (VString "Alice") "IN";
     mkParam "salary" "NUMBER" (VInt 99) "INOUT"] tt
  = LegacyRepository.CallProcedure legacyEmployeeDriver "raise"
      [mkParam "emp_name" "VARCHAR2" (VString "Alice") "IN";
       mkParam "salary" "NUMBER" (VInt 5) "INOUT"] tt.
Proof.
  apply (Legacy_CallProcedure_ignores_output_values legacyEmployeeDriver "raise").
  repeat constructor. intros Hin. discriminate Hin.
Defined.

Lemma Legacy_CallProcedure_output_witness :
  let p := mkParam "emp_id" "NUMBER" VNil "OUT" in
  LegacyRepository.CallProcedure legacyEmployeeDriver "add_employee" addEmployee tt
  = (Ok addEmployeeResult, tt, legacyEmployeeEvents)
  ∧ ∃ out v,
      Legacy.bindArg 1 p = Ok (Legacy.AOut out)
      ∧ legacyEmployeeArgs !! 1%nat = Some (Legacy.AOut out)
      ∧ addEmployeeResult !! Name p = Some v
      ∧ legacyEntry legacyEmployeeHeap (Legacy.Dest_ out) v.
Proof.
  intros p.
  assert (LegacyRepository.CallProcedure legacyEmployeeDriver "add_employee" addEmployee tt
          = (Ok addEmployeeResult, tt, legacyEmployeeEvents)) as Hrun by (by vm_compute).
  split; [exact Hrun |].
  apply (Legacy_CallProcedure_output legacyEmployeeDriver "add_employee" addEmployee tt
           addEmployeeResult tt legacyEmployeeEvents legacyEmployeeArgs tt tt
           legacyEmployeeHeap 1 p Hrun).
  - by vm_compute.
  - reflexivity.
  - reflexivity.
  - reflexivity.
  - reflexivity.
  - intros [|[|[|j]]] q Hj Hq; simpl in Hq; first [lia | discriminate Hq].
Defined.

(** the older copy prepares and runs a call with a cursor declared INOUT,
    under either spelling of the type; a statement that cannot be prepared
    is reported with its text *)
Example Legacy_CallProcedure_examples :
  LegacyRepository.CallProcedure (LegacyRepository.fixedDriver None (Ok LegacyRepository.zeroHeap))
    "list_reports" [mkParam "cur" "SYS_REFCURSOR" VNil "INOUT"] tt
  = (Ok (<["cur" := RValue VNil]> ∅), tt,
     [LegacyRepository.EvPrepareContext "BEGIN list_reports(:cur); END;";
      LegacyRepository.EvStmtExecContext "BEGIN list_reports(:cur); END;"
        [Legacy.AOut (Legacy.mkOut (Legacy.PAny 0) true)];
      LegacyRepository.EvStmtClose "BEGIN list_reports(:cur); END;"])
  ∧ LegacyRepository.CallProcedure
      (LegacyRepository.fixedDriver (Some "ORA-03113") (Ok LegacyRepository.zeroHeap))
      "no_op" [] tt
    = (Err "prepare failed for query 'BEGIN no_op(); END;': ORA-03113", tt,
       [LegacyRepository.EvPrepareContext "BEGIN no_op(); END;"]).
Proof. by vm_compute. Qed.

Lemma Legacy_bindArg_inout_witness :
  let p := mkParam "cur" "sys_refcursor" VNil "inout" in
  Legacy.bindArg 0 p = Ok (Legacy.AOut (Legacy.createInOutParameter 0 p))
  ∧ (Legacy.isRowsType (ToUpper (Type_ p)) = true →
       Legacy.createInOutParameter 0 p = Legacy.mkOut (Legacy.PAny 0) true).
Proof.
  intros p. apply (Legacy_bindArg_inout 0 p). reflexivity.
Defined.

Section LegacyRowsFacts.
Context `{GoRuntime}.
Context {Conn : Type}.

Lemma Legacy_scanRows_Ok cols rs allRows :
  LegacyRepository.scanRows cols (Ok <$> rs) allRows = Ok (allRows ++ legacyRowMaps cols rs).
Proof.
  revert allRows. induction rs as [|r rs IH]; intros allRows; simpl.
  - by rewrite app_nil_r.
  - rewrite IH, <- app_assoc. done.
Qed.

(** X20. When the columns are known, every row scans and the iteration ends
    without error, the older processRowsResult returns one map per fetched
    row, in fetch order, and closes the row set. The value under a column
    name is the scanned value of the last column of that name as it was
    scanned: a byte slice stays a byte slice, a time stays a time. *)
Theorem Legacy_processRowsResult_rows (a : nat) (rows : Rows) (cols : list string)
    (rs : list (list any)) (s : Conn) :
  Columns rows = Ok cols →
  scans rows = Ok <$> rs →
  rows_Err rows = None →
  LegacyRepository.processRowsResult a rows s
  = (Ok (legacyRowMaps cols rs), s, [LegacyRepository.EvRowsClose a])
  ∧ length (legacyRowMaps cols rs) = length rs
  ∧ ∀ k r, rs !! k = Some r →
      ∃ m : gmap string any,
        legacyRowMaps cols rs !! k = Some m
        ∧ ∀ i c, cols !! i = Some c → c ∉ drop (S i) cols → m !! c = Some (nth i r VNil).
Proof.
  intros Hcols Hscans Herr. split; [| split].
  - unfold LegacyRepository.processRowsResult.
    by rewrite Hcols, Hscans, Legacy_scanRows_Ok, Herr.
  - unfold legacyRowMaps. by rewrite length_fmap.
  - intros k r Hk. exists (Legacy.fillRowMap 0 cols r ∅). split.
    + unfold legacyRowMaps. by rewrite list_lookup_fmap, Hk.
    + intros i c Hi Hlast. by rewrite (Legacy_fillRowMap_lookup_last 0 cols r ∅ i c Hi Hlast).
Qed.

End LegacyRowsFacts.

Lemma Legacy_processRowsResult_rows_witness :
  let rows := mkRows (Ok ["ID"; "PHOTO"]) [Ok [VInt64 7; VBytes "abc"]] None in
  LegacyRepository.processRowsResult 0 rows tt
  = (Ok (legacyRowMaps ["ID"; "PHOTO"] [[VInt64 7; VBytes "abc"]]), tt,
     [LegacyRepository.EvRowsClose 0])
  ∧ length (legacyRowMaps ["ID"; "PHOTO"] [[VInt64 7; VBytes "abc"]]) = 1%nat
  ∧ ∀ k r, [[VInt64 7; VBytes "abc"]] !! k = Some r →
      ∃ m : gmap string any,
        legacyRowMaps ["ID"; "PHOTO"] [[VInt64 7; VBytes "abc"]] !! k = Some m
        ∧ ∀ i c, ["ID"; "PHOTO"] !! i = Some c → c ∉ drop (S i) ["ID"; "PHOTO"] →
            m !! c = Some (nth i r VNil).
Proof.
  intros rows.
  apply (Legacy_processRowsResult_rows 0 rows ["ID"; "PHOTO"] [[VInt64 7; VBytes "abc"]] tt);
    reflexivity.
Defined.

(** ** What reaches the driver as an input value *)

Section ConvertKinds.
Context `{GoRuntime}.

Lemma elem_of_list_cases (t : string) (l : list string) (P : string → Prop) :
  Forall P l → t ∈ l → P t.
Proof. intros Hall Ht. rewrite Forall_forall in Hall. by apply Hall. Qed.

(** X12. The kind of value the conversion hands to the driver, by the family of
    the type: for a numeric type never a Go int or int64 (they become
    float64); for a text type always a string; for BOOLEAN always a bool; for
    RAW and BLOB never a string (it becomes the bytes). *)
Theorem convertInputValue_kinds (p : ProcedureParam) :
  (isNumericType (ToUpper (Type_ p)) = true →
     ∀ n, convertInputValue p ≠ VInt n ∧ convertInputValue p ≠ VInt64 n)
  ∧ (isTextType (ToUpper (Type_ p)) = true →
       convertInputValue p = VString (Sprintf_v (Value p)))
  ∧ (ToUpper (Type_ p) = "BOOLEAN" → ∃ b, convertInputValue p = VBool b)
  ∧ (isBinaryType (ToUpper (Type_ p)) = true → ∀ s, convertInputValue p ≠ VString s).
Proof.
  split; [| split; [| split]].
  - intros Hn n. unfold convertInputValue. rewrite Hn.
    destruct (Value p) as [| | | | | s | | |]; try done.
    by destruct (ParseFloat s).
  - intros Ht. unfold convertInputValue.
    assert (isNumericType (ToUpper (Type_ p)) = false) as ->; [| by rewrite Ht].
    apply bool_decide_eq_true in Ht. revert Ht.
    apply (elem_of_list_cases _ _ (λ t, isNumericType t = false)).
    by repeat constructor.
  - intros Ht. unfold convertInputValue. rewrite Ht. simpl.
    destruct (Value p); by eexists.
  - intros Ht s. unfold convertInputValue.
    assert (isNumericType (ToUpper (Type_ p)) = false
            ∧ isTextType (ToUpper (Type_ p)) = false
            ∧ isTemporalType (ToUpper (Type_ p)) = false
            ∧ String.eqb (ToUpper (Type_ p)) "BOOLEAN" = false) as (-> & -> & -> & ->).
    { apply bool_decide_eq_true in Ht. revert Ht.
      apply (elem_of_list_cases _ _
               (λ t, isNumericType t = false ∧ isTextType t = false
                     ∧ isTemporalType t = false ∧ String.eqb t "BOOLEAN" = false)).
      by repeat constructor. }
    rewrite Ht. by destruct (Value p).
Qed.

End ConvertKinds.

(** 42 for NUMBER goes out as a float64, "abc" for RAW as its bytes, true
    for CLOB as its text; a type with a blank before it is no known type *)
Example convertInputValue_examples :
  convertInputValue (mkParam "n" "Number" (VInt 42) "IN") = VFloat64 (float64_of_int 42)
  ∧ convertInputValue (mkParam "b" "raw" (VString "abc") "IN") = VBytes "abc"
  ∧ convertInputValue (mkParam "t" "clob" (VBool true) "IN") = VString "true"
  ∧ convertInputValue (mkParam " n" " NUMBER" (VInt 42) "IN") = VInt 42.
Proof. by vm_compute. Qed.
